(** * dwm (zoriya's build): a shallow embedding of the window-management
    state machine of [dwm.c] and the properties checked against it.

    The embedding follows the C source function by function.  Pointers to
    [Client] structures are addresses into a heap ([gmap nat Client]); the
    [next] and [snext] chains of the single shared [Clientlist] are lists of
    such addresses; monitors are the elements of the [mons] chain, addressed
    by their position.  The X server is represented by the part of its state
    the properties talk about: the two root-window client-list properties and
    the [XConfigureWindow] requests that carry a geometry and a border width.
    Requests that only draw, grab, raise, warp or send events never feed back
    into the window manager's own state and are left out. *)

From Stdlib Require Import ZArith Lia Bool List Ascii String DecimalString.
From Stdlib Require Import Floats.SpecFloat.
From stdpp Require Import base option list gmap.

Open Scope Z_scope.

(** ** C integers *)

Module CInt.

(** [int] is 32 bits wide.  Signed overflow is undefined in C; the model
    follows the two's complement wrap-around of the compiled program. *)
Definition sint (z : Z) : Z := (z + 2 ^ 31) mod 2 ^ 32 - 2 ^ 31.

(** [unsigned int] arithmetic is modulo 2^32. *)
Definition uint (z : Z) : Z := z mod 2 ^ 32.

Definition in_int (z : Z) : Prop := - 2 ^ 31 <= z < 2 ^ 31.

Definition add (a b : Z) : Z := sint (a + b).
Definition sub (a b : Z) : Z := sint (a - b).
Definition mul (a b : Z) : Z := sint (a * b).
(** [/] and [%] truncate towards zero. *)
Definition div (a b : Z) : Z := sint (Z.quot a b).
Definition rem (a b : Z) : Z := sint (Z.rem a b).
Definition abs (a : Z) : Z := sint (Z.abs a).
(** [~x] on an [unsigned int]. *)
Definition unot (a : Z) : Z := uint (- a - 1).

End CInt.

Import CInt.

Declare Scope cint_scope.
Delimit Scope cint_scope with cint.
Infix "+i" := add (at level 50, left associativity) : cint_scope.
Infix "-i" := sub (at level 50, left associativity) : cint_scope.
Infix "*i" := mul (at level 40, left associativity) : cint_scope.
Infix "/i" := div (at level 40, left associativity) : cint_scope.
Open Scope cint_scope.

(** ** C floating point

    [float] is IEEE binary32 and [double] binary64, both with round to
    nearest even and no excess precision.  Values are the [spec_float] of the
    standard library, kept canonical for their format. *)

Module CFloat.

Definition float := spec_float.
Definition double := spec_float.

Definition fprec : Z := 24.
Definition femax : Z := 128.
Definition dprec : Z := 53.
Definition demax : Z := 1024.

(** Promotion [float -> double] is exact; it renormalises the mantissa. *)
Definition double_of_float (f : float) : double :=
  match f with
  | S754_finite s m e => binary_round dprec demax s m e
  | _ => f
  end.

(** Conversion [double -> float] rounds. *)
Definition float_of_double (d : double) : float :=
  match d with
  | S754_finite s m e => binary_round fprec femax s m e
  | _ => d
  end.

Definition float_of_int (z : Z) : float := binary_normalize fprec femax z 0 false.
Definition double_of_int (z : Z) : double := binary_normalize dprec demax z 0 false.

(** Conversion to [int] truncates towards zero; a NaN, an infinity or a
    value outside the range of [int] gives the "integer indefinite" value
    [INT_MIN] of the x86 conversion instructions. *)
Definition int_of_double (d : double) : Z :=
  match d with
  | S754_zero _ => 0
  | S754_finite s m e =>
      let a := match e with
               | Zneg p => Z.shiftr (Zpos m) (Zpos p)
               | _ => Z.shiftl (Zpos m) e
               end in
      let v := if s then - a else a in
      if (- 2 ^ 31 <=? v) && (v <? 2 ^ 31) then v else - 2 ^ 31
  | _ => - 2 ^ 31
  end.

Definition fadd : float -> float -> float := SFadd fprec femax.
Definition fmul : float -> float -> float := SFmul fprec femax.
Definition fdiv : float -> float -> float := SFdiv fprec femax.
Definition dadd : double -> double -> double := SFadd dprec demax.
Definition dsub : double -> double -> double := SFsub dprec demax.
Definition ddiv : double -> double -> double := SFdiv dprec demax.

Definition flt : spec_float -> spec_float -> bool := SFltb.
Definition fle : spec_float -> spec_float -> bool := SFleb.

Definition is_nan (f : spec_float) : bool :=
  match f with S754_nan => true | _ => false end.

(** The decimal literals of the source, as their nearest [double]. *)
Definition d_1_0 : double := S754_finite false 4503599627370496 (-52).
Definition d_0_5 : double := S754_finite false 4503599627370496 (-53).
Definition d_0_05 : double := S754_finite false 7205759403792794 (-57).
Definition d_0_95 : double := S754_finite false 8556839292003942 (-53).
Definition d_0_55 : double := S754_finite false 4953959590107546 (-53).

Definition f_zero : float := S754_zero false.

End CFloat.

Import CFloat.

(** ** Data model *)

(** [Window] is an X resource id; [pid_t], tag masks and geometry are [Z].
    The [int] flags of [Client] are only ever assigned 0 or 1 (or another
    flag) and are kept as [bool]. *)

(** [struct Client].  The [next] and [snext] links live in [Clientlist]. *)
Record Client := mkClient {
  name : string;
  mina : float;
  maxa : float;
  x : Z;
  y : Z;
  w : Z;
  h : Z;
  oldx : Z;
  oldy : Z;
  oldw : Z;
  oldh : Z;
  basew : Z;
  baseh : Z;
  incw : Z;
  inch : Z;
  maxw : Z;
  maxh : Z;
  minw : Z;
  minh : Z;
  bw : Z;
  oldbw : Z;
  tags : Z;
  isfixed : bool;
  isfloating : bool;
  isurgent : bool;
  neverfocus : bool;
  oldstate : bool;
  isfullscreen : bool;
  ignoresizehints : bool;
  beingmoved : bool;
  isterminal : bool;
  noswallow : bool;
  pid : Z;
  swallowing : option nat;
  mon : nat;
  win : Z
}.

Definition set_name (v : string) (r : Client) : Client :=
  {| name := v; mina := mina r; maxa := maxa r; x := x r; y := y r; w := w r;
     h := h r; oldx := oldx r; oldy := oldy r; oldw := oldw r;
     oldh := oldh r; basew := basew r; baseh := baseh r; incw := incw r;
     inch := inch r; maxw := maxw r; maxh := maxh r; minw := minw r;
     minh := minh r; bw := bw r; oldbw := oldbw r; tags := tags r;
     isfixed := isfixed r; isfloating := isfloating r;
     isurgent := isurgent r; neverfocus := neverfocus r;
     oldstate := oldstate r; isfullscreen := isfullscreen r;
     ignoresizehints := ignoresizehints r; beingmoved := beingmoved r;
     isterminal := isterminal r; noswallow := noswallow r; pid := pid r;
     swallowing := swallowing r; mon := mon r; win := win r |}.

Definition set_x (v : Z) (r : Client) : Client :=
  {| name := name r; mina := mina r; maxa := maxa r; x := v; y := y r;
     w := w r; h := h r; oldx := oldx r; oldy := oldy r; oldw := oldw r;
     oldh := oldh r; basew := basew r; baseh := baseh r; incw := incw r;
     inch := inch r; maxw := maxw r; maxh := maxh r; minw := minw r;
     minh := minh r; bw := bw r; oldbw := oldbw r; tags := tags r;
     isfixed := isfixed r; isfloating := isfloating r;
     isurgent := isurgent r; neverfocus := neverfocus r;
     oldstate := oldstate r; isfullscreen := isfullscreen r;
     ignoresizehints := ignoresizehints r; beingmoved := beingmoved r;
     isterminal := isterminal r; noswallow := noswallow r; pid := pid r;
     swallowing := swallowing r; mon := mon r; win := win r |}.

Definition set_y (v : Z) (r : Client) : Client :=
  {| name := name r; mina := mina r; maxa := maxa r; x := x r; y := v;
     w := w r; h := h r; oldx := oldx r; oldy := oldy r; oldw := oldw r;
     oldh := oldh r; basew := basew r; baseh := baseh r; incw := incw r;
     inch := inch r; maxw := maxw r; maxh := maxh r; minw := minw r;
     minh := minh r; bw := bw r; oldbw := oldbw r; tags := tags r;
     isfixed := isfixed r; isfloating := isfloating r;
     isurgent := isurgent r; neverfocus := neverfocus r;
     oldstate := oldstate r; isfullscreen := isfullscreen r;
     ignoresizehints := ignoresizehints r; beingmoved := beingmoved r;
     isterminal := isterminal r; noswallow := noswallow r; pid := pid r;
     swallowing := swallowing r; mon := mon r; win := win r |}.

Definition set_w (v : Z) (r : Client) : Client :=
  {| name := name r; mina := mina r; maxa := maxa r; x := x r; y := y r;
     w := v; h := h r; oldx := oldx r; oldy := oldy r; oldw := oldw r;
     oldh := oldh r; basew := basew r; baseh := baseh r; incw := incw r;
     inch := inch r; maxw := maxw r; maxh := maxh r; minw := minw r;
     minh := minh r; bw := bw r; oldbw := oldbw r; tags := tags r;
     isfixed := isfixed r; isfloating := isfloating r;
     isurgent := isurgent r; neverfocus := neverfocus r;
     oldstate := oldstate r; isfullscreen := isfullscreen r;
     ignoresizehints := ignoresizehints r; beingmoved := beingmoved r;
     isterminal := isterminal r; noswallow := noswallow r; pid := pid r;
     swallowing := swallowing r; mon := mon r; win := win r |}.

Definition set_h (v : Z) (r : Client) : Client :=
  {| name := name r; mina := mina r; maxa := maxa r; x := x r; y := y r;
     w := w r; h := v; oldx := oldx r; oldy := oldy r; oldw := oldw r;
     oldh := oldh r; basew := basew r; baseh := baseh r; incw := incw r;
     inch := inch r; maxw := maxw r; maxh := maxh r; minw := minw r;
     minh := minh r; bw := bw r; oldbw := oldbw r; tags := tags r;
     isfixed := isfixed r; isfloating := isfloating r;
     isurgent := isurgent r; neverfocus := neverfocus r;
     oldstate := oldstate r; isfullscreen := isfullscreen r;
     ignoresizehints := ignoresizehints r; beingmoved := beingmoved r;
     isterminal := isterminal r; noswallow := noswallow r; pid := pid r;
     swallowing := swallowing r; mon := mon r; win := win r |}.

Definition set_oldx (v : Z) (r : Client) : Client :=
  {| name := name r; mina := mina r; maxa := maxa r; x := x r; y := y r;
     w := w r; h := h r; oldx := v; oldy := oldy r; oldw := oldw r;
     oldh := oldh r; basew := basew r; baseh := baseh r; incw := incw r;
     inch := inch r; maxw := maxw r; maxh := maxh r; minw := minw r;
     minh := minh r; bw := bw r; oldbw := oldbw r; tags := tags r;
     isfixed := isfixed r; isfloating := isfloating r;
     isurgent := isurgent r; neverfocus := neverfocus r;
     oldstate := oldstate r; isfullscreen := isfullscreen r;
     ignoresizehints := ignoresizehints r; beingmoved := beingmoved r;
     isterminal := isterminal r; noswallow := noswallow r; pid := pid r;
     swallowing := swallowing r; mon := mon r; win := win r |}.

Definition set_oldy (v : Z) (r : Client) : Client :=
  {| name := name r; mina := mina r; maxa := maxa r; x := x r; y := y r;
     w := w r; h := h r; oldx := oldx r; oldy := v; oldw := oldw r;
     oldh := oldh r; basew := basew r; baseh := baseh r; incw := incw r;
     inch := inch r; maxw := maxw r; maxh := maxh r; minw := minw r;
     minh := minh r; bw := bw r; oldbw := oldbw r; tags := tags r;
     isfixed := isfixed r; isfloating := isfloating r;
     isurgent := isurgent r; neverfocus := neverfocus r;
     oldstate := oldstate r; isfullscreen := isfullscreen r;
     ignoresizehints := ignoresizehints r; beingmoved := beingmoved r;
     isterminal := isterminal r; noswallow := noswallow r; pid := pid r;
     swallowing := swallowing r; mon := mon r; win := win r |}.

Definition set_oldw (v : Z) (r : Client) : Client :=
  {| name := name r; mina := mina r; maxa := maxa r; x := x r; y := y r;
     w := w r; h := h r; oldx := oldx r; oldy := oldy r; oldw := v;
     oldh := oldh r; basew := basew r; baseh := baseh r; incw := incw r;
     inch := inch r; maxw := maxw r; maxh := maxh r; minw := minw r;
     minh := minh r; bw := bw r; oldbw := oldbw r; tags := tags r;
     isfixed := isfixed r; isfloating := isfloating r;
     isurgent := isurgent r; neverfocus := neverfocus r;
     oldstate := oldstate r; isfullscreen := isfullscreen r;
     ignoresizehints := ignoresizehints r; beingmoved := beingmoved r;
     isterminal := isterminal r; noswallow := noswallow r; pid := pid r;
     swallowing := swallowing r; mon := mon r; win := win r |}.

Definition set_oldh (v : Z) (r : Client) : Client :=
  {| name := name r; mina := mina r; maxa := maxa r; x := x r; y := y r;
     w := w r; h := h r; oldx := oldx r; oldy := oldy r; oldw := oldw r;
     oldh := v; basew := basew r; baseh := baseh r; incw := incw r;
     inch := inch r; maxw := maxw r; maxh := maxh r; minw := minw r;
     minh := minh r; bw := bw r; oldbw := oldbw r; tags := tags r;
     isfixed := isfixed r; isfloating := isfloating r;
     isurgent := isurgent r; neverfocus := neverfocus r;
     oldstate := oldstate r; isfullscreen := isfullscreen r;
     ignoresizehints := ignoresizehints r; beingmoved := beingmoved r;
     isterminal := isterminal r; noswallow := noswallow r; pid := pid r;
     swallowing := swallowing r; mon := mon r; win := win r |}.

Definition set_bw (v : Z) (r : Client) : Client :=
  {| name := name r; mina := mina r; maxa := maxa r; x := x r; y := y r;
     w := w r; h := h r; oldx := oldx r; oldy := oldy r; oldw := oldw r;
     oldh := oldh r; basew := basew r; baseh := baseh r; incw := incw r;
     inch := inch r; maxw := maxw r; maxh := maxh r; minw := minw r;
     minh := minh r; bw := v; oldbw := oldbw r; tags := tags r;
     isfixed := isfixed r; isfloating := isfloating r;
     isurgent := isurgent r; neverfocus := neverfocus r;
     oldstate := oldstate r; isfullscreen := isfullscreen r;
     ignoresizehints := ignoresizehints r; beingmoved := beingmoved r;
     isterminal := isterminal r; noswallow := noswallow r; pid := pid r;
     swallowing := swallowing r; mon := mon r; win := win r |}.

Definition set_oldbw (v : Z) (r : Client) : Client :=
  {| name := name r; mina := mina r; maxa := maxa r; x := x r; y := y r;
     w := w r; h := h r; oldx := oldx r; oldy := oldy r; oldw := oldw r;
     oldh := oldh r; basew := basew r; baseh := baseh r; incw := incw r;
     inch := inch r; maxw := maxw r; maxh := maxh r; minw := minw r;
     minh := minh r; bw := bw r; oldbw := v; tags := tags r;
     isfixed := isfixed r; isfloating := isfloating r;
     isurgent := isurgent r; neverfocus := neverfocus r;
     oldstate := oldstate r; isfullscreen := isfullscreen r;
     ignoresizehints := ignoresizehints r; beingmoved := beingmoved r;
     isterminal := isterminal r; noswallow := noswallow r; pid := pid r;
     swallowing := swallowing r; mon := mon r; win := win r |}.

Definition set_tags (v : Z) (r : Client) : Client :=
  {| name := name r; mina := mina r; maxa := maxa r; x := x r; y := y r;
     w := w r; h := h r; oldx := oldx r; oldy := oldy r; oldw := oldw r;
     oldh := oldh r; basew := basew r; baseh := baseh r; incw := incw r;
     inch := inch r; maxw := maxw r; maxh := maxh r; minw := minw r;
     minh := minh r; bw := bw r; oldbw := oldbw r; tags := v;
     isfixed := isfixed r; isfloating := isfloating r;
     isurgent := isurgent r; neverfocus := neverfocus r;
     oldstate := oldstate r; isfullscreen := isfullscreen r;
     ignoresizehints := ignoresizehints r; beingmoved := beingmoved r;
     isterminal := isterminal r; noswallow := noswallow r; pid := pid r;
     swallowing := swallowing r; mon := mon r; win := win r |}.

Definition set_isfloating (v : bool) (r : Client) : Client :=
  {| name := name r; mina := mina r; maxa := maxa r; x := x r; y := y r;
     w := w r; h := h r; oldx := oldx r; oldy := oldy r; oldw := oldw r;
     oldh := oldh r; basew := basew r; baseh := baseh r; incw := incw r;
     inch := inch r; maxw := maxw r; maxh := maxh r; minw := minw r;
     minh := minh r; bw := bw r; oldbw := oldbw r; tags := tags r;
     isfixed := isfixed r; isfloating := v; isurgent := isurgent r;
     neverfocus := neverfocus r; oldstate := oldstate r;
     isfullscreen := isfullscreen r; ignoresizehints := ignoresizehints r;
     beingmoved := beingmoved r; isterminal := isterminal r;
     noswallow := noswallow r; pid := pid r; swallowing := swallowing r;
     mon := mon r; win := win r |}.

Definition set_isurgent (v : bool) (r : Client) : Client :=
  {| name := name r; mina := mina r; maxa := maxa r; x := x r; y := y r;
     w := w r; h := h r; oldx := oldx r; oldy := oldy r; oldw := oldw r;
     oldh := oldh r; basew := basew r; baseh := baseh r; incw := incw r;
     inch := inch r; maxw := maxw r; maxh := maxh r; minw := minw r;
     minh := minh r; bw := bw r; oldbw := oldbw r; tags := tags r;
     isfixed := isfixed r; isfloating := isfloating r; isurgent := v;
     neverfocus := neverfocus r; oldstate := oldstate r;
     isfullscreen := isfullscreen r; ignoresizehints := ignoresizehints r;
     beingmoved := beingmoved r; isterminal := isterminal r;
     noswallow := noswallow r; pid := pid r; swallowing := swallowing r;
     mon := mon r; win := win r |}.

Definition set_oldstate (v : bool) (r : Client) : Client :=
  {| name := name r; mina := mina r; maxa := maxa r; x := x r; y := y r;
     w := w r; h := h r; oldx := oldx r; oldy := oldy r; oldw := oldw r;
     oldh := oldh r; basew := basew r; baseh := baseh r; incw := incw r;
     inch := inch r; maxw := maxw r; maxh := maxh r; minw := minw r;
     minh := minh r; bw := bw r; oldbw := oldbw r; tags := tags r;
     isfixed := isfixed r; isfloating := isfloating r;
     isurgent := isurgent r; neverfocus := neverfocus r; oldstate := v;
     isfullscreen := isfullscreen r; ignoresizehints := ignoresizehints r;
     beingmoved := beingmoved r; isterminal := isterminal r;
     noswallow := noswallow r; pid := pid r; swallowing := swallowing r;
     mon := mon r; win := win r |}.

Definition set_isfullscreen (v : bool) (r : Client) : Client :=
  {| name := name r; mina := mina r; maxa := maxa r; x := x r; y := y r;
     w := w r; h := h r; oldx := oldx r; oldy := oldy r; oldw := oldw r;
     oldh := oldh r; basew := basew r; baseh := baseh r; incw := incw r;
     inch := inch r; maxw := maxw r; maxh := maxh r; minw := minw r;
     minh := minh r; bw := bw r; oldbw := oldbw r; tags := tags r;
     isfixed := isfixed r; isfloating := isfloating r;
     isurgent := isurgent r; neverfocus := neverfocus r;
     oldstate := oldstate r; isfullscreen := v;
     ignoresizehints := ignoresizehints r; beingmoved := beingmoved r;
     isterminal := isterminal r; noswallow := noswallow r; pid := pid r;
     swallowing := swallowing r; mon := mon r; win := win r |}.

Definition set_ignoresizehints (v : bool) (r : Client) : Client :=
  {| name := name r; mina := mina r; maxa := maxa r; x := x r; y := y r;
     w := w r; h := h r; oldx := oldx r; oldy := oldy r; oldw := oldw r;
     oldh := oldh r; basew := basew r; baseh := baseh r; incw := incw r;
     inch := inch r; maxw := maxw r; maxh := maxh r; minw := minw r;
     minh := minh r; bw := bw r; oldbw := oldbw r; tags := tags r;
     isfixed := isfixed r; isfloating := isfloating r;
     isurgent := isurgent r; neverfocus := neverfocus r;
     oldstate := oldstate r; isfullscreen := isfullscreen r;
     ignoresizehints := v; beingmoved := beingmoved r;
     isterminal := isterminal r; noswallow := noswallow r; pid := pid r;
     swallowing := swallowing r; mon := mon r; win := win r |}.

Definition set_swallowing (v : option nat) (r : Client) : Client :=
  {| name := name r; mina := mina r; maxa := maxa r; x := x r; y := y r;
     w := w r; h := h r; oldx := oldx r; oldy := oldy r; oldw := oldw r;
     oldh := oldh r; basew := basew r; baseh := baseh r; incw := incw r;
     inch := inch r; maxw := maxw r; maxh := maxh r; minw := minw r;
     minh := minh r; bw := bw r; oldbw := oldbw r; tags := tags r;
     isfixed := isfixed r; isfloating := isfloating r;
     isurgent := isurgent r; neverfocus := neverfocus r;
     oldstate := oldstate r; isfullscreen := isfullscreen r;
     ignoresizehints := ignoresizehints r; beingmoved := beingmoved r;
     isterminal := isterminal r; noswallow := noswallow r; pid := pid r;
     swallowing := v; mon := mon r; win := win r |}.

Definition set_mon (v : nat) (r : Client) : Client :=
  {| name := name r; mina := mina r; maxa := maxa r; x := x r; y := y r;
     w := w r; h := h r; oldx := oldx r; oldy := oldy r; oldw := oldw r;
     oldh := oldh r; basew := basew r; baseh := baseh r; incw := incw r;
     inch := inch r; maxw := maxw r; maxh := maxh r; minw := minw r;
     minh := minh r; bw := bw r; oldbw := oldbw r; tags := tags r;
     isfixed := isfixed r; isfloating := isfloating r;
     isurgent := isurgent r; neverfocus := neverfocus r;
     oldstate := oldstate r; isfullscreen := isfullscreen r;
     ignoresizehints := ignoresizehints r; beingmoved := beingmoved r;
     isterminal := isterminal r; noswallow := noswallow r; pid := pid r;
     swallowing := swallowing r; mon := v; win := win r |}.

Definition set_win (v : Z) (r : Client) : Client :=
  {| name := name r; mina := mina r; maxa := maxa r; x := x r; y := y r;
     w := w r; h := h r; oldx := oldx r; oldy := oldy r; oldw := oldw r;
     oldh := oldh r; basew := basew r; baseh := baseh r; incw := incw r;
     inch := inch r; maxw := maxw r; maxh := maxh r; minw := minw r;
     minh := minh r; bw := bw r; oldbw := oldbw r; tags := tags r;
     isfixed := isfixed r; isfloating := isfloating r;
     isurgent := isurgent r; neverfocus := neverfocus r;
     oldstate := oldstate r; isfullscreen := isfullscreen r;
     ignoresizehints := ignoresizehints r; beingmoved := beingmoved r;
     isterminal := isterminal r; noswallow := noswallow r; pid := pid r;
     swallowing := swallowing r; mon := mon r; win := v |}.

(** A rectangle handed to [resize]: x, y, w, h. *)
Definition Rect : Type := Z * Z * Z * Z.

(** What a layout function reads from its monitor. *)
Record LayoutParams := mkLayoutParams {
  lp_wx : Z; lp_wy : Z; lp_ww : Z; lp_wh : Z;
  lp_gappih : Z; lp_gappiv : Z; lp_gappoh : Z; lp_gappov : Z;
  lp_mfact : float; lp_nmaster : Z
}.

(** Modelled from the spec: the layout functions of [vanitygaps.c] ([tile],
    [deck], [spiral], ...), which [config.h] includes and the layout table
    names but whose code is missing.  The spec (4.3) describes each as a
    pure function from the monitor's parameters and its tileable clients in
    list order to one rectangle per client, applied through [resize]; [deck]
    also overrides the layout symbol. *)
Definition TilingFn : Type :=
  LayoutParams -> list Client -> option string * list Rect.

(** The [arrange] member of [Layout]: [monocle] of [dwm.c], or one of the
    layouts above.  A null pointer is [None] in [arrange] below. *)
Inductive ArrangeFn :=
| monocle_fn
| tiling_fn (f : TilingFn).

Record Layout := mkLayout {
  symbol : string;
  arrange_fn : option ArrangeFn
}.

(** [struct Monitor].  [tagset[2]] and [lt[2]] are the pairs
    [tagset0]/[tagset1] and [lt0]/[lt1], selected by [seltags] and [sellt]
    (which only take the values 0 and 1).  Every monitor's [cl] points to
    the one [Clientlist] allocated in [setup] ([createmon]: [m->cl = cl]),
    which is [cl] of [World]; the bars are not modelled. *)
Record Monitor := mkMonitor {
  ltsymbol : string;
  mfact : float;
  nmaster : Z;
  num : Z;
  mx : Z;
  my : Z;
  mw : Z;
  mh : Z;
  wx : Z;
  wy : Z;
  ww : Z;
  wh : Z;
  gappih : Z;
  gappiv : Z;
  gappoh : Z;
  gappov : Z;
  seltags : bool;
  sellt : bool;
  tagset0 : Z;
  tagset1 : Z;
  showbar : bool;
  sel : option nat;
  lt0 : Layout;
  lt1 : Layout
}.

Definition set_ltsymbol (v : string) (r : Monitor) : Monitor :=
  {| ltsymbol := v; mfact := mfact r; nmaster := nmaster r; num := num r;
     mx := mx r; my := my r; mw := mw r; mh := mh r; wx := wx r; wy := wy r;
     ww := ww r; wh := wh r; gappih := gappih r; gappiv := gappiv r;
     gappoh := gappoh r; gappov := gappov r; seltags := seltags r;
     sellt := sellt r; tagset0 := tagset0 r; tagset1 := tagset1 r;
     showbar := showbar r; sel := sel r; lt0 := lt0 r; lt1 := lt1 r |}.

Definition set_mfact (v : float) (r : Monitor) : Monitor :=
  {| ltsymbol := ltsymbol r; mfact := v; nmaster := nmaster r; num := num r;
     mx := mx r; my := my r; mw := mw r; mh := mh r; wx := wx r; wy := wy r;
     ww := ww r; wh := wh r; gappih := gappih r; gappiv := gappiv r;
     gappoh := gappoh r; gappov := gappov r; seltags := seltags r;
     sellt := sellt r; tagset0 := tagset0 r; tagset1 := tagset1 r;
     showbar := showbar r; sel := sel r; lt0 := lt0 r; lt1 := lt1 r |}.

Definition set_seltags (v : bool) (r : Monitor) : Monitor :=
  {| ltsymbol := ltsymbol r; mfact := mfact r; nmaster := nmaster r;
     num := num r; mx := mx r; my := my r; mw := mw r; mh := mh r;
     wx := wx r; wy := wy r; ww := ww r; wh := wh r; gappih := gappih r;
     gappiv := gappiv r; gappoh := gappoh r; gappov := gappov r;
     seltags := v; sellt := sellt r; tagset0 := tagset0 r;
     tagset1 := tagset1 r; showbar := showbar r; sel := sel r; lt0 := lt0 r;
     lt1 := lt1 r |}.

Definition set_tagset0 (v : Z) (r : Monitor) : Monitor :=
  {| ltsymbol := ltsymbol r; mfact := mfact r; nmaster := nmaster r;
     num := num r; mx := mx r; my := my r; mw := mw r; mh := mh r;
     wx := wx r; wy := wy r; ww := ww r; wh := wh r; gappih := gappih r;
     gappiv := gappiv r; gappoh := gappoh r; gappov := gappov r;
     seltags := seltags r; sellt := sellt r; tagset0 := v;
     tagset1 := tagset1 r; showbar := showbar r; sel := sel r; lt0 := lt0 r;
     lt1 := lt1 r |}.

Definition set_tagset1 (v : Z) (r : Monitor) : Monitor :=
  {| ltsymbol := ltsymbol r; mfact := mfact r; nmaster := nmaster r;
     num := num r; mx := mx r; my := my r; mw := mw r; mh := mh r;
     wx := wx r; wy := wy r; ww := ww r; wh := wh r; gappih := gappih r;
     gappiv := gappiv r; gappoh := gappoh r; gappov := gappov r;
     seltags := seltags r; sellt := sellt r; tagset0 := tagset0 r;
     tagset1 := v; showbar := showbar r; sel := sel r; lt0 := lt0 r;
     lt1 := lt1 r |}.

Definition set_sel (v : option nat) (r : Monitor) : Monitor :=
  {| ltsymbol := ltsymbol r; mfact := mfact r; nmaster := nmaster r;
     num := num r; mx := mx r; my := my r; mw := mw r; mh := mh r;
     wx := wx r; wy := wy r; ww := ww r; wh := wh r; gappih := gappih r;
     gappiv := gappiv r; gappoh := gappoh r; gappov := gappov r;
     seltags := seltags r; sellt := sellt r; tagset0 := tagset0 r;
     tagset1 := tagset1 r; showbar := showbar r; sel := v; lt0 := lt0 r;
     lt1 := lt1 r |}.

(** [struct Clientlist]: the [clients] chain (linked by [next]) and the
    [stack] chain (linked by [snext]), as lists of client addresses. *)
Record Clientlist := mkClientlist {
  clients : list nat;
  stack : list nat
}.

(** The geometry part of [XWindowChanges]. *)
Record XWindowChanges := mkXWindowChanges {
  wc_x : Z; wc_y : Z; wc_width : Z; wc_height : Z; wc_border_width : Z
}.

(** The X server: the root properties [_NET_CLIENT_LIST] and
    [_NET_CLIENT_LIST_STACKING], the [XConfigureWindow] requests with mask
    [CWX|CWY|CWWidth|CWHeight|CWBorderWidth] (newest first), and what the
    window manager reads back: the text of the window properties
    [_NET_WM_NAME] and [WM_NAME] as [gettextprop] decodes it (absent when
    the property is not set or has no items) and the pointer position. *)
Record XServer := mkXServer {
  NetClientList : list Z;
  NetClientListStacking : list Z;
  configured : list (Z * XWindowChanges);
  net_wm_name : gmap Z string;
  wm_name : gmap Z string;
  pointer : Z * Z
}.

Definition set_NetClientList (v : list Z) (r : XServer) : XServer :=
  {| NetClientList := v; NetClientListStacking := NetClientListStacking r;
     configured := configured r; net_wm_name := net_wm_name r;
     wm_name := wm_name r; pointer := pointer r |}.

Definition set_NetClientListStacking (v : list Z) (r : XServer) : XServer :=
  {| NetClientList := NetClientList r; NetClientListStacking := v;
     configured := configured r; net_wm_name := net_wm_name r;
     wm_name := wm_name r; pointer := pointer r |}.

Definition set_configured (v : list (Z * XWindowChanges)) (r : XServer) : XServer :=
  {| NetClientList := NetClientList r;
     NetClientListStacking := NetClientListStacking r; configured := v;
     net_wm_name := net_wm_name r; wm_name := wm_name r;
     pointer := pointer r |}.

Record World := mkWorld {
  mons : list Monitor;
  selmon : nat;
  cl : Clientlist;
  heap : gmap nat Client;
  bh : Z;
  sw : Z;
  sh : Z;
  xserver : XServer
}.

Definition set_mons (v : list Monitor) (r : World) : World :=
  {| mons := v; selmon := selmon r; cl := cl r; heap := heap r; bh := bh r;
     sw := sw r; sh := sh r; xserver := xserver r |}.

Definition set_selmon (v : nat) (r : World) : World :=
  {| mons := mons r; selmon := v; cl := cl r; heap := heap r; bh := bh r;
     sw := sw r; sh := sh r; xserver := xserver r |}.

Definition set_cl (v : Clientlist) (r : World) : World :=
  {| mons := mons r; selmon := selmon r; cl := v; heap := heap r; bh := bh r;
     sw := sw r; sh := sh r; xserver := xserver r |}.

Definition set_heap (v : gmap nat Client) (r : World) : World :=
  {| mons := mons r; selmon := selmon r; cl := cl r; heap := v; bh := bh r;
     sw := sw r; sh := sh r; xserver := xserver r |}.

Definition set_xserver (v : XServer) (r : World) : World :=
  {| mons := mons r; selmon := selmon r; cl := cl r; heap := heap r;
     bh := bh r; sw := sw r; sh := sh r; xserver := v |}.

(** ** Configuration ([config.h]) *)

Definition borderpx : Z := 2.
Definition resizehints : bool := false.
Definition floatposgrid_x : Z := 5.
Definition floatposgrid_y : Z := 5.
(** [LENGTH(tags)] is 9 and [LENGTH(scratchpads)] is 1. *)
Definition NUMTAGS : Z := 9 + 1.
Definition TAGMASK : Z := Z.shiftl 1 NUMTAGS - 1.
Definition SPTAGMASK : Z := Z.shiftl (Z.shiftl 1 1 - 1) 9.

(** [static const float mfact = 0.55] and the arguments [{.f = +0.05}],
    [{.f = -0.05}] of the [setmfact] key bindings. *)
Definition config_mfact : float := float_of_double d_0_55.
Definition arg_plus_0_05 : float := float_of_double d_0_05.
Definition arg_minus_0_05 : float := float_of_double (SFopp d_0_05).

Definition layout_floating : Layout := mkLayout "><>" None.
Definition layout_monocle : Layout := mkLayout "[M]" (Some monocle_fn).

(** ** Accessors *)

Definition set_clients (v : list nat) (r : Clientlist) : Clientlist :=
  {| clients := v; stack := stack r |}.
Definition set_stack (v : list nat) (r : Clientlist) : Clientlist :=
  {| clients := clients r; stack := v |}.

(** [m->tagset[m->seltags]] and [m->tagset[m->seltags ^ 1]]. *)
Definition seltagset (m : Monitor) : Z :=
  if seltags m then tagset1 m else tagset0 m.
Definition othertagset (m : Monitor) : Z :=
  if seltags m then tagset0 m else tagset1 m.
(** [m->tagset[m->seltags] = v]. *)
Definition set_seltagset (v : Z) (m : Monitor) : Monitor :=
  if seltags m then set_tagset1 v m else set_tagset0 v m.

(** [m->lt[m->sellt]]. *)
Definition sellayout (m : Monitor) : Layout :=
  if sellt m then lt1 m else lt0 m.

(** [ISVISIBLE(C, M)]. *)
Definition ISVISIBLE (c : Client) (m : Monitor) : bool :=
  negb (Z.land (tags c) (seltagset m) =? 0).

(** [WIDTH(X)] and [HEIGHT(X)]. *)
Definition WIDTH (c : Client) : Z := w c +i 2 *i bw c.
Definition HEIGHT (c : Client) : Z := h c +i 2 *i bw c.

(** Writing through a [Client *] or a [Monitor *]. *)
Definition upd_client (c : nat) (f : Client -> Client) (s : World) : World :=
  set_heap (alter f c (heap s)) s.
Definition upd_mon (m : nat) (f : Monitor -> Monitor) (s : World) : World :=
  set_mons (alter f m (mons s)) s.

(** ** Client and stack chains *)

(** The chain reached from [c->next], for [c] on the chain [l]. *)
Fixpoint next_of (c : nat) (l : list nat) : list nat :=
  match l with
  | [] => []
  | a :: l' => if Nat.eqb a c then l' else next_of c l'
  end.

(** [nexttiled(c, m)], where [l] is the chain that starts at [c].  The
    addresses on a chain are allocated in every state considered. *)
Fixpoint nexttiled (hp : gmap nat Client) (l : list nat) (m : Monitor)
  : option nat :=
  match l with
  | [] => None
  | c :: l' =>
      match hp !! c with
      | Some k =>
          if isfloating k || negb (ISVISIBLE k m)
          then nexttiled hp l' m else Some c
      | None => nexttiled hp l' m
      end
  end.

(** [attach], [attachstack]: the client becomes the head of the chain. *)
Definition attach (c : nat) (s : World) : World :=
  set_cl (set_clients (c :: clients (cl s)) (cl s)) s.

Definition attachstack (c : nat) (s : World) : World :=
  set_cl (set_stack (c :: stack (cl s)) (cl s)) s.

(** Unlinking [c] from a chain it is on. *)
Fixpoint unlink (c : nat) (l : list nat) : list nat :=
  match l with
  | [] => []
  | a :: l' => if Nat.eqb a c then l' else a :: unlink c l'
  end.

Definition detach (c : nat) (s : World) : World :=
  set_cl (set_clients (unlink c (clients (cl s))) (cl s)) s.

(** The first client of a chain that is visible on [m]. *)
Fixpoint first_visible (hp : gmap nat Client) (l : list nat) (m : Monitor)
  : option nat :=
  match l with
  | [] => None
  | t :: l' =>
      match hp !! t with
      | Some k => if ISVISIBLE k m then Some t else first_visible hp l' m
      | None => first_visible hp l' m
      end
  end.

Definition detachstack (c : nat) (s : World) : World :=
  let s1 := set_cl (set_stack (unlink c (stack (cl s))) (cl s)) s in
  match heap s1 !! c with
  | Some k =>
      match mons s1 !! mon k with
      | Some m =>
          if bool_decide (sel m = Some c)
          then upd_mon (mon k)
                 (set_sel (first_visible (heap s1) (stack (cl s1)) m)) s1
          else s1
      | None => s1
      end
  | None => s1
  end.

(** ** Resizing *)

Definition is_monocle (a : option ArrangeFn) : bool :=
  match a with Some monocle_fn => true | _ => false end.

Definition has_arrange (m : Monitor) : bool :=
  match arrange_fn (sellayout m) with Some _ => true | None => false end.

(** The aspect-ratio step of [applysizehints]. *)
Definition aspect_limits (k : Client) (nw nh : Z) : Z * Z :=
  if flt f_zero (mina k) && flt f_zero (maxa k) then
    if flt (maxa k) (fdiv (float_of_int nw) (float_of_int nh)) then
      (int_of_double
         (dadd (double_of_float (fmul (float_of_int nh) (maxa k))) d_0_5), nh)
    else if flt (mina k) (fdiv (float_of_int nh) (float_of_int nw)) then
      (nw, int_of_double
             (dadd (double_of_float (fmul (float_of_int nw) (mina k))) d_0_5))
    else (nw, nh)
  else (nw, nh).

(** [applysizehints]: the adjusted [x, y, w, h] and whether they differ from
    the client's geometry. *)
Definition applysizehints (s : World) (k : Client) (m : Monitor)
    (nx ny nw nh : Z) (interact : bool) : Rect * bool :=
  let nw := Z.max 1 nw in
  let nh := Z.max 1 nh in
  let '(nx, ny) :=
    if interact then
      let nx := if nx >? sw s then sw s -i WIDTH k else nx in
      let ny := if ny >? sh s then sh s -i HEIGHT k else ny in
      let nx := if nx +i nw +i 2 *i bw k <? 0 then 0 else nx in
      let ny := if ny +i nh +i 2 *i bw k <? 0 then 0 else ny in
      (nx, ny)
    else
      let nx := if nx >=? wx m +i ww m then wx m +i ww m -i WIDTH k else nx in
      let ny := if ny >=? wy m +i wh m then wy m +i wh m -i HEIGHT k else ny in
      let nx := if nx +i nw +i 2 *i bw k <=? wx m then wx m else nx in
      let ny := if ny +i nh +i 2 *i bw k <=? wy m then wy m else ny in
      (nx, ny) in
  let nh := if nh <? bh s then bh s else nh in
  let nw := if nw <? bh s then bh s else nw in
  let '(nw, nh) :=
    if negb (ignoresizehints k)
       && (resizehints || isfloating k || negb (has_arrange m)) then
      let baseismin := (basew k =? minw k) && (baseh k =? minh k) in
      let '(nw, nh) :=
        if negb baseismin then (nw -i basew k, nh -i baseh k) else (nw, nh) in
      let '(nw, nh) := aspect_limits k nw nh in
      let '(nw, nh) :=
        if baseismin then (nw -i basew k, nh -i baseh k) else (nw, nh) in
      let nw := if incw k =? 0 then nw else nw -i rem nw (incw k) in
      let nh := if inch k =? 0 then nh else nh -i rem nh (inch k) in
      let nw := Z.max (nw +i basew k) (minw k) in
      let nh := Z.max (nh +i baseh k) (minh k) in
      let nw := if maxw k =? 0 then nw else Z.min nw (maxw k) in
      let nh := if maxh k =? 0 then nh else Z.min nh (maxh k) in
      (nw, nh)
    else (nw, nh) in
  ((nx, ny, nw, nh),
   negb (nx =? x k) || negb (ny =? y k) || negb (nw =? w k) || negb (nh =? h k)).

(** [XConfigureWindow(dpy, win, CWX|CWY|CWWidth|CWHeight|CWBorderWidth, &wc)]. *)
Definition XConfigureWindow (win : Z) (wc : XWindowChanges) (s : World) : World :=
  set_xserver (set_configured ((win, wc) :: configured (xserver s)) (xserver s)) s.

(** The test of [resizeclient] for dropping the border: [c] is the only
    tiled client visible on its monitor, or the layout is [monocle]; and
    [c] is neither fullscreen nor floating, and the layout arranges. *)
Definition noborder (s : World) (c : nat) (k : Client) (m : Monitor) : bool :=
  ((bool_decide (nexttiled (heap s) (clients (cl s)) m = Some c)
    && bool_decide (nexttiled (heap s) (next_of c (clients (cl s))) m = None))
   || is_monocle (arrange_fn (sellayout m)))
  && negb (isfullscreen k) && negb (isfloating k)
  && has_arrange m.

(** [resizeclient].  [configure(c)] only sends an event to the client. *)
Definition resizeclient (c : nat) (nx ny nw nh : Z) (s : World) : World :=
  match heap s !! c with
  | None => s
  | Some k0 =>
      let k := set_h nh (set_oldh (h k0) (set_w nw (set_oldw (w k0)
                 (set_y ny (set_oldy (y k0) (set_x nx (set_oldx (x k0) k0))))))) in
      let s1 := set_heap (<[c := k]> (heap s)) s in
      if beingmoved k then s1
      else
        match mons s1 !! mon k with
        | None => s1
        | Some m =>
            if noborder s1 c k m then
              let wc := mkXWindowChanges nx ny (nw +i bw k *i 2) (nh +i bw k *i 2) 0 in
              XConfigureWindow (win k) wc
                (upd_client c (fun k => set_h (wc_height wc) (set_w (wc_width wc) k)) s1)
            else
              XConfigureWindow (win k) (mkXWindowChanges nx ny nw nh (bw k)) s1
        end
  end.

(** [resize]. *)
Definition resize (c : nat) (nx ny nw nh : Z) (interact : bool) (s : World)
  : World :=
  match heap s !! c with
  | None => s
  | Some k =>
      match mons s !! mon k with
      | None => s
      | Some m =>
          let '((ax, ay, aw, ah), changed) :=
            applysizehints s k m nx ny nw nh interact in
          if changed then resizeclient c ax ay aw ah s else s
      end
  end.

(** ** Arranging *)

(** [showhide(c)] along the stack chain.  A hidden client is only moved off
    screen, which the window manager's state does not record. *)
Fixpoint showhide (l : list nat) (s : World) : World :=
  match l with
  | [] => s
  | c :: l' =>
      match heap s !! c with
      | None => showhide l' s
      | Some k =>
          match mons s !! mon k with
          | None => showhide l' s
          | Some m =>
              if ISVISIBLE k m then
                let s1 :=
                  if negb (Z.land (tags k) SPTAGMASK =? 0) && isfloating k then
                    upd_client c
                      (fun k => set_y (wy m +i (wh m /i 2 -i HEIGHT k /i 2))
                                  (set_x (wx m +i (ww m /i 2 -i WIDTH k /i 2)) k)) s
                  else s in
                let s2 :=
                  if (negb (has_arrange m) || isfloating k) && negb (isfullscreen k)
                  then match heap s1 !! c with
                       | Some k1 => resize c (x k1) (y k1) (w k1) (h k1) false s1
                       | None => s1
                       end
                  else s1 in
                showhide l' s2
              else showhide l' s
          end
      end
  end.

(** Whether [nexttiled] stops at [c] for monitor number [m]. *)
Definition is_tiled (s : World) (c m : nat) : bool :=
  match heap s !! c, mons s !! m with
  | Some k, Some mm => negb (isfloating k || negb (ISVISIBLE k mm))
  | _, _ => false
  end.

(** [for (c = nexttiled(m->cl->clients, m); c; c = nexttiled(c->next, m))
    body], along the client chain [l]. *)
Fixpoint for_nexttiled (l : list nat) (m : nat) (body : nat -> World -> World)
    (s : World) : World :=
  match l with
  | [] => s
  | c :: l' =>
      if is_tiled s c m then for_nexttiled l' m body (body c s)
      else for_nexttiled l' m body s
  end.

(** The number of clients of the chain visible on [m]. *)
Fixpoint count_visible (hp : gmap nat Client) (l : list nat) (m : Monitor) : Z :=
  match l with
  | [] => 0
  | c :: l' =>
      match hp !! c with
      | Some k => if ISVISIBLE k m then uint (count_visible hp l' m + 1)
                  else count_visible hp l' m
      | None => count_visible hp l' m
      end
  end.

Definition string_of_Z (z : Z) : string := NilZero.string_of_int (Z.to_int z).

(** [snprintf(buf, 16, "[%d]", n)] with an [unsigned int] argument. *)
Definition snprintf_brackets (n : Z) : string :=
  substring 0 15 ("[" ++ string_of_Z (sint n) ++ "]").

(** [strncpy(m->ltsymbol, sym, sizeof m->ltsymbol)]. *)
Definition strncpy_ltsymbol (sym : string) : string := substring 0 16 sym.

(** [monocle]. *)
Definition monocle (m : nat) (s : World) : World :=
  match mons s !! m with
  | None => s
  | Some mm =>
      let n := count_visible (heap s) (clients (cl s)) mm in
      let s1 := if 0 <? n then upd_mon m (set_ltsymbol (snprintf_brackets n)) s
                else s in
      for_nexttiled (clients (cl s1)) m
        (fun c s =>
           match heap s !! c with
           | Some k =>
               resize c (wx mm) (wy mm) (ww mm -i 2 *i bw k) (wh mm -i 2 *i bw k)
                 false s
           | None => s
           end) s1
  end.

Definition layout_params (m : Monitor) : LayoutParams :=
  mkLayoutParams (wx m) (wy m) (ww m) (wh m)
    (gappih m) (gappiv m) (gappoh m) (gappov m) (mfact m) (nmaster m).

(** The tiled clients of monitor number [m], in chain order. *)
Definition tiled_clients (s : World) (m : nat) : list nat :=
  filter (fun c => is_tiled s c m = true) (clients (cl s)).

Fixpoint resize_all (l : list (nat * Rect)) (s : World) : World :=
  match l with
  | [] => s
  | (c, (rx, ry, rw, rh)) :: l' => resize_all l' (resize c rx ry rw rh false s)
  end.

(** Running a layout of [vanitygaps.c] (see [TilingFn]). *)
Definition tiling (f : TilingFn) (m : nat) (s : World) : World :=
  match mons s !! m with
  | None => s
  | Some mm =>
      let cs := tiled_clients s m in
      let '(sym, rects) := f (layout_params mm) (omap (fun c => heap s !! c) cs) in
      let s1 := match sym with
                | Some t => upd_mon m (set_ltsymbol (strncpy_ltsymbol t)) s
                | None => s
                end in
      resize_all (zip cs rects) s1
  end.

(** [arrangemon]. *)
Definition arrangemon (m : nat) (s : World) : World :=
  match mons s !! m with
  | None => s
  | Some mm =>
      let s1 := upd_mon m (set_ltsymbol (strncpy_ltsymbol (symbol (sellayout mm)))) s in
      match arrange_fn (sellayout mm) with
      | None => s1
      | Some monocle_fn => monocle m s1
      | Some (tiling_fn f) => tiling f m s1
      end
  end.

(** [arrange(m)]; [None] is the null pointer.  [restack] changes the
    stacking order and may warp the pointer, nothing else. *)
Definition arrange (m : option nat) (s : World) : World :=
  match m with
  | Some m => arrangemon m (showhide (stack (cl s)) s)
  | None =>
      let s1 := foldl (fun s _ => showhide (stack (cl s)) s) s (mons s) in
      foldl (fun s m => arrangemon m s) s1 (seq 0 (length (mons s1)))
  end.

(** ** Focus *)

(** [focus(c)]; [None] is the null pointer.  [unfocus], [grabbuttons],
    [setfocus] and [drawbars] only talk to the X server; of [seturgent]
    the assignment to [isurgent] remains. *)
Definition focus (c : option nat) (s : World) : World :=
  let s1 :=
    match c with
    | Some c' =>
        match heap s !! c' with
        | Some k => if bool_decide (mon k = selmon s) then s else set_selmon (mon k) s
        | None => s
        end
    | None => s
    end in
  match mons s1 !! selmon s1 with
  | None => s1
  | Some sm =>
      let c1 :=
        match c with
        | Some c' =>
            match heap s1 !! c' with
            | Some k => if ISVISIBLE k sm then Some c'
                        else first_visible (heap s1) (stack (cl s1)) sm
            | None => first_visible (heap s1) (stack (cl s1)) sm
            end
        | None => first_visible (heap s1) (stack (cl s1)) sm
        end in
      match c1 with
      | Some c' =>
          match heap s1 !! c' with
          | Some k =>
              let s2 := if bool_decide (mon k = selmon s1) then s1
                        else set_selmon (mon k) s1 in
              let s3 := if isurgent k then upd_client c' (set_isurgent false) s2
                        else s2 in
              let s4 := attachstack c' (detachstack c' s3) in
              upd_mon (selmon s4) (set_sel (Some c')) s4
          | None => upd_mon (selmon s1) (set_sel (Some c')) s1
          end
      | None => upd_mon (selmon s1) (set_sel None) s1
      end
  end.

(** ** Tags across monitors *)

(** The tags shown by the monitors other than number [m]. *)
Definition utags_of (m : nat) (ms : list Monitor) : Z :=
  foldl (fun u '(i, tm) => if bool_decide (i = m) then u else Z.lor u (seltagset tm))
    0 (imap (fun i tm => (i, tm)) ms).

(** The client loop of [attachclients]: the new state and [rmons]. *)
Fixpoint attachclients_loop (l : list nat) (m : nat) (utags : Z)
    (s : World) (rmons : bool) : World * bool :=
  match l with
  | [] => (s, rmons)
  | c :: l' =>
      match heap s !! c, mons s !! m with
      | Some k, Some mm =>
          if ISVISIBLE k mm then
            let strip := negb (Z.land (tags k) utags =? 0) in
            let s1 := if strip
                      then upd_client c (set_tags (Z.land (tags k) (seltagset mm))) s
                      else s in
            attachclients_loop l' m utags (upd_client c (set_mon m) s1)
              (rmons || strip)
          else attachclients_loop l' m utags s rmons
      | _, _ => attachclients_loop l' m utags s rmons
      end
  end.

(** [attachclients(m)] for a monitor of the chain. *)
Definition attachclients (m : nat) (s : World) : World :=
  let utags := utags_of m (mons s) in
  let '(s1, rmons) := attachclients_loop (clients (cl s)) m utags s false in
  if rmons then
    foldl (fun s tm => if bool_decide (tm = m) then s else arrange (Some tm) s)
      s1 (seq 0 (length (mons s1)))
  else s1.

(** The loop of [findfirstunusedtag]; [i] doubles, so 34 rounds are more
    than the loop can make. *)
Fixpoint findfirstunusedtag_loop (fuel : nat) (i occupied : Z) : Z :=
  match fuel with
  | O => 0
  | S fuel' =>
      if i <? occupied then
        if Z.land i occupied =? 0 then i
        else findfirstunusedtag_loop fuel' (sint (Z.shiftl i 1)) occupied
      else 0
  end.

(** [findfirstunusedtag]. *)
Definition findfirstunusedtag (s : World) : Z :=
  let occupied := foldl (fun o m => sint (Z.lor o (seltagset m))) 0 (mons s) in
  findfirstunusedtag_loop 34 1 occupied.

(** The monitor loop of [toggleview], over the monitor numbers [l]. *)
Fixpoint toggleview_loop (l : list nat) (ui newtagset : Z) (s : World) : World :=
  match l with
  | [] => s
  | m :: l' =>
      match mons s !! m with
      | Some mm =>
          if negb (bool_decide (m = selmon s))
             && negb (Z.land newtagset (seltagset mm) =? 0) then
            let t := Z.lxor (seltagset mm) (Z.land ui TAGMASK) in
            let s1 := upd_mon m (set_seltagset t) s in
            let s2 := if t =? 0
                      then upd_mon m (set_seltagset (uint (Z.lor t (findfirstunusedtag s1)))) s1
                      else s1 in
            let s3 := upd_mon m (set_sel None) s2 in
            toggleview_loop l' ui newtagset (arrange (Some m) (attachclients m s3))
          else toggleview_loop l' ui newtagset s
      | None => toggleview_loop l' ui newtagset s
      end
  end.

(** [toggleview]; [ui] is [arg->ui].  [updatecurrentdesktop] only writes a
    root property. *)
Definition toggleview (ui : Z) (s : World) : World :=
  match mons s !! selmon s with
  | None => s
  | Some sm =>
      let newtagset := Z.lxor (seltagset sm) (Z.land ui TAGMASK) in
      let s1 := toggleview_loop (seq 0 (length (mons s))) ui newtagset s in
      let s2 := upd_mon (selmon s1) (set_seltagset newtagset) s1 in
      focus None (arrange (Some (selmon s2)) (attachclients (selmon s2) s2))
  end.

(** The first monitor other than [selmon] that shows a tag of [newtagset]. *)
Fixpoint view_find (l : list (nat * Monitor)) (selm : nat) (newtagset : Z)
  : option (nat * Monitor) :=
  match l with
  | [] => None
  | (i, m) :: l' =>
      if negb (bool_decide (i = selm)) && negb (Z.land newtagset (seltagset m) =? 0)
      then Some (i, m) else view_find l' selm newtagset
  end.

(** The fullscreen loop of [view]: the new state and [fs]. *)
Fixpoint view_fs_loop (l : list nat) (newtagset : Z) (s : World)
    (fs : option nat) : World * option nat :=
  match l with
  | [] => (s, fs)
  | c :: l' =>
      match heap s !! c with
      | Some k =>
          if isfullscreen k && negb (Z.land (tags k) newtagset =? 0) then
            view_fs_loop l' newtagset (upd_client c (set_isfullscreen false) s)
              (match fs with Some _ => None | None => Some c end)
          else view_fs_loop l' newtagset s fs
      | None => view_fs_loop l' newtagset s fs
      end
  end.

(** The part of [view] after the loop over the monitors. *)
Definition view_switch (ui newtagset : Z) (s : World) : World :=
  let s1 := upd_mon (selmon s) (fun m => set_seltags (negb (seltags m)) m) s in
  let s2 := if Z.land ui TAGMASK =? 0 then s1
            else upd_mon (selmon s1) (set_seltagset (Z.land ui TAGMASK)) s1 in
  let '(s3, fs) := view_fs_loop (clients (cl s2)) newtagset s2 None in
  let s4 := arrange (Some (selmon s3)) (attachclients (selmon s3) s3) in
  let s5 :=
    match fs with
    | Some c =>
        let s' := upd_client c (set_isfullscreen true) s4 in
        match heap s' !! c with
        | Some k =>
            match mons s' !! mon k with
            | Some m => resizeclient c (mx m) (my m) (mw m) (mh m) s'
            | None => s'
            end
        | None => s'
        end
    | None => s4
    end in
  focus None s5.

(** [view]; [ui] is [arg->ui].  [updatecurrentdesktop] and [warp] only
    talk to the X server. *)
Definition view (ui : Z) (s : World) : World :=
  match mons s !! selmon s with
  | None => s
  | Some sm =>
      if negb (ui =? 0) && (Z.land ui TAGMASK =? seltagset sm) then s
      else
        let newtagset :=
          if Z.land ui TAGMASK =? 0 then othertagset sm else Z.land ui TAGMASK in
        match view_find (imap (fun i m => (i, m)) (mons s)) (selmon s) newtagset with
        | Some (i, m) =>
            if negb (Z.land newtagset (seltagset sm) =? 0) then s
            else
              let s1 := upd_mon i (set_sel (sel sm)) s in
              let s2 := upd_mon i (fun m => set_seltags (negb (seltags m)) m) s1 in
              let s3 := upd_mon i (set_seltagset (seltagset sm)) s2 in
              view_switch ui newtagset (arrange (Some i) (attachclients i s3))
        | None => view_switch ui newtagset s
        end
  end.

(** ** EWMH client lists *)

(** [XChangeProperty(..., PropModeAppend, &win, 1)] on the two root
    properties. *)
Definition append_NetClientList (wn : Z) (s : World) : World :=
  set_xserver (set_NetClientList (NetClientList (xserver s) ++ [wn]) (xserver s)) s.

Definition append_NetClientListStacking (wn : Z) (s : World) : World :=
  set_xserver
    (set_NetClientListStacking (NetClientListStacking (xserver s) ++ [wn]) (xserver s)) s.

(** The inner loop of [updateclientlist] along a chain. *)
Fixpoint append_chain (app : Z -> World -> World) (l : list nat) (s : World)
  : World :=
  match l with
  | [] => s
  | c :: l' =>
      match heap s !! c with
      | Some k => append_chain app l' (app (win k) s)
      | None => append_chain app l' s
      end
  end.

(** [updateclientlist]: for every monitor, the chain its [cl] points to. *)
Definition updateclientlist (s : World) : World :=
  let s1 := set_xserver (set_NetClientList [] (xserver s)) s in
  let s2 := foldl (fun s _ => append_chain append_NetClientList (clients (cl s)) s)
              s1 (mons s1) in
  let s3 := set_xserver (set_NetClientListStacking [] (xserver s2)) s2 in
  foldl (fun s _ => append_chain append_NetClientListStacking (stack (cl s)) s)
    s3 (mons s3).

(** ** Swallowing *)

(** [gettextprop(w, atom, text, 256)] for the property whose texts are
    [prop]: the return value and the string left in [text].  The buffer is
    emptied before the server is asked; a property that is set is copied
    into it, cut to 255 characters. *)
Definition gettextprop (prop : gmap Z string) (wn : Z) : bool * string :=
  match prop !! wn with
  | Some t => (true, substring 0 255 t)
  | None => (false, EmptyString)
  end.

(** [updatetitle]: [_NET_WM_NAME], else [WM_NAME], and ["broken"] for an
    empty name. *)
Definition updatetitle (c : nat) (s : World) : World :=
  upd_client c
    (fun k =>
       let '(ok, t) := gettextprop (net_wm_name (xserver s)) (win k) in
       let t := if ok then t
                else snd (gettextprop (wm_name (xserver s)) (win k)) in
       if bool_decide (t = EmptyString) then set_name "broken" k
       else set_name t k) s.

(** [swallow(p, c)].  [swallowfloating] is declared in none of the files at
    hand and is a parameter. *)
Definition swallow (swallowfloating : bool) (p c : nat) (s : World) : World :=
  match heap s !! p, heap s !! c with
  | Some kp, Some kc =>
      if noswallow kc || isterminal kc then s
      else if noswallow kc && negb swallowfloating && isfloating kc then s
      else
        let s1 := detachstack c (detach c s) in
        let s2 := upd_client p (set_swallowing (Some c)) s1 in
        let s3 := upd_client c (set_mon (mon kp)) s2 in
        let s4 := upd_client c (set_win (win kp)) (upd_client p (set_win (win kc)) s3) in
        let s5 := updatetitle p s4 in
        updateclientlist (arrange (Some (mon kp)) s5)
  | _, _ => s
  end.

(** ** Fullscreen *)

(** [setfullscreen]. *)
Definition setfullscreen (c : nat) (fullscreen : bool) (s : World) : World :=
  match heap s !! c with
  | None => s
  | Some k =>
      match mons s !! mon k with
      | None => s
      | Some m =>
          if fullscreen && negb (isfullscreen k) then
            let s1 :=
              upd_client c
                (fun k => set_isfloating true (set_bw 0 (set_oldbw (bw k)
                            (set_oldstate (isfloating k) (set_isfullscreen true k))))) s in
            resizeclient c (mx m) (my m) (mw m) (mh m) s1
          else if negb fullscreen && isfullscreen k then
            let s1 :=
              upd_client c
                (fun k => set_h (oldh k) (set_w (oldw k) (set_y (oldy k)
                            (set_x (oldx k) (set_bw (oldbw k)
                              (set_isfloating (oldstate k) (set_isfullscreen false k))))))) s in
            let s2 := match heap s1 !! c with
                      | Some k1 => resizeclient c (x k1) (y k1) (w k1) (h k1) s1
                      | None => s1
                      end in
            arrange (Some (mon k)) s2
          else s
      end
  end.

(** ** Master area factor *)

(** The value [setmfact] computes:
    [arg->f < 1.0 ? arg->f + selmon->mfact : arg->f - 1.0], stored in a
    [float]. *)
Definition setmfact_value (argf mf : float) : float :=
  float_of_double
    (if flt (double_of_float argf) d_1_0
     then double_of_float (fadd argf mf)
     else dsub (double_of_float argf) d_1_0).

(** [f < 0.05 || f > 0.95]. *)
Definition setmfact_rejects (f : float) : bool :=
  flt (double_of_float f) d_0_05 || flt d_0_95 (double_of_float f).

(** [setmfact]; [None] is a null [arg]. *)
Definition setmfact (arg : option float) (s : World) : World :=
  match arg, mons s !! selmon s with
  | Some argf, Some sm =>
      if negb (has_arrange sm) then s
      else
        let f := setmfact_value argf (mfact sm) in
        if setmfact_rejects f then s
        else arrange (Some (selmon s)) (upd_mon (selmon s) (set_mfact f) s)
  | _, _ => s
  end.

(** ** Floating position *)

Module Scanf.

(** The directives of the format ["%d%c %d%c %d%c %d%c"]. *)
Inductive directive := Dd | Dc | Dspace.

(** A successful conversion: the value stored through the next pointer. *)
Inductive conv := CInt (z : Z) | CChar (a : ascii).

Definition isspace (a : ascii) : bool :=
  let n := nat_of_ascii a in
  Nat.eqb n 32 || (Nat.leb 9 n && Nat.leb n 13).

Definition isdigit (a : ascii) : bool :=
  let n := nat_of_ascii a in
  Nat.leb 48 n && Nat.leb n 57.

Fixpoint skip_spaces (inp : string) : string :=
  match inp with
  | String a r => if isspace a then skip_spaces r else inp
  | EmptyString => inp
  end.

(** The longest run of digits and its value. *)
Fixpoint digits (inp : string) (acc : Z) : Z * string :=
  match inp with
  | String a r =>
      if isdigit a
      then digits r (10 * acc + Z.of_nat (nat_of_ascii a - 48))
      else (acc, inp)
  | EmptyString => (acc, inp)
  end.

(** The number is read as a [long] (saturating) and stored in an [int]. *)
Definition store_int (v : Z) : Z :=
  sint (Z.max (- 2 ^ 63) (Z.min (2 ^ 63 - 1) v)).

(** [%d]: leading white space, an optional sign, at least one digit.
    [None] is a failed conversion; the flag tells an input failure (end
    of input) from a matching failure. *)
Definition scan_d (inp : string) : option (Z * string) * bool :=
  match skip_spaces inp with
  | EmptyString => (None, true)
  | String a r =>
      let '(neg, body) :=
        if Ascii.eqb a "-" then (true, r)
        else if Ascii.eqb a "+" then (false, r)
        else (false, String a r) in
      match body with
      | String b _ =>
          if isdigit b then
            let '(v, rest) := digits body 0 in
            (Some (store_int (if neg then - v else v), rest), false)
          else (None, false)
      | EmptyString => (None, true)
      end
  end.

(** The conversions made before the first failure, and whether the scan
    stopped on an input failure. *)
Fixpoint scan (fmt : list directive) (inp : string) : list conv * bool :=
  match fmt with
  | [] => ([], false)
  | Dspace :: fmt' => scan fmt' (skip_spaces inp)
  | Dc :: fmt' =>
      match inp with
      | String a r => let '(cs, e) := scan fmt' r in (CChar a :: cs, e)
      | EmptyString => ([], true)
      end
  | Dd :: fmt' =>
      match scan_d inp with
      | (Some (v, rest), _) => let '(cs, e) := scan fmt' rest in (CInt v :: cs, e)
      | (None, e) => ([], e)
      end
  end.

(** The return value of [sscanf]: the number of conversions, or [EOF]
    when the input ends before the first one. *)
Definition sscanf_count (r : list conv * bool) : Z :=
  match r with
  | ([], true) => -1
  | (cs, _) => Z.of_nat (length cs)
  end.

Definition floatpos_format : list directive :=
  [Dd; Dc; Dspace; Dd; Dc; Dspace; Dd; Dc; Dspace; Dd; Dc].

End Scanf.

Import Scanf.

Definition is_ch (a : ascii) (b : ascii) : bool := Ascii.eqb a b.

(** The [for] loop of the grid case of [getfloatpos]: the final [i]. *)
Definition grid_loop (pos cp min_p delta rest : Z) : Z :=
  Z.iter pos
    (fun i =>
       if (i <? pos)
          && (cp >=? min_p +i delta *i i
                     +i (if i >? pos -i rest then i +i rest -i pos +i 1 else 0))
       then i +i 1 else i) 0.

(** [getfloatpos]: the values stored through [out_p] and [out_s]. *)
Definition getfloatpos (pos : Z) (pCh : ascii) (size : Z) (sCh : ascii)
    (min_p max_s cp cs cbw defgrid : Z) : Z * Z :=
  let abs_p := is_ch pCh "A" || is_ch pCh "a" in
  let abs_s := is_ch sCh "A" || is_ch sCh "a" in
  let cs := cs +i 2 *i cbw in
  (* switch (pCh) *)
  let '(pos, sCh, cp, cs) :=
    if is_ch pCh "A" then (pos, sCh, pos, cs)
    else if is_ch pCh "a" then (pos, sCh, cp +i pos, cs)
    else if is_ch pCh "y" || is_ch pCh "x" then
      (pos, sCh, Z.min (cp +i pos) (min_p +i max_s), cs)
    else if is_ch pCh "Y" || is_ch pCh "X" then
      (pos, sCh, min_p +i Z.min pos max_s, cs)
    else if is_ch pCh "S" || is_ch pCh "C" || is_ch pCh "Z" then
      if pos =? -1 then (pos, sCh, cp, cs)
      else
        let pos := Z.max (Z.min pos max_s) 0 in
        let cs :=
          if is_ch pCh "Z" then abs ((cp +i cs) -i (min_p +i pos))
          else if is_ch pCh "C" then abs ((cp +i cs /i 2) -i (min_p +i pos))
          else abs (cp -i (min_p +i pos)) in
        (pos, Ascii.zero, min_p +i pos, cs)
    else if is_ch pCh "G" then
      let pos := if pos <=? 0 then defgrid else pos in
      if (size =? 0) || (pos <? 2) || (negb (is_ch sCh "p") && negb (is_ch sCh "P"))
      then (pos, sCh, cp, cs)
      else
        let delta := (max_s -i cs) /i (pos -i 1) in
        let rest := max_s -i cs -i delta *i (pos -i 1) in
        if is_ch sCh "P" then
          if (size <? 1) || (size >? pos) then (pos, sCh, cp, cs)
          else (pos, sCh, min_p +i delta *i (size -i 1), cs)
        else
          let i := grid_loop pos cp min_p delta rest in
          (pos, sCh,
           min_p +i delta *i (Z.max (Z.min (i +i size) pos) 1 -i 1)
             +i (if i >? pos -i rest then i +i rest -i pos +i 1 else 0),
           cs)
    else (pos, sCh, cp, cs) in
  (* the cases 'H', 'W' of switch (sCh), also reached by falling through *)
  let normal_size (size cp cs : Z) : Z * Z :=
    let size :=
      if is_ch pCh "S" && (cp +i size >? min_p +i max_s) then min_p +i max_s -i cp
      else if size >? max_s then max_s else size in
    let cp :=
      if is_ch pCh "C" then
        let delta := size -i cs in
        if (delta <? 0) || (cp -i delta /i 2 +i size <=? min_p +i max_s)
        then cp -i delta /i 2
        else if cp -i delta /i 2 <? min_p then min_p
        else if negb (delta =? 0) then min_p +i max_s else cp
      else if is_ch pCh "Z" then cp -i (size -i cs)
      else cp in
    (cp, size) in
  (* switch (sCh) *)
  let '(cp, cs) :=
    if is_ch sCh "A" then (cp, size)
    else if is_ch sCh "a" then (cp, Z.max 1 (cs +i size))
    else if is_ch sCh "%" then
      if size <=? 0 then (cp, cs)
      else normal_size (max_s *i Z.min size 100 /i 100) cp cs
    else if is_ch sCh "h" || is_ch sCh "w" then
      if size =? 0 then (cp, cs) else normal_size (size +i cs) cp cs
    else if is_ch sCh "H" || is_ch sCh "W" then normal_size size cp cs
    else (cp, cs) in
  let cp :=
    if is_ch pCh "%"
    then min_p +i max_s *i Z.max (Z.min pos 100) 0 /i 100 -i cs /i 2
    else cp in
  let cp := if is_ch pCh "m" || is_ch pCh "M" then pos -i cs /i 2 else cp in
  let cp := if negb abs_p && (cp <? min_p) then min_p else cp in
  let '(cp, cs) :=
    if (cp +i cs >? min_p +i max_s) && negb (abs_p && abs_s) then
      if abs_p || (cp =? min_p) then (cp, min_p +i max_s -i cp)
      else (min_p +i max_s -i cs, cs)
    else (cp, cs) in
  (cp, Z.max (cs -i 2 *i cbw) 1).

(** Whatever the locals [w], [wCh], [h], [hCh] of [setfloatpos] hold when
    nothing was stored in them. *)
Definition Uninit : Type := Z * ascii * Z * ascii.

(** The tail of [setfloatpos], once the eight values are settled. *)
Definition setfloatpos_apply (c : nat)
    (px : Z) (xCh : ascii) (py : Z) (yCh : ascii)
    (pw : Z) (wCh : ascii) (ph : Z) (hCh : ascii) (s : World) : World :=
  match heap s !! c with
  | None => s
  | Some k =>
      match mons s !! mon k with
      | None => s
      | Some m =>
          let '(cx, cw) :=
            getfloatpos px xCh pw wCh (wx m) (ww m) (x k) (w k) (bw k) floatposgrid_x in
          let '(cy, ch) :=
            getfloatpos py yCh ph hCh (wy m) (wh m) (y k) (h k) (bw k) floatposgrid_y in
          upd_client c
            (fun k => set_h ch (set_y cy (set_w cw (set_x cx
                        (set_ignoresizehints true k))))) s
      end
  end.

(** [setfloatpos(c, floatpos)]; [None] is a null pointer.  [getrootptr]
    stores the pointer position the X server reports. *)
Definition setfloatpos (c : option nat) (floatpos : option string)
    (junk : Uninit) (s : World) : World :=
  match c, floatpos with
  | Some c, Some fp =>
      match heap s !! c, mons s !! selmon s with
      | Some k, Some sm =>
          if has_arrange sm && negb (isfloating k) then s
          else
            let '(jw, jwCh, jh, jhCh) := junk in
            let '(ptx, pty) := pointer (xserver s) in
            match fst (scan floatpos_format fp) with
            | [CInt px; CChar xCh; CInt py; CChar yCh] =>
                if is_ch xCh "w" || is_ch xCh "W" then
                  setfloatpos_apply c (-1) "C" (-1) "C" px xCh py yCh s
                else if is_ch xCh "p" || is_ch xCh "P" then
                  setfloatpos_apply c 0 "G" 0 "G" px xCh py yCh s
                else if is_ch xCh "m" || is_ch xCh "M" then
                  setfloatpos_apply c ptx xCh pty yCh jw jwCh jh jhCh s
                else
                  setfloatpos_apply c px xCh py yCh 0 Ascii.zero 0 Ascii.zero s
            | [CInt px; CChar xCh; CInt py; CChar yCh;
               CInt pw; CChar wCh; CInt ph; CChar hCh] =>
                if is_ch xCh "m" || is_ch xCh "M" then
                  setfloatpos_apply c ptx xCh pty yCh pw wCh ph hCh s
                else
                  setfloatpos_apply c px xCh py yCh pw wCh ph hCh s
            | _ => s
            end
      | _, _ => s
      end
  | _, _ => s
  end.

(** Keep the large operations folded under [simpl]. *)
Arguments arrange : simpl never.
Arguments arrangemon : simpl never.
Arguments resizeclient : simpl never.
Arguments resize : simpl never.
Arguments focus : simpl never.
Arguments attachclients : simpl never.
Arguments updateclientlist : simpl never.

(** * Vocabulary of the properties *)

(** The windows of the clients on a chain. *)
Definition wins (hp : gmap nat Client) (l : list nat) : list Z :=
  omap (fun c => win <$> hp !! c) l.

(** ** Sample states

    A 1920x1080 screen with an 18 pixel bar at the top; clients start as
    [manage] leaves them: tiled, border [borderpx], no size hints. *)

Definition sample_client (wn tg : Z) (m : nat) : Client :=
  {| name := "xterm"; mina := f_zero; maxa := f_zero;
     x := 0; y := 18; w := 640; h := 480;
     oldx := 0; oldy := 18; oldw := 640; oldh := 480;
     basew := 0; baseh := 0; incw := 0; inch := 0;
     maxw := 0; maxh := 0; minw := 0; minh := 0;
     bw := borderpx; oldbw := 0; tags := tg;
     isfixed := false; isfloating := false; isurgent := false;
     neverfocus := false; oldstate := false; isfullscreen := false;
     ignoresizehints := false; beingmoved := false;
     isterminal := false; noswallow := false;
     pid := 0; swallowing := None; mon := m; win := wn |}.

Definition sample_monitor (n xorg : Z) (tg : Z) (l : Layout) : Monitor :=
  {| ltsymbol := symbol l; mfact := config_mfact; nmaster := 1; num := n;
     mx := xorg; my := 0; mw := 1920; mh := 1080;
     wx := xorg; wy := 18; ww := 1920; wh := 1062;
     gappih := 20; gappiv := 20; gappoh := 10; gappov := 30;
     seltags := false; sellt := false; tagset0 := tg; tagset1 := tg;
     showbar := true; sel := None; lt0 := l; lt1 := layout_monocle |}.

Definition sample_xserver : XServer :=
  {| NetClientList := []; NetClientListStacking := []; configured := [];
     net_wm_name := ∅; wm_name := ∅; pointer := (0, 0) |}.

Definition sample_world (ms : list Monitor) (cs : list (nat * Client)) : World :=
  {| mons := ms; selmon := 0%nat;
     cl := {| clients := cs.*1; stack := cs.*1 |};
     heap := list_to_map cs;
     bh := 18; sw := 1920; sh := 1080; xserver := sample_xserver |}.

(** Two monitors showing tags 1 and 2, one client on tag 1. *)
Definition two_monitors_one_client : World :=
  sample_world
    [sample_monitor 0 0 1 layout_monocle; sample_monitor 1 1920 2 layout_monocle]
    [(1%nat, sample_client 10 1 0%nat)].

(** ** Borders in [resizeclient] (C9) *)

(** [c] is allocated, tiled and visible on [m]: [nexttiled] stops at it. *)
Definition tiledb (hp : gmap nat Client) (m : Monitor) (c : nat) : bool :=
  match hp !! c with
  | Some k => negb (isfloating k || negb (ISVISIBLE k m))
  | None => false
  end.

(** [c] is the only visible tiled client on [m]. *)
Definition only_tiled (s : World) (c : nat) (m : Monitor) : Prop :=
  filter (fun a => tiledb (heap s) m a = true) (clients (cl s)) = [c].

(** A layout function is active, the client is neither floating nor
    fullscreen, and it is the only visible tiled client of its monitor or
    the layout is monocle. *)
Definition borderless_case (s : World) (c : nat) (k : Client) (m : Monitor) : Prop :=
  has_arrange m = true /\ isfloating k = false /\ isfullscreen k = false
  /\ (only_tiled s c m \/ arrange_fn (sellayout m) = Some monocle_fn).

(** The one request [resizeclient] sends for the client's window. *)
Definition configures (s s' : World) (k : Client) (wc : XWindowChanges) : Prop :=
  configured (xserver s') = (win k, wc) :: configured (xserver s).

(** The property as first stated: in the borderless case the X border
    width is set to 0 and the stored width and height are the requested
    ones plus twice the border width; otherwise the border width [bw] is
    applied unchanged. *)
Definition resizeclient_border_claim (s : World) (c : nat) (nx ny nw nh : Z)
  : Prop :=
  forall k m,
    heap s !! c = Some k -> mons s !! mon k = Some m ->
    let s' := resizeclient c nx ny nw nh s in
    (borderless_case s c k m ->
     (exists wc, configures s s' k wc /\ wc_border_width wc = 0)
     /\ exists k', heap s' !! c = Some k'
                   /\ w k' = nw +i bw k *i 2 /\ h k' = nh +i bw k *i 2)
    /\ (~ borderless_case s c k m ->
        exists wc, configures s s' k wc /\ wc_border_width wc = bw k).

(** A tiled client in the monocle layout while [placemouse] drags it. *)
Definition dragged_client_world : World :=
  sample_world [sample_monitor 0 0 1 layout_monocle]
    [(1%nat, set_w 1920 (set_h 1062
               (mkClient "xterm" f_zero f_zero 0 18 640 480 0 18 640 480
                  0 0 0 0 0 0 0 0 borderpx 0 1
                  false false false false false false false true false false
                  0 None 0%nat 10)))].

(** The same client at rest. *)
Definition monocle_one_client : World :=
  sample_world [sample_monitor 0 0 1 layout_monocle]
    [(1%nat, sample_client 10 1 0%nat)].

(** ** What arranging leaves alone

    [skeleton] forgets what [resize] and the layouts write: the geometry of
    the clients, the layout symbols and the X server.  Everything else
    (chains, tags, flags, windows, tag sets, selections) is kept. *)

Definition nongeom (k : Client) : Client :=
  set_oldh 0 (set_oldw 0 (set_oldy 0 (set_oldx 0
    (set_h 0 (set_w 0 (set_y 0 (set_x 0 k))))))).

Definition nosym (m : Monitor) : Monitor := set_ltsymbol "" m.

Definition skeleton (s : World) : World :=
  {| mons := nosym <$> mons s; selmon := selmon s; cl := cl s;
     heap := nongeom <$> heap s;
     bh := bh s; sw := sw s; sh := sh s; xserver := sample_xserver |}.

(** ** Swallowing (C7) *)

(** A terminal (window 10, pid 100) and a child client (window 20). *)
Definition terminal_and_child : World :=
  sample_world [sample_monitor 0 0 1 layout_monocle]
    [(2%nat, sample_client 20 1 0%nat);
     (1%nat, sample_client 10 1 0%nat)].

(** The same with the child marked [noswallow]. *)
Definition terminal_and_noswallow_child : World :=
  sample_world [sample_monitor 0 0 1 layout_monocle]
    [(2%nat, mkClient "xev" f_zero f_zero 0 18 640 480 0 18 640 480
               0 0 0 0 0 0 0 0 borderpx 0 1
               false true false false false false false false false true
               0 None 0%nat 20);
     (1%nat, sample_client 10 1 0%nat)].

(** The title dwm gives the client of window [wn]: the text of
    [_NET_WM_NAME], or of [WM_NAME] when that property is not set, cut to
    the 255 characters that fit [name]; ["broken"] when there is none or
    it is empty. *)
Definition title (xs : XServer) (wn : Z) : string :=
  let t := match net_wm_name xs !! wn with
           | Some t => t
           | None => default EmptyString (wm_name xs !! wn)
           end in
  if bool_decide (substring 0 255 t = EmptyString) then "broken"
  else substring 0 255 t.

(** What neither arranging nor focusing writes: everything in a client but
    its geometry and [isurgent], everything in a monitor but its layout
    symbol and [sel]. *)
Definition stable (k : Client) : Client := set_isurgent false (nongeom k).
Definition mstable (m : Monitor) : Monitor := set_sel None (nosym m).

(** The same without the title, which [updatetitle] writes. *)
Definition untitled (k : Client) : Client := set_name EmptyString (stable k).

(** A terminal (window 10), its child (window 20, titled "top") and a
    third client (window 30), in the chain order 3, 2, 1. *)
Definition terminal_child_and_other : World :=
  let s := sample_world [sample_monitor 0 0 1 layout_monocle]
             [(3%nat, sample_client 30 1 0%nat);
              (2%nat, sample_client 20 1 0%nat);
              (1%nat, sample_client 10 1 0%nat)] in
  set_xserver
    {| NetClientList := [30; 20; 10]; NetClientListStacking := [30; 20; 10];
       configured := []; net_wm_name := {[ 20 := "top"%string ]};
       wm_name := ∅; pointer := (0, 0) |} s.

(** ** Floating position (C6) *)

(** The format string parses as the 4-token or the 8-token form: [sscanf]
    returns 4 or 8. *)
Definition parses_as_floatpos (fp : string) : Prop :=
  sscanf_count (scan floatpos_format fp) = 4
  \/ sscanf_count (scan floatpos_format fp) = 8.

(** A floating client under the monocle layout. *)
Definition floating_client_world : World :=
  sample_world [sample_monitor 0 0 1 layout_monocle]
    [(1%nat, set_isfloating true (sample_client 10 1 0%nat))].

Definition no_junk : Uninit := (0, Ascii.zero, 0, Ascii.zero).

(** The conversions [scan] makes for the format of [setfloatpos] alternate
    between a number and a character. *)
Inductive floatpos_shape : list conv -> Prop :=
| shape0 : floatpos_shape []
| shape1 a : floatpos_shape [CInt a]
| shape2 a b : floatpos_shape [CInt a; CChar b]
| shape3 a b c : floatpos_shape [CInt a; CChar b; CInt c]
| shape4 a b c d : floatpos_shape [CInt a; CChar b; CInt c; CChar d]
| shape5 a b c d e : floatpos_shape [CInt a; CChar b; CInt c; CChar d; CInt e]
| shape6 a b c d e f :
    floatpos_shape [CInt a; CChar b; CInt c; CChar d; CInt e; CChar f]
| shape7 a b c d e f g :
    floatpos_shape [CInt a; CChar b; CInt c; CChar d; CInt e; CChar f; CInt g]
| shape8 a b c d e f g i :
    floatpos_shape
      [CInt a; CChar b; CInt c; CChar d; CInt e; CChar f; CInt g; CChar i].

(** ** Master area factor (C8) *)

(** [0.05 <= f <= 0.95], compared as the code compares: in [double]. *)
Definition mfact_in_range (f : float) : Prop :=
  fle d_0_05 (double_of_float f) = true /\ fle (double_of_float f) d_0_95 = true.

(** Every monitor's factor is in range. *)
Definition mfact_inv (s : World) : Prop :=
  Forall (fun m => mfact_in_range (mfact m)) (mons s).

(** ** Fullscreen clients across a tag switch (C2) *)

(** A client as [setfullscreen(c, 1)] leaves it. *)
Definition fullscreen_client (wn tg : Z) (m : nat) : Client :=
  set_isfullscreen true (set_isfloating true (set_bw 0 (set_oldbw borderpx
    (set_x 0 (set_y 0 (set_w 1920 (set_h 1080 (sample_client wn tg m)))))))).

(** One monitor showing tag 4; fullscreen clients on tags 1, 2 and 3, each
    made fullscreen while its tag was viewed. *)
Definition three_fullscreen_world : World :=
  sample_world [sample_monitor 0 0 8 layout_monocle]
    [(3%nat, fullscreen_client 30 4 0%nat);
     (2%nat, fullscreen_client 20 2 0%nat);
     (1%nat, fullscreen_client 10 1 0%nat)].

Definition two_fullscreen_world : World :=
  sample_world [sample_monitor 0 0 8 layout_monocle]
    [(2%nat, fullscreen_client 20 2 0%nat);
     (1%nat, fullscreen_client 10 1 0%nat)].

Definition one_fullscreen_world : World :=
  sample_world [sample_monitor 0 0 8 layout_monocle]
    [(2%nat, sample_client 20 2 0%nat);
     (1%nat, fullscreen_client 10 1 0%nat)].

(** [~0], the argument of the "view all tags" binding. *)
Definition all_tags : Z := unot 0.

(** The [isfullscreen] flags of the clients, in chain order. *)
Definition fullscreen_flags (s : World) : list (nat * bool) :=
  omap (fun c => (fun k => (c, isfullscreen k)) <$> heap s !! c) (clients (cl s)).

(** ** Moving a tag between monitors (C3) *)

(** The tag sets the monitors display, in monitor order. *)
Definition displayed (s : World) : list Z := seltagset <$> mons s.

(** The selected monitor shows [t0], the second monitor [t1]. *)
Definition two_monitors (t0 t1 : Z) : World :=
  sample_world
    [sample_monitor 0 0 t0 layout_monocle; sample_monitor 1 1920 t1 layout_monocle]
    [(1%nat, sample_client 10 t0 0%nat)].

(** ** The monocle layout (C4) *)

(** The work area of [m] shrunk by the outer gaps on all four edges (the
    convention of [vanitygaps.c]: [gappov] left and right, [gappoh] top and
    bottom), as the outer rectangle of client [k]. *)
Definition shrunk_by_gaps (m : Monitor) (k : Client) : Prop :=
  x k = wx m + gappov m /\ y k = wy m + gappoh m
  /\ w k + 2 * bw k = ww m - 2 * gappov m
  /\ h k + 2 * bw k = wh m - 2 * gappoh m.

(** [c] is allocated and visible on [m]. *)
Definition visibleb (hp : gmap nat Client) (m : Monitor) (c : nat) : bool :=
  match hp !! c with
  | Some k => ISVISIBLE k m
  | None => false
  end.

(** The number of clients of the client list that are visible on [m],
    floating and fullscreen ones included. *)
Definition visible_clients (s : World) (m : Monitor) : Z :=
  Z.of_nat (length (filter (fun c => visibleb (heap s) m c = true) (clients (cl s)))).

(** What [snprintf(buf, 16, "[%d]", n)] leaves in [buf]: the decimal
    numeral of [n] in brackets, cut to 15 characters. *)
Definition bracketed (n : Z) : string :=
  substring 0 15 ("[" ++ NilZero.string_of_int (Z.to_int n) ++ "]").

(** The layout symbol ["[n]"] for the clients visible on [m]. *)
Definition monocle_symbol (s : World) (m : Monitor) : string :=
  bracketed (visible_clients s m).

(** The property as first stated: after [monocle], every visible tiled
    client has the work area shrunk by the outer gaps, and the symbol is
    ["[n]"]. *)
Definition monocle_claim (s : World) (m : nat) : Prop :=
  forall mm, mons s !! m = Some mm ->
    (forall c k', c ∈ clients (cl s) -> tiledb (heap s) mm c = true ->
       heap (monocle m s) !! c = Some k' -> shrunk_by_gaps mm k')
    /\ (exists mm', mons (monocle m s) !! m = Some mm'
                    /\ ltsymbol mm' = monocle_symbol s mm).

(** The work area holds the client: nothing overflows [int] and the size
    [resize] is asked for is at least one pixel and at least the bar
    height, so [applysizehints] clamps nothing. *)
Definition monocle_fits (s : World) (m : Monitor) (k : Client) : Prop :=
  in_int (wx m) /\ in_int (wy m) /\ in_int (wx m + ww m) /\ in_int (wy m + wh m)
  /\ 0 <= wx m /\ 0 <= wy m
  /\ 0 <= bw k
  /\ 1 <= ww m - 2 * bw k /\ 1 <= wh m - 2 * bw k
  /\ bh s <= ww m - 2 * bw k /\ bh s <= wh m - 2 * bw k.

(** A floating client and a fullscreen client under the monocle layout,
    no tiled client. *)
Definition floating_and_fullscreen_world : World :=
  sample_world [sample_monitor 0 0 1 layout_monocle]
    [(2%nat, fullscreen_client 20 1 0%nat);
     (1%nat, set_isfloating true (sample_client 10 1 0%nat))].

(** The client already has the geometry [monocle] asks [resize] for. *)
Definition monocle_unchanged (m : Monitor) (k : Client) : Prop :=
  x k = wx m /\ y k = wy m /\ w k = ww m - 2 * bw k /\ h k = wh m - 2 * bw k.

(** ** Viewing a tag set (C10) *)

(** What decides visibility: the tags and monitor of a client, the tag
    sets of a monitor. *)
Definition tagmon (k : Client) : Z * nat := (tags k, mon k).
Definition tagview (m : Monitor) : bool * Z * Z := (seltags m, tagset0 m, tagset1 m).

(** Every client on the client chain that is visible on the selected
    monitor belongs to it. *)
Definition visible_on_selmon_owned (s : World) : Prop :=
  forall c k sm,
    c ∈ clients (cl s) -> heap s !! c = Some k ->
    mons s !! selmon s = Some sm -> ISVISIBLE k sm = true ->
    mon k = selmon s.

(** The stack chain holds clients of the client chain only. *)
Definition stack_in_clients (s : World) : Prop :=
  forall c, c ∈ stack (cl s) -> c ∈ clients (cl s).

(** [s'] differs from [s] in nothing that decides visibility or ownership:
    same tags and monitor for every client, same tag sets, same selected
    monitor, same chains. *)
Definition tagframe (s s' : World) : Prop :=
  tagmon <$> heap s' = tagmon <$> heap s
  /\ tagview <$> mons s' = tagview <$> mons s
  /\ selmon s' = selmon s /\ cl s' = cl s.

(** Two monitors showing tags 1 and 2; a client on each. *)
Definition two_monitors_two_clients : World :=
  sample_world
    [sample_monitor 0 0 1 layout_monocle; sample_monitor 1 1920 2 layout_monocle]
    [(2%nat, sample_client 20 2 1%nat); (1%nat, sample_client 10 1 0%nat)].

(** ** Fullscreen round trip (C5) *)

(** The property as first stated: for a client that is not fullscreen,
    [setfullscreen(c, 1)] then [setfullscreen(c, 0)] restores x, y, w, h,
    bw and isfloating. *)
Definition fullscreen_roundtrip_claim (s : World) (c : nat) : Prop :=
  forall k, heap s !! c = Some k -> isfullscreen k = false ->
    exists k', heap (setfullscreen c false (setfullscreen c true s)) !! c = Some k'
               /\ x k' = x k /\ y k' = y k /\ w k' = w k /\ h k' = h k
               /\ bw k' = bw k /\ isfloating k' = isfloating k.

(** A monitor in the monocle layout showing tag 1, and a tiled client on
    tag 2 that the layout gave the whole work area when it was last seen. *)
Definition hidden_client_world : World :=
  sample_world [sample_monitor 0 0 1 layout_monocle]
    [(1%nat, set_w 1920 (set_h 1062 (sample_client 10 2 0%nat)))].

(** The same client, floating, in the floating layout. *)
Definition hidden_floating_world : World :=
  sample_world [sample_monitor 0 0 1 layout_floating]
    [(1%nat, set_isfloating true (sample_client 10 2 0%nat))].

(** The client is not visible on its monitor, and [resizeclient] does not
    drop its border: it is being moved, or floating, or the layout is not
    monocle. *)
Definition hidden_with_border (k : Client) (m : Monitor) : Prop :=
  ISVISIBLE k m = false
  /\ (beingmoved k = true \/ isfloating k = true
      \/ arrange_fn (sellayout m) <> Some monocle_fn).

(** The client is floating, on no scratchpad tag, and its geometry already
    satisfies its size hints: [applysizehints] reports no change. *)
Definition floating_at_rest (s : World) (k : Client) (m : Monitor) : Prop :=
  isfloating k = true /\ Z.land (tags k) SPTAGMASK = 0
  /\ snd (applysizehints s k m (x k) (y k) (w k) (h k) false) = false.

(** A visible floating client at rest. *)
Definition visible_floating_world : World :=
  sample_world [sample_monitor 0 0 1 layout_monocle]
    [(1%nat, set_isfloating true (sample_client 10 1 0%nat))].

(** ** Operations (C8)

    The operations modelled here, as key bindings and event handlers invoke
    them. *)
Inductive Op :=
| op_view (ui : Z)
| op_toggleview (ui : Z)
| op_setmfact (arg : option float)
| op_setfullscreen (c : nat) (fullscreen : bool)
| op_swallow (swallowfloating : bool) (p c : nat)
| op_setfloatpos (c : option nat) (floatpos : option string) (junk : Uninit)
| op_focus (c : option nat)
| op_arrange (m : option nat)
| op_resizeclient (c : nat) (nx ny nw nh : Z)
| op_updateclientlist.

Definition run (o : Op) (s : World) : World :=
  match o with
  | op_view ui => view ui s
  | op_toggleview ui => toggleview ui s
  | op_setmfact arg => setmfact arg s
  | op_setfullscreen c b => setfullscreen c b s
  | op_swallow b p c => swallow b p c s
  | op_setfloatpos c fp junk => setfloatpos c fp junk s
  | op_focus c => focus c s
  | op_arrange m => arrange m s
  | op_resizeclient c nx ny nw nh => resizeclient c nx ny nw nh s
  | op_updateclientlist => updateclientlist s
  end.

Definition run_all (ops : list Op) (s : World) : World :=
  foldl (fun s o => run o s) s ops.

(** The argument of [setmfact] is a number, as in every key binding. *)
Definition numeric_arg (o : Op) : Prop :=
  match o with
  | op_setmfact (Some f) => is_nan f = false
  | _ => True
  end.

(** The master area factors, in monitor order. *)
Definition mfacts (s : World) : list float := mfact <$> mons s.

(** * Further functions of [dwm.c] *)

Definition set_nmaster (v : Z) (r : Monitor) : Monitor :=
  {| ltsymbol := ltsymbol r; mfact := mfact r; nmaster := v; num := num r;
     mx := mx r; my := my r; mw := mw r; mh := mh r; wx := wx r; wy := wy r;
     ww := ww r; wh := wh r; gappih := gappih r; gappiv := gappiv r;
     gappoh := gappoh r; gappov := gappov r; seltags := seltags r;
     sellt := sellt r; tagset0 := tagset0 r; tagset1 := tagset1 r;
     showbar := showbar r; sel := sel r; lt0 := lt0 r; lt1 := lt1 r |}.

Definition set_wy (v : Z) (r : Monitor) : Monitor :=
  {| ltsymbol := ltsymbol r; mfact := mfact r; nmaster := nmaster r;
     num := num r; mx := mx r; my := my r; mw := mw r; mh := mh r;
     wx := wx r; wy := v; ww := ww r; wh := wh r; gappih := gappih r;
     gappiv := gappiv r; gappoh := gappoh r; gappov := gappov r;
     seltags := seltags r; sellt := sellt r; tagset0 := tagset0 r;
     tagset1 := tagset1 r; showbar := showbar r; sel := sel r; lt0 := lt0 r;
     lt1 := lt1 r |}.

Definition set_wh (v : Z) (r : Monitor) : Monitor :=
  {| ltsymbol := ltsymbol r; mfact := mfact r; nmaster := nmaster r;
     num := num r; mx := mx r; my := my r; mw := mw r; mh := mh r;
     wx := wx r; wy := wy r; ww := ww r; wh := v; gappih := gappih r;
     gappiv := gappiv r; gappoh := gappoh r; gappov := gappov r;
     seltags := seltags r; sellt := sellt r; tagset0 := tagset0 r;
     tagset1 := tagset1 r; showbar := showbar r; sel := sel r; lt0 := lt0 r;
     lt1 := lt1 r |}.

(** ** Monitors *)

(** [dirtomon(dir)] for a selected monitor of the chain: the next monitor,
    wrapping to the first, for [dir > 0]; otherwise the previous one,
    wrapping to the last. *)
Definition dirtomon (dir : Z) (s : World) : nat :=
  if 0 <? dir then
    if bool_decide (S (selmon s) < length (mons s))%nat then S (selmon s) else 0%nat
  else if bool_decide (selmon s = 0%nat) then pred (length (mons s))
  else pred (selmon s).

(** [INTERSECT(x,y,w,h,m)]. *)
Definition INTERSECT (x y w h : Z) (m : Monitor) : Z :=
  Z.max 0 (Z.min (x +i w) (wx m +i ww m) -i Z.max x (wx m))
  *i Z.max 0 (Z.min (y +i h) (wy m +i wh m) -i Z.max y (wy m)).

(** The loop of [recttomon] over the numbered monitors, with the running
    [r] and [area]. *)
Fixpoint recttomon_loop (l : list (nat * Monitor)) (x y w h : Z) (r : nat)
    (area : Z) : nat :=
  match l with
  | [] => r
  | (i, m) :: l' =>
      let a := INTERSECT x y w h m in
      if a >? area then recttomon_loop l' x y w h i a
      else recttomon_loop l' x y w h r area
  end.

(** [recttomon]. *)
Definition recttomon (x y w h : Z) (s : World) : nat :=
  recttomon_loop (imap (fun i m => (i, m)) (mons s)) x y w h (selmon s) 0.

(** The loop of [updatecurrentdesktop]: [i] grows while [rawdata[0]]
    shifted right by [i+1] is not zero; [rawdata[0]] is a [long] that holds
    an [unsigned int]. *)
Fixpoint updatecurrentdesktop_loop (fuel : nat) (rawdata i : Z) : Z :=
  match fuel with
  | O => i
  | S fuel' =>
      if Z.shiftr rawdata (i +i 1) =? 0 then i
      else updatecurrentdesktop_loop fuel' rawdata (i +i 1)
  end.

(** [updatecurrentdesktop]: the number it writes to [_NET_CURRENT_DESKTOP].
    The tag set has 32 bits, so the loop ends within 32 rounds. *)
Definition updatecurrentdesktop (s : World) : option Z :=
  match mons s !! selmon s with
  | Some sm => Some (updatecurrentdesktop_loop 33 (seltagset sm) 0)
  | None => None
  end.

(** ** Screens ([updategeom]) *)

(** [XineramaScreenInfo]. *)
Record XineramaScreenInfo := mkScreenInfo {
  screen_number : Z;
  x_org : Z;
  y_org : Z;
  width : Z;
  height : Z
}.

(** The comparison of [isuniquegeom]. *)
Definition same_geom (a b : XineramaScreenInfo) : bool :=
  (x_org a =? x_org b) && (y_org a =? y_org b)
  && (width a =? width b) && (height a =? height b).

(** [isuniquegeom(unique, n, info)]: [while (n--)] looks at
    [unique[n-1]], ..., [unique[0]]; [n] never exceeds the array. *)
Fixpoint isuniquegeom (unique : list XineramaScreenInfo) (n : nat)
    (info : XineramaScreenInfo) : bool :=
  match n with
  | O => true
  | S n' =>
      match unique !! n' with
      | Some u => if same_geom u info then false else isuniquegeom unique n' info
      | None => isuniquegeom unique n' info
      end
  end.

(** The zeroed array element of [ecalloc]. *)
Definition zero_screen : XineramaScreenInfo := mkScreenInfo 0 0 0 0 0.

(** The loop of [updategeom] that keeps one screen per geometry: the array
    [unique] and the count [j]. *)
Definition unique_screens (info : list XineramaScreenInfo)
  : list XineramaScreenInfo * nat :=
  foldl (fun '(unique, j) inf =>
           if isuniquegeom unique j inf then (<[j := inf]> unique, S j)
           else (unique, j))
    (replicate (length info) zero_screen, 0%nat) info.

(** [RIGHTOF(a, b)]. *)
Definition RIGHTOF (a b : XineramaScreenInfo) : bool :=
  (y_org a >? y_org b) || ((y_org a =? y_org b) && (x_org a >? x_org b)).

(** The body of the loops of [sortscreens]: exchange [screens[i]] and
    [screens[j]] when the first is right of the second. *)
Definition sortscreens_step (i j : nat) (screens : list XineramaScreenInfo)
  : list XineramaScreenInfo :=
  match screens !! i, screens !! j with
  | Some a, Some b =>
      if RIGHTOF a b then <[j := a]> (<[i := b]> screens) else screens
  | _, _ => screens
  end.

(** [sortscreens(screens, n)]. *)
Definition sortscreens (screens : list XineramaScreenInfo) (n : nat)
  : list XineramaScreenInfo :=
  foldl (fun scr i =>
           foldl (fun scr j => sortscreens_step i j scr) scr (seq (S i) (n - S i)))
    screens (seq 0 n).

(** ** Bars *)

(** The geometry part of [struct Bar]. *)
Record Bar := mkBar {
  bar_idx : Z;
  topbar : bool;
  bar_bx : Z;
  bar_by : Z;
  bar_bw : Z;
  bar_bh : Z
}.

(** [updatebarpos(m)] for a monitor with the bar chain [bars]; [barh] is
    the global [bh].  [x_pad] and [y_pad] are 0. *)
Definition updatebarpos (barh : Z) (m : Monitor) (bars : list Bar)
  : Monitor * list Bar :=
  let y_pad := 0 in
  let x_pad := 0 in
  let m1 := set_wh (mh m) (set_wy (my m) m) in
  let bars1 :=
    map (fun b => mkBar (bar_idx b) (topbar b) (mx m1 +i x_pad)
                    (bar_by b) (ww m1 -i 2 *i x_pad) barh) bars in
  if negb (showbar m1) then
    (m1, map (fun b => mkBar (bar_idx b) (topbar b) (bar_bx b)
                         (sint (- barh) -i y_pad) (bar_bw b) (bar_bh b)) bars1)
  else
    let '(m2, num_bars) :=
      foldl (fun '(mm, n) b =>
               ((if topbar b then set_wy (my mm +i barh +i y_pad) mm else mm),
                n +i 1))
        (m1, 0) bars1 in
    let m3 := set_wh (wh m2 -i y_pad *i num_bars -i barh *i num_bars) m2 in
    (m3, map (fun b => mkBar (bar_idx b) (topbar b) (bar_bx b)
                         (if topbar b then wy m3 -i barh else wy m3 +i wh m3)
                         (bar_bw b) (bar_bh b)) bars1).

(** ** Size hints *)

(** The bits of [XSizeHints.flags] that [updatesizehints] tests. *)
Inductive SizeFlag :=
| PSize | PMinSize | PMaxSize | PResizeInc | PAspect | PBaseSize.

#[global] Instance SizeFlag_eq_dec : EqDecision SizeFlag.
Proof. solve_decision. Defined.




(** ** Looking clients up *)

(** The inner loop of [wintoclient] along the client chain. *)
Fixpoint wintoclient_chain (hp : gmap nat Client) (l : list nat) (wn : Z)
  : option nat :=
  match l with
  | [] => None
  | c :: l' =>
      match hp !! c with
      | Some k => if win k =? wn then Some c else wintoclient_chain hp l' wn
      | None => wintoclient_chain hp l' wn
      end
  end.

(** [wintoclient(w)]: for every monitor, the chain its [cl] points to. *)
Definition wintoclient (wn : Z) (s : World) : option nat :=
  foldl (fun r _ =>
           match r with
           | Some c => Some c
           | None => wintoclient_chain (heap s) (clients (cl s)) wn
           end) None (mons s).

(** ** Commands on the selected client *)

(** [incnmaster]; [i] is [arg->i]. *)
Definition incnmaster (i : Z) (s : World) : World :=
  arrange (Some (selmon s))
    (upd_mon (selmon s) (fun m => set_nmaster (Z.max (nmaster m +i i) 0) m) s).

(** [togglefloating]. *)
Definition togglefloating (s : World) : World :=
  match mons s !! selmon s with
  | None => s
  | Some sm =>
      match sel sm with
      | None => s
      | Some c =>
          match heap s !! c with
          | None => s
          | Some k =>
              if isfullscreen k then s
              else
                let f := negb (isfloating k) || isfixed k in
                let s1 := upd_client c (set_isfloating f) s in
                let s2 := if f then resize c (x k) (y k) (w k) (h k) false s1
                          else s1 in
                arrange (Some (selmon s2)) s2
          end
      end
  end.

(** [tag]; [ui] is [arg->ui]. *)
Definition tag (ui : Z) (s : World) : World :=
  match mons s !! selmon s with
  | None => s
  | Some sm =>
      match sel sm with
      | None => s
      | Some c =>
          if Z.land ui TAGMASK =? 0 then s
          else
            let newtags := Z.land ui TAGMASK in
            let moved :=
              match view_find (imap (fun i m => (i, m)) (mons s)) (selmon s) newtags with
              | Some (i, m) =>
                  if negb (Z.land newtags (seltagset sm) =? 0) then None
                  else
                    Some (arrange (Some i)
                            (upd_mon i (set_sel (Some c))
                               (upd_client c (fun k => set_mon i (set_tags newtags k)) s)))
              | None => Some s
              end in
            match moved with
            | None => s
            | Some s1 =>
                let s2 := focus None (upd_client c (set_tags (Z.land ui TAGMASK)) s1) in
                arrange (Some (selmon s2)) s2
            end
      end
  end.

(** [toggletag]; [updatecurrentdesktop] only writes a root property. *)
Definition toggletag (ui : Z) (s : World) : World :=
  match mons s !! selmon s with
  | None => s
  | Some sm =>
      match sel sm with
      | None => s
      | Some c =>
          match heap s !! c with
          | None => s
          | Some k =>
              let newtags := Z.lxor (tags k) (Z.land ui TAGMASK) in
              if newtags =? 0 then s
              else
                match view_find (imap (fun i m => (i, m)) (mons s)) (selmon s) newtags with
                | Some _ => s
                | None =>
                    let s1 := focus None (upd_client c (set_tags newtags) s) in
                    arrange (Some (selmon s1)) s1
                end
          end
      end
  end.

(** [pop]. *)
Definition pop (c : nat) (s : World) : World :=
  let s1 := focus (Some c) (attach c (detach c s)) in
  match heap s1 !! c with
  | Some k => arrange (Some (mon k)) s1
  | None => s1
  end.

(** [zoom].  [None] is the call [pop(NULL)], which dereferences the null
    pointer: no client is selected although a tiled one is visible. *)
Definition zoom (s : World) : option World :=
  match mons s !! selmon s with
  | None => Some s
  | Some sm =>
      let selfloating :=
        match sel sm with
        | Some c => match heap s !! c with Some k => isfloating k | None => false end
        | None => false
        end in
      if negb (has_arrange sm) || selfloating then Some s
      else if bool_decide (sel sm = nexttiled (heap s) (clients (cl s)) sm) then
        match sel sm with
        | None => Some s
        | Some c =>
            match nexttiled (heap s) (next_of c (clients (cl s))) sm with
            | None => Some s
            | Some c' => Some (pop c' s)
            end
        end
      else
        match sel sm with
        | Some c => Some (pop c s)
        | None => None
        end
  end.

(** [sendmon(c, m)] for a monitor [m] of the chain. *)
Definition sendmon (c m : nat) (s : World) : World :=
  match heap s !! c with
  | None => s
  | Some k =>
      if bool_decide (mon k = m) then s
      else
        let hadfocus :=
          match mons s !! selmon s with
          | Some sm => bool_decide (sel sm = Some c)
          | None => false
          end in
        let s1 := arrange (Some (mon k)) (detachstack c (detach c s)) in
        match mons s1 !! m with
        | None => s1
        | Some mm =>
            let t := if seltagset mm =? 0 then 1 else seltagset mm in
            let s2 := upd_client c (fun k => set_tags t (set_mon m k)) s1 in
            let s3 := arrange (Some m) (attachstack c (attach c s2)) in
            if hadfocus then focus (Some c) s3 else focus None s3
        end
  end.

(** ** Unmanaging *)

(** The inner loop of [swallowingclient]. *)
Fixpoint swallowingclient_chain (hp : gmap nat Client) (l : list nat) (wn : Z)
  : option nat :=
  match l with
  | [] => None
  | c :: l' =>
      match hp !! c with
      | Some k =>
          match swallowing k with
          | Some d =>
              match hp !! d with
              | Some kd => if win kd =? wn then Some c
                           else swallowingclient_chain hp l' wn
              | None => swallowingclient_chain hp l' wn
              end
          | None => swallowingclient_chain hp l' wn
          end
      | None => swallowingclient_chain hp l' wn
      end
  end.

(** [swallowingclient(w)]: the chain of every monitor is the shared one. *)
Definition swallowingclient (wn : Z) (s : World) : option nat :=
  foldl (fun r _ =>
           match r with
           | Some c => Some c
           | None => swallowingclient_chain (heap s) (clients (cl s)) wn
           end) None (mons s).

(** [free(c)]. *)
Definition free (c : nat) (s : World) : World :=
  set_heap (delete c (heap s)) s.

(** [unswallow(c)] for a client that swallows another.  [XMapWindow],
    [XMoveResizeWindow] and [setclientstate] send requests that are not
    among the recorded ones. *)
Definition unswallow (c : nat) (s : World) : World :=
  match heap s !! c with
  | None => s
  | Some k =>
      match swallowing k with
      | None => s
      | Some d =>
          match heap s !! d with
          | None => s
          | Some kd =>
              let s1 := upd_client c (set_win (win kd)) s in
              let s2 := upd_client c (set_swallowing None) (free d s1) in
              let s3 := updatetitle c (setfullscreen c false s2) in
              let s4 := arrange (Some (mon k)) s3 in
              arrange (Some (mon k)) (focus None s4)
          end
      end
  end.

(** [unmanage(c, destroyed)].  The request that restores the border of a
    window that still exists has the mask [CWBorderWidth] alone and is not
    among the recorded ones, so [destroyed] makes no difference here. *)
Definition unmanage (c : nat) (destroyed : bool) (s : World) : World :=
  match heap s !! c with
  | None => s
  | Some k =>
      match swallowing k with
      | Some _ => unswallow c s
      | None =>
          match swallowingclient (win k) s with
          | Some t =>
              let s1 :=
                match heap s !! t with
                | Some kt =>
                    match swallowing kt with
                    | Some d => upd_client t (set_swallowing None) (free d s)
                    | None => s
                    end
                | None => s
                end in
              focus None (arrange (Some (mon k)) s1)
          | None =>
              let s1 := free c (detachstack c (detach c s)) in
              updateclientlist (focus None (arrange (Some (mon k)) s1))
          end
      end
  end.

(** ** Vocabulary of the properties *)

(** What identifies a client: its window, the client it swallows, its
    monitor and its tags. *)
Definition identity (k : Client) : Z * option nat * nat * Z :=
  (win k, swallowing k, mon k, tags k).

(** A monitor in the monocle layout whose only client is selected. *)
Definition selected_client_world : World :=
  upd_mon 0 (set_sel (Some 1%nat)) monocle_one_client.

(** Two monitors showing tags 1 and 2, a client on each, the client of the
    first monitor selected. *)
Definition two_monitors_selected : World :=
  upd_mon 0 (set_sel (Some 1%nat)) two_monitors_two_clients.

(** Two tiled clients on one monitor, the head of the chain selected. *)
Definition two_tiled_selected : World :=
  upd_mon 0 (set_sel (Some 2%nat)) terminal_and_child.

Arguments incnmaster : simpl never.
Arguments togglefloating : simpl never.
Arguments tag : simpl never.
Arguments toggletag : simpl never.
Arguments pop : simpl never.
Arguments sendmon : simpl never.
Arguments unswallow : simpl never.
Arguments unmanage : simpl never.

(** * Properties *)

(** ** C arithmetic *)

Lemma sint_id z : in_int z -> sint z = z.
Proof.
  unfold in_int, sint. intros H.
  rewrite Z.mod_small by lia. lia.
Qed.

Lemma sint_range z : in_int (sint z).
Proof.
  unfold in_int, sint.
  pose proof (Z.mod_pos_bound (z + 2 ^ 31) (2 ^ 32) ltac:(lia)). lia.
Qed.

(** The literals are the correctly rounded quotients of their decimal
    numerator and denominator. *)
Example d_0_05_is_5_over_100 : ddiv (double_of_int 5) (double_of_int 100) = d_0_05.
Proof. vm_compute. reflexivity. Qed.

Example d_0_95_is_95_over_100 : ddiv (double_of_int 95) (double_of_int 100) = d_0_95.
Proof. vm_compute. reflexivity. Qed.

Example d_0_55_is_55_over_100 : ddiv (double_of_int 55) (double_of_int 100) = d_0_55.
Proof. vm_compute. reflexivity. Qed.

Example d_1_0_is_one : double_of_int 1 = d_1_0.
Proof. vm_compute. reflexivity. Qed.

Example d_0_5_is_half : ddiv (double_of_int 1) (double_of_int 2) = d_0_5.
Proof. vm_compute. reflexivity. Qed.

(** ** Reading through the setters *)

Lemma heap_upd_client c f s : heap (upd_client c f s) = alter f c (heap s).
Proof. reflexivity. Qed.

Lemma mons_upd_client c f s : mons (upd_client c f s) = mons s.
Proof. reflexivity. Qed.

Lemma heap_upd_mon m f s : heap (upd_mon m f s) = heap s.
Proof. reflexivity. Qed.

Lemma mons_upd_mon m f s : mons (upd_mon m f s) = alter f m (mons s).
Proof. reflexivity. Qed.

Lemma lookup_upd_client_eq c f s k :
  heap s !! c = Some k -> heap (upd_client c f s) !! c = Some (f k).
Proof. intros H. rewrite heap_upd_client, lookup_alter_eq, H. reflexivity. Qed.

Lemma lookup_upd_client_ne c c' f s :
  c <> c' -> heap (upd_client c f s) !! c' = heap s !! c'.
Proof. intros H. rewrite heap_upd_client. apply lookup_alter_ne, H. Qed.

Lemma lookup_upd_mon_eq m f s mm :
  mons s !! m = Some mm -> mons (upd_mon m f s) !! m = Some (f mm).
Proof. intros H. rewrite mons_upd_mon, list_lookup_alter_eq, H. reflexivity. Qed.

Lemma lookup_upd_mon_ne m m' f s :
  m <> m' -> mons (upd_mon m f s) !! m' = mons s !! m'.
Proof. intros H. rewrite mons_upd_mon. apply list_lookup_alter_ne, H. Qed.

(** ** The client-list properties (C1) *)

Lemma append_chain_NetClientList l s :
  let s' := append_chain append_NetClientList l s in
  NetClientList (xserver s') = NetClientList (xserver s) ++ wins (heap s) l
  /\ heap s' = heap s /\ cl s' = cl s /\ mons s' = mons s
  /\ NetClientListStacking (xserver s') = NetClientListStacking (xserver s).
Proof.
  revert s. induction l as [|c l IH]; intros s; simpl.
  - rewrite app_nil_r. auto.
  - unfold wins; simpl. destruct (heap s !! c) as [k|] eqn:Hk; simpl.
    + destruct (IH (append_NetClientList (win k) s)) as (H1 & H2 & H3 & H4 & H5).
      rewrite H1, H2, H3, H4, H5. simpl. rewrite <- app_assoc. auto.
    + apply IH.
Qed.

Lemma append_chain_NetClientListStacking l s :
  let s' := append_chain append_NetClientListStacking l s in
  NetClientListStacking (xserver s')
  = NetClientListStacking (xserver s) ++ wins (heap s) l
  /\ heap s' = heap s /\ cl s' = cl s /\ mons s' = mons s
  /\ NetClientList (xserver s') = NetClientList (xserver s).
Proof.
  revert s. induction l as [|c l IH]; intros s; simpl.
  - rewrite app_nil_r. auto.
  - unfold wins; simpl. destruct (heap s !! c) as [k|] eqn:Hk; simpl.
    + destruct (IH (append_NetClientListStacking (win k) s)) as (H1 & H2 & H3 & H4 & H5).
      rewrite H1, H2, H3, H4, H5. simpl. rewrite <- app_assoc. auto.
    + apply IH.
Qed.

(** One pass of the outer loop per monitor, each over the shared chain. *)
Lemma updateclientlist_clients_loop (ms : list Monitor) s :
  let s' := foldl (fun s _ => append_chain append_NetClientList (clients (cl s)) s) s ms in
  NetClientList (xserver s')
  = NetClientList (xserver s)
    ++ concat (map (fun _ => wins (heap s) (clients (cl s))) ms)
  /\ heap s' = heap s /\ cl s' = cl s /\ mons s' = mons s
  /\ NetClientListStacking (xserver s') = NetClientListStacking (xserver s).
Proof.
  revert s. induction ms as [|m ms IH]; intros s; simpl.
  - rewrite app_nil_r. auto.
  - destruct (append_chain_NetClientList (clients (cl s)) s) as (H1 & H2 & H3 & H4 & H5).
    destruct (IH (append_chain append_NetClientList (clients (cl s)) s))
      as (G1 & G2 & G3 & G4 & G5).
    rewrite G1, G2, G3, G4, G5, H1, H2, H3, H4, H5, <- app_assoc. auto.
Qed.

Lemma updateclientlist_stack_loop (ms : list Monitor) s :
  let s' := foldl (fun s _ => append_chain append_NetClientListStacking (stack (cl s)) s) s ms in
  NetClientListStacking (xserver s')
  = NetClientListStacking (xserver s)
    ++ concat (map (fun _ => wins (heap s) (stack (cl s))) ms)
  /\ heap s' = heap s /\ cl s' = cl s /\ mons s' = mons s
  /\ NetClientList (xserver s') = NetClientList (xserver s).
Proof.
  revert s. induction ms as [|m ms IH]; intros s; simpl.
  - rewrite app_nil_r. auto.
  - destruct (append_chain_NetClientListStacking (stack (cl s)) s) as (H1 & H2 & H3 & H4 & H5).
    destruct (IH (append_chain append_NetClientListStacking (stack (cl s)) s))
      as (G1 & G2 & G3 & G4 & G5).
    rewrite G1, G2, G3, G4, G5, H1, H2, H3, H4, H5, <- app_assoc. auto.
Qed.

(** What [updateclientlist] writes: the shared chain once per monitor. *)
Lemma updateclientlist_spec s :
  let s' := updateclientlist s in
  NetClientList (xserver s')
  = concat (map (fun _ => wins (heap s) (clients (cl s))) (mons s))
  /\ NetClientListStacking (xserver s')
     = concat (map (fun _ => wins (heap s) (stack (cl s))) (mons s))
  /\ heap s' = heap s /\ cl s' = cl s /\ mons s' = mons s.
Proof.
  unfold updateclientlist.
  set (s1 := set_xserver (set_NetClientList [] (xserver s)) s).
  destruct (updateclientlist_clients_loop (mons s1) s1) as (H1 & H2 & H3 & H4 & H5).
  set (s2 := foldl _ s1 (mons s1)) in *.
  set (s3 := set_xserver (set_NetClientListStacking [] (xserver s2)) s2).
  destruct (updateclientlist_stack_loop (mons s3) s3) as (G1 & G2 & G3 & G4 & G5).
  cbv zeta. fold s3. rewrite G1, G2, G3, G4, G5.
  subst s3; simpl. rewrite H1, H2, H3, H4. subst s1; simpl. auto.
Qed.

(** C1.  With two monitors and one managed client (window 10),
    [updateclientlist] publishes the window twice in [_NET_CLIENT_LIST] and
    twice in [_NET_CLIENT_LIST_STACKING]: each monitor's [cl] is the same
    shared [Clientlist], and the loop appends it once per monitor. *)
Theorem updateclientlist_repeats_shared_list :
  NetClientList (xserver (updateclientlist two_monitors_one_client)) = [10; 10]
  /\ NetClientListStacking (xserver (updateclientlist two_monitors_one_client))
     = [10; 10]
  /\ clients (cl two_monitors_one_client) = [1%nat]
  /\ length (mons two_monitors_one_client) = 2%nat.
Proof.
  destruct (updateclientlist_spec two_monitors_one_client) as (H1 & H2 & _).
  rewrite H1, H2. repeat split; reflexivity.
Qed.

(** ** Tiled clients and [nexttiled] *)

Lemma nexttiled_cons hp a l m :
  nexttiled hp (a :: l) m = if tiledb hp m a then Some a else nexttiled hp l m.
Proof.
  simpl. unfold tiledb. destruct (hp !! a) as [k|]; [|reflexivity].
  destruct (isfloating k || negb (ISVISIBLE k m)); reflexivity.
Qed.

Lemma nexttiled_head hp l m :
  nexttiled hp l m = head (filter (fun a => tiledb hp m a = true) l).
Proof.
  induction l as [|a l IH]; [reflexivity|].
  rewrite nexttiled_cons, filter_cons.
  destruct (tiledb hp m a) eqn:Ha.
  - rewrite decide_True by reflexivity. reflexivity.
  - rewrite decide_False by discriminate. exact IH.
Qed.

Lemma nexttiled_Some_tiledb hp l m c :
  nexttiled hp l m = Some c -> tiledb hp m c = true.
Proof.
  rewrite nexttiled_head. intros H.
  apply head_Some_elem_of in H.
  apply list_elem_of_filter in H. tauto.
Qed.

(** The test of [resizeclient] on the two [nexttiled] calls says that [c]
    is the only visible tiled client. *)
Lemma nexttiled_only hp l m c :
  nexttiled hp l m = Some c /\ nexttiled hp (next_of c l) m = None
  <-> filter (fun a => tiledb hp m a = true) l = [c].
Proof.
  induction l as [|a l IH].
  - simpl. split; [intros [H _]; discriminate | discriminate].
  - rewrite filter_cons. destruct (decide (tiledb hp m a = true)) as [Ha|Ha].
    + assert (Hn : nexttiled hp (a :: l) m = Some a).
      { rewrite nexttiled_head, filter_cons, decide_True by exact Ha. reflexivity. }
      rewrite Hn. split.
      * intros [Hc Hnone]. injection Hc as <-.
        simpl in Hnone. rewrite Nat.eqb_refl in Hnone.
        rewrite nexttiled_head in Hnone.
        apply head_None in Hnone. rewrite Hnone. reflexivity.
      * intros Heq. injection Heq as <- Hnil.
        split; [reflexivity|]. simpl. rewrite Nat.eqb_refl.
        rewrite nexttiled_head, Hnil. reflexivity.
    + assert (Hn : nexttiled hp (a :: l) m = nexttiled hp l m).
      { rewrite !nexttiled_head, filter_cons, decide_False by exact Ha. reflexivity. }
      rewrite Hn. simpl next_of.
      destruct (Nat.eqb_spec a c) as [->|Hne].
      * split.
        -- intros [Hc _]. apply nexttiled_Some_tiledb in Hc. contradiction.
        -- intros Heq. exfalso. apply Ha.
           assert (Hin : c ∈ filter (fun a => tiledb hp m a = true) l)
             by (rewrite Heq; apply list_elem_of_here).
           apply list_elem_of_filter in Hin. tauto.
      * exact IH.
Qed.

(** Being tiled depends on the flags and tags of a client, not on its
    geometry. *)
Lemma tiledb_insert hp m c k k' a :
  hp !! c = Some k -> isfloating k' = isfloating k -> tags k' = tags k ->
  tiledb (<[c := k']> hp) m a = tiledb hp m a.
Proof.
  intros Hk Hf Ht. unfold tiledb.
  destruct (decide (c = a)) as [->|Hne].
  - rewrite lookup_insert_eq, Hk. unfold ISVISIBLE. rewrite Hf, Ht. reflexivity.
  - rewrite lookup_insert_ne by exact Hne. reflexivity.
Qed.

Lemma filter_tiledb_insert hp m c k k' (l : list nat) :
  hp !! c = Some k -> isfloating k' = isfloating k -> tags k' = tags k ->
  filter (fun a => tiledb (<[c := k']> hp) m a = true) l
  = filter (fun a => tiledb hp m a = true) l.
Proof.
  intros Hk Hf Ht. apply list_filter_iff. intros a.
  rewrite (tiledb_insert hp m c k k' a Hk Hf Ht). reflexivity.
Qed.

(** ** Borders in [resizeclient] (C9) *)

Lemma is_monocle_iff a : is_monocle a = true <-> a = Some monocle_fn.
Proof.
  destruct a as [[|f]|]; simpl; split; intros H; try reflexivity; discriminate.
Qed.

(** The test of [resizeclient], evaluated after the geometry was stored,
    is the borderless case of the state before. *)
Lemma noborder_iff s c k k1 m :
  heap s !! c = Some k ->
  isfloating k1 = isfloating k -> tags k1 = tags k ->
  isfullscreen k1 = isfullscreen k ->
  noborder (set_heap (<[c := k1]> (heap s)) s) c k1 m = true
  <-> borderless_case s c k m.
Proof.
  intros Hk Hf Ht Hfs. unfold noborder, borderless_case, only_tiled. simpl.
  rewrite !andb_true_iff, orb_true_iff, andb_true_iff, !bool_decide_eq_true,
    !negb_true_iff, nexttiled_only, is_monocle_iff,
    (filter_tiledb_insert _ _ _ _ _ _ Hk Hf Ht), Hf, Hfs.
  tauto.
Qed.

Lemma resizeclient_unfold c nx ny nw nh s k m :
  heap s !! c = Some k -> mons s !! mon k = Some m ->
  let k1 := set_h nh (set_oldh (h k) (set_w nw (set_oldw (w k)
              (set_y ny (set_oldy (y k) (set_x nx (set_oldx (x k) k))))))) in
  let s1 := set_heap (<[c := k1]> (heap s)) s in
  resizeclient c nx ny nw nh s =
  if beingmoved k then s1
  else if noborder s1 c k1 m then
    XConfigureWindow (win k)
      (mkXWindowChanges nx ny (nw +i bw k *i 2) (nh +i bw k *i 2) 0)
      (upd_client c (fun k' => set_h (nh +i bw k *i 2) (set_w (nw +i bw k *i 2) k')) s1)
  else XConfigureWindow (win k) (mkXWindowChanges nx ny nw nh (bw k)) s1.
Proof.
  intros Hk Hm. unfold resizeclient. rewrite Hk. simpl. rewrite Hm.
  reflexivity.
Qed.

(** C9, first part of the counterexample: a client being moved gets its
    geometry stored and nothing else. *)
Lemma resizeclient_beingmoved c nx ny nw nh s k :
  heap s !! c = Some k -> beingmoved k = true ->
  let s' := resizeclient c nx ny nw nh s in
  xserver s' = xserver s
  /\ exists k', heap s' !! c = Some k'
       /\ x k' = nx /\ y k' = ny /\ w k' = nw /\ h k' = nh /\ bw k' = bw k.
Proof.
  intros Hk Hb. unfold resizeclient. rewrite Hk. simpl. rewrite Hb. simpl.
  split; [reflexivity|].
  eexists. rewrite lookup_insert_eq. split; [reflexivity|]. simpl. auto.
Qed.

(** C9 as first stated fails for a client that [placemouse] is dragging:
    in the monocle layout, tiled and not fullscreen, it still gets no
    border request and no enlarged size. *)
Lemma resizeclient_border_claim_fails_when_dragged :
  ~ resizeclient_border_claim dragged_client_world 1%nat 0 18 1916 1058.
Proof.
  intros H.
  specialize (H _ _ eq_refl eq_refl). cbv zeta in H. destruct H as [H _].
  destruct H as [[wc [Hc _]] _].
  - unfold borderless_case. simpl. repeat split; auto.
  - unfold configures in Hc. vm_compute in Hc. discriminate.
Qed.

(** C9, amended: for a client that is not being moved, the borderless
    case sets the X border width to 0 and stores the requested width and
    height plus twice the border width; every other case applies the
    border width [bw] unchanged and stores the requested size.  (A client
    being moved only has its geometry stored, see
    [resizeclient_beingmoved].) *)
Theorem resizeclient_border c nx ny nw nh s :
  (forall k, heap s !! c = Some k -> beingmoved k = false) ->
  resizeclient_border_claim s c nx ny nw nh.
Proof.
  intros Hnb k m Hk Hm. cbv zeta.
  rewrite (resizeclient_unfold c nx ny nw nh s k m Hk Hm). cbv zeta.
  rewrite (Hnb k Hk).
  set (k1 := set_h nh _).
  pose proof (noborder_iff s c k k1 m Hk eq_refl eq_refl eq_refl) as Hiff.
  destruct (noborder _ c k1 m) eqn:Hno.
  - split; [|intros Hn; exfalso; apply Hn, Hiff; reflexivity].
    intros _. split.
    + eexists. split; [reflexivity|reflexivity].
    + eexists. split.
      * unfold XConfigureWindow. simpl. rewrite lookup_alter_eq, lookup_insert_eq.
        reflexivity.
      * simpl. auto.
  - split; [intros Hb; apply Hiff in Hb; discriminate|].
    intros _. eexists. split; reflexivity.
Qed.

Lemma resizeclient_border_witness :
  resizeclient_border_claim monocle_one_client 1%nat 0 18 1916 1058.
Proof.
  apply resizeclient_border.
  intros k Hk. vm_compute in Hk. injection Hk as <-. reflexivity.
Defined.

(** ** Arranging only writes geometry, layout symbols and X requests *)

Lemma skeleton_set_xserver xs s : skeleton (set_xserver xs s) = skeleton s.
Proof. reflexivity. Qed.

Lemma skeleton_XConfigureWindow wn wc s :
  skeleton (XConfigureWindow wn wc s) = skeleton s.
Proof. reflexivity. Qed.

Lemma skeleton_upd_client c f s :
  (forall k, nongeom (f k) = nongeom k) ->
  skeleton (upd_client c f s) = skeleton s.
Proof.
  intros Hf. unfold skeleton, upd_client. simpl. f_equal.
  rewrite (fmap_alter nongeom f id) by (intros; apply Hf).
  apply alter_id. reflexivity.
Qed.

Lemma skeleton_insert c k k' s :
  heap s !! c = Some k -> nongeom k' = nongeom k ->
  skeleton (set_heap (<[c := k']> (heap s)) s) = skeleton s.
Proof.
  intros Hk Hg. unfold skeleton. simpl. f_equal.
  rewrite fmap_insert, Hg. apply insert_id. rewrite lookup_fmap, Hk. reflexivity.
Qed.

Lemma skeleton_upd_mon m f s :
  (forall mm, nosym (f mm) = nosym mm) ->
  skeleton (upd_mon m f s) = skeleton s.
Proof.
  intros Hf. unfold skeleton, upd_mon. simpl. f_equal.
  rewrite (list_fmap_alter nosym f id) by (apply Forall_forall; intros; apply Hf).
  apply list_alter_id. reflexivity.
Qed.

Lemma skeleton_resizeclient c nx ny nw nh s :
  skeleton (resizeclient c nx ny nw nh s) = skeleton s.
Proof.
  unfold resizeclient. destruct (heap s !! c) as [k|] eqn:Hk; [|reflexivity].
  cbv zeta.
  set (k1 := set_h nh _).
  assert (H1 : skeleton (set_heap (<[c := k1]> (heap s)) s) = skeleton s)
    by (apply (skeleton_insert c k); [exact Hk | reflexivity]).
  destruct (beingmoved k1); [exact H1|].
  destruct (mons _ !! mon k1); [|exact H1].
  destruct (noborder _ c k1 m).
  - rewrite skeleton_XConfigureWindow, skeleton_upd_client; [exact H1|reflexivity].
  - rewrite skeleton_XConfigureWindow. exact H1.
Qed.

Lemma skeleton_resize c nx ny nw nh i s :
  skeleton (resize c nx ny nw nh i s) = skeleton s.
Proof.
  unfold resize. destruct (heap s !! c) as [k|]; [|reflexivity].
  destruct (mons s !! mon k) as [m|]; [|reflexivity].
  destruct (applysizehints s k m nx ny nw nh i) as [[[[ax ay] aw] ah] ch].
  destruct ch; [apply skeleton_resizeclient|reflexivity].
Qed.

Lemma skeleton_showhide l s : skeleton (showhide l s) = skeleton s.
Proof.
  revert s. induction l as [|c l IH]; intros s; simpl; [reflexivity|].
  destruct (heap s !! c) as [k|]; [|apply IH].
  destruct (mons s !! mon k) as [m|]; [|apply IH].
  destruct (ISVISIBLE k m); [|apply IH].
  rewrite IH.
  set (s1 := if _ && isfloating k then _ else s).
  assert (H1 : skeleton s1 = skeleton s).
  { subst s1. destruct (_ && isfloating k); [|reflexivity].
    apply skeleton_upd_client. reflexivity. }
  destruct ((negb (has_arrange m) || isfloating k) && negb (isfullscreen k));
    [|exact H1].
  destruct (heap s1 !! c); [|exact H1].
  rewrite skeleton_resize. exact H1.
Qed.

Lemma skeleton_for_nexttiled l m body s :
  (forall c s, skeleton (body c s) = skeleton s) ->
  skeleton (for_nexttiled l m body s) = skeleton s.
Proof.
  intros Hb. revert s. induction l as [|c l IH]; intros s; simpl; [reflexivity|].
  destruct (is_tiled s c m); rewrite IH; [apply Hb|reflexivity].
Qed.

Lemma skeleton_monocle m s : skeleton (monocle m s) = skeleton s.
Proof.
  unfold monocle. destruct (mons s !! m) as [mm|]; [|reflexivity].
  rewrite skeleton_for_nexttiled.
  - destruct (0 <? _); [|reflexivity]. apply skeleton_upd_mon. reflexivity.
  - intros c s'. destruct (heap s' !! c); [apply skeleton_resize|reflexivity].
Qed.

Lemma skeleton_resize_all l s : skeleton (resize_all l s) = skeleton s.
Proof.
  revert s. induction l as [|[c [[[rx ry] rw] rh]] l IH]; intros s; simpl;
    [reflexivity|].
  rewrite IH. apply skeleton_resize.
Qed.

Lemma skeleton_tiling f m s : skeleton (tiling f m s) = skeleton s.
Proof.
  unfold tiling. destruct (mons s !! m) as [mm|]; [|reflexivity].
  destruct (f _ _) as [sym rects]. rewrite skeleton_resize_all.
  destruct sym; [|reflexivity]. apply skeleton_upd_mon. reflexivity.
Qed.

Lemma skeleton_arrangemon m s : skeleton (arrangemon m s) = skeleton s.
Proof.
  unfold arrangemon. destruct (mons s !! m) as [mm|]; [|reflexivity].
  assert (H1 : forall t, skeleton (upd_mon m (set_ltsymbol t) s) = skeleton s)
    by (intros; apply skeleton_upd_mon; reflexivity).
  destruct (arrange_fn (sellayout mm)) as [[|f]|].
  - rewrite skeleton_monocle. apply H1.
  - rewrite skeleton_tiling. apply H1.
  - apply H1.
Qed.

Lemma skeleton_arrange m s : skeleton (arrange m s) = skeleton s.
Proof.
  destruct m as [m|]; unfold arrange.
  - rewrite skeleton_arrangemon. apply skeleton_showhide.
  - set (s1 := foldl _ s (mons s)).
    assert (H1 : skeleton s1 = skeleton s).
    { subst s1. generalize (mons s) at 1. intros ms. revert s.
      induction ms as [|a ms IH]; intros s; simpl; [reflexivity|].
      rewrite IH. apply skeleton_showhide. }
    rewrite <- H1. generalize (seq 0 (length (mons s1))). intros l.
    generalize s1. induction l as [|a l IH]; intros s'; simpl; [reflexivity|].
    rewrite IH. apply skeleton_arrangemon.
Qed.

(** What two states with the same skeleton share. *)
Lemma skeleton_cl s s' : skeleton s = skeleton s' -> cl s = cl s'.
Proof. intros H. exact (f_equal cl H). Qed.

Lemma skeleton_selmon s s' : skeleton s = skeleton s' -> selmon s = selmon s'.
Proof. intros H. exact (f_equal selmon H). Qed.

Lemma skeleton_heap s s' c :
  skeleton s = skeleton s' -> nongeom <$> heap s !! c = nongeom <$> heap s' !! c.
Proof.
  intros H. pose proof (f_equal (fun s => heap s !! c) H) as H'. simpl in H'.
  rewrite !lookup_fmap in H'. exact H'.
Qed.

Lemma skeleton_mons s s' m :
  skeleton s = skeleton s' -> nosym <$> mons s !! m = nosym <$> mons s' !! m.
Proof.
  intros H. pose proof (f_equal (fun s => mons s !! m) H) as H'. simpl in H'.
  rewrite !list_lookup_fmap in H'. exact H'.
Qed.

(** A client of the later state, and the fields it shares with the
    earlier one. *)
Lemma skeleton_heap_Some s s' c k :
  skeleton s = skeleton s' -> heap s !! c = Some k ->
  exists k', heap s' !! c = Some k' /\ nongeom k' = nongeom k.
Proof.
  intros H Hk. pose proof (skeleton_heap s s' c H) as H'.
  rewrite Hk in H'. destruct (heap s' !! c) as [k'|]; [|discriminate].
  exists k'. split; [reflexivity|]. simpl in H'. congruence.
Qed.

Lemma skeleton_mons_Some s s' m mm :
  skeleton s = skeleton s' -> mons s !! m = Some mm ->
  exists mm', mons s' !! m = Some mm' /\ nosym mm' = nosym mm.
Proof.
  intros H Hm. pose proof (skeleton_mons s s' m H) as H'.
  rewrite Hm in H'. destruct (mons s' !! m) as [mm'|]; [|discriminate].
  exists mm'. split; [reflexivity|]. simpl in H'. congruence.
Qed.

(** ** Projections an operation does not write *)

Lemma fmap_heap_upd_client {B} (Q : Client -> B) c f s :
  (forall k, Q (f k) = Q k) -> Q <$> heap (upd_client c f s) = Q <$> heap s.
Proof.
  intros Hf. rewrite heap_upd_client.
  rewrite (fmap_alter Q f id) by (intros; apply Hf).
  apply alter_id. reflexivity.
Qed.

Lemma fmap_mons_upd_mon {A} (P : Monitor -> A) m f s :
  (forall mm, P (f mm) = P mm) -> P <$> mons (upd_mon m f s) = P <$> mons s.
Proof.
  intros Hf. rewrite mons_upd_mon.
  rewrite (list_fmap_alter P f id) by (apply Forall_forall; intros; apply Hf).
  apply list_alter_id. reflexivity.
Qed.

Lemma skeleton_fmap_heap {B} (Q : Client -> B) s s' :
  (forall k, Q (nongeom k) = Q k) -> skeleton s' = skeleton s ->
  Q <$> heap s' = Q <$> heap s.
Proof.
  intros HQ H. pose proof (f_equal (fun t => Q <$> heap t) H) as E. simpl in E.
  rewrite <- !map_fmap_compose in E.
  rewrite (map_fmap_ext (Q ∘ nongeom) Q (heap s')) in E by (intros; apply HQ).
  rewrite (map_fmap_ext (Q ∘ nongeom) Q (heap s)) in E by (intros; apply HQ).
  exact E.
Qed.

Lemma skeleton_fmap_mons {A} (P : Monitor -> A) s s' :
  (forall m, P (nosym m) = P m) -> skeleton s' = skeleton s ->
  P <$> mons s' = P <$> mons s.
Proof.
  intros HP H. pose proof (f_equal (fun t => P <$> mons t) H) as E. simpl in E.
  rewrite <- !list_fmap_compose in E.
  rewrite (list_fmap_ext (P ∘ nosym) P (mons s')) in E by (intros; apply HP).
  rewrite (list_fmap_ext (P ∘ nosym) P (mons s)) in E by (intros; apply HP).
  exact E.
Qed.

Lemma fmap_heap_lookup {B} (Q : Client -> B) (hp hp' : gmap nat Client) c k :
  Q <$> hp' = Q <$> hp -> hp !! c = Some k ->
  exists k', hp' !! c = Some k' /\ Q k' = Q k.
Proof.
  intros H Hk. pose proof (f_equal (fun m => m !! c) H) as Hc. simpl in Hc.
  rewrite !lookup_fmap, Hk in Hc.
  destruct (hp' !! c) as [k'|]; [|discriminate].
  exists k'. split; [reflexivity|]. simpl in Hc. congruence.
Qed.

Lemma fmap_heap_lookup_None {B} (Q : Client -> B) (hp hp' : gmap nat Client) c :
  Q <$> hp' = Q <$> hp -> hp !! c = None -> hp' !! c = None.
Proof.
  intros H Hk. pose proof (f_equal (fun m => m !! c) H) as Hc. simpl in Hc.
  rewrite !lookup_fmap, Hk in Hc.
  destruct (hp' !! c) as [k'|]; [discriminate|reflexivity].
Qed.

Lemma fmap_mons_lookup {A} (P : Monitor -> A) (ms ms' : list Monitor) i m :
  P <$> ms' = P <$> ms -> ms !! i = Some m ->
  exists m', ms' !! i = Some m' /\ P m' = P m.
Proof.
  intros H Hm. pose proof (f_equal (fun l => l !! i) H) as Hc. simpl in Hc.
  rewrite !list_lookup_fmap, Hm in Hc.
  destruct (ms' !! i) as [m'|]; [|discriminate].
  exists m'. split; [reflexivity|]. simpl in Hc. congruence.
Qed.

Lemma filter_ne_not_in c (l : list nat) :
  c ∉ l -> filter (fun a => a <> c) l = l.
Proof.
  induction l as [|a l IH]; intros Hc; [reflexivity|].
  apply not_elem_of_cons in Hc. destruct Hc as [Hne Hc].
  rewrite filter_cons_True by congruence. rewrite IH by exact Hc. reflexivity.
Qed.

(** On a chain without repetition, unlinking [c] removes [c] and nothing
    else, and keeps the order. *)
Lemma unlink_filter c (l : list nat) :
  NoDup l -> unlink c l = filter (fun a => a <> c) l.
Proof.
  induction 1 as [|a l Ha Hl IH]; simpl; [reflexivity|].
  destruct (Nat.eqb_spec a c) as [->|Hne].
  - rewrite filter_cons_False by (intros H; apply H; reflexivity).
    symmetry. apply filter_ne_not_in, Ha.
  - rewrite filter_cons_True by exact Hne. rewrite IH. reflexivity.
Qed.

(** ** Swallowing (C7) *)

Lemma unlink_NoDup_not_in c (l : list nat) : NoDup l -> c ∉ unlink c l.
Proof.
  induction 1 as [|a l Ha Hl IH]; simpl.
  - apply not_elem_of_nil.
  - destruct (Nat.eqb_spec a c) as [->|Hne]; [exact Ha|].
    rewrite not_elem_of_cons. split; [congruence|exact IH].
Qed.

Lemma unlink_other c a (l : list nat) : a <> c -> a ∈ unlink c l <-> a ∈ l.
Proof.
  intros Hne. induction l as [|b l IH]; simpl; [reflexivity|].
  destruct (Nat.eqb_spec b c) as [->|Hbc].
  - rewrite elem_of_cons. split; [auto|intros [?|?]; [contradiction|auto]].
  - rewrite !elem_of_cons, IH. reflexivity.
Qed.

Lemma detachstack_frame c s :
  cl (detachstack c s) = set_stack (unlink c (stack (cl s))) (cl s)
  /\ heap (detachstack c s) = heap s.
Proof.
  unfold detachstack. simpl.
  destruct (heap s !! c) as [k|]; [|auto].
  destruct (mons s !! mon k) as [m|]; [|auto].
  destruct (bool_decide (sel m = Some c)); auto.
Qed.

(** The second guard of [swallow] is never true where it is evaluated. *)
Lemma swallow_second_guard_dead swallowfloating kc :
  (noswallow kc || isterminal kc) = false ->
  (noswallow kc && negb swallowfloating && isfloating kc) = false.
Proof. destruct (noswallow kc); [discriminate|reflexivity]. Qed.

Lemma xserver_detachstack c s : xserver (detachstack c s) = xserver s.
Proof.
  unfold detachstack. cbv zeta.
  destruct (heap _ !! c) as [k|]; [|reflexivity].
  destruct (mons _ !! mon k) as [m|]; [|reflexivity].
  destruct (bool_decide (sel m = Some c)); reflexivity.
Qed.

(** The name [updatetitle] stores is the title of the client's window. *)
Lemma updatetitle_name c s k :
  heap s !! c = Some k ->
  heap (updatetitle c s) !! c = Some (set_name (title (xserver s) (win k)) k).
Proof.
  intros Hk. unfold updatetitle.
  rewrite heap_upd_client, lookup_alter_eq, Hk. simpl. f_equal.
  unfold title, gettextprop.
  destruct (net_wm_name (xserver s) !! win k) as [t|]; simpl.
  - destruct (bool_decide (substring 0 255 t = EmptyString)); reflexivity.
  - destruct (wm_name (xserver s) !! win k) as [t|]; simpl.
    + destruct (bool_decide (substring 0 255 t = EmptyString)); reflexivity.
    + reflexivity.
Qed.

Lemma updatetitle_other c s q :
  q <> c -> heap (updatetitle c s) !! q = heap s !! q.
Proof.
  intros Hne. unfold updatetitle. rewrite heap_upd_client.
  apply lookup_alter_ne. congruence.
Qed.

(** The heap [swallow] leaves when it swallows, up to geometry and
    [isurgent]: parent and child with their windows exchanged, the parent
    titled after its new window, every other client as it was. *)
Lemma swallow_heap swallowfloating p c s kp kc :
  heap s !! p = Some kp -> heap s !! c = Some kc -> p <> c ->
  (noswallow kc || isterminal kc) = false ->
  let s' := swallow swallowfloating p c s in
  (exists kp', heap s' !! p = Some kp'
     /\ stable kp' = stable (set_name (title (xserver s) (win kc))
                               (set_win (win kc) (set_swallowing (Some c) kp))))
  /\ (exists kc', heap s' !! c = Some kc'
        /\ stable kc' = stable (set_win (win kp) (set_mon (mon kp) kc)))
  /\ (forall q, q <> p -> q <> c -> stable <$> heap s' !! q = stable <$> heap s !! q)
  /\ cl s' = {| clients := unlink c (clients (cl s));
                stack := unlink c (stack (cl s)) |}.
Proof.
  intros Hp Hc Hne Hg. cbv zeta. unfold swallow. rewrite Hp, Hc, Hg.
  rewrite (swallow_second_guard_dead swallowfloating kc Hg). cbv zeta.
  set (s1 := detachstack c (detach c s)).
  destruct (detachstack_frame c (detach c s)) as [Hcl Hheap].
  fold s1 in Hcl, Hheap. simpl in Hcl, Hheap.
  assert (Hx1 : xserver s1 = xserver s)
    by (subst s1; rewrite xserver_detachstack; reflexivity).
  set (s4 := upd_client c (set_win (win kp)) _).
  assert (Hx4 : xserver s4 = xserver s) by exact Hx1.
  assert (Hcl4 : cl s4 = cl s1) by reflexivity.
  assert (Hp4 : heap s4 !! p = Some (set_win (win kc) (set_swallowing (Some c) kp))).
  { subst s4. rewrite lookup_upd_client_ne by congruence.
    rewrite (lookup_upd_client_eq p (set_win (win kc)) _ (set_swallowing (Some c) kp));
      [reflexivity|].
    rewrite lookup_upd_client_ne by congruence.
    apply lookup_upd_client_eq. rewrite Hheap. exact Hp. }
  assert (Hc4 : heap s4 !! c = Some (set_win (win kp) (set_mon (mon kp) kc))).
  { subst s4.
    rewrite (lookup_upd_client_eq c (set_win (win kp)) _ (set_mon (mon kp) kc));
      [reflexivity|].
    rewrite lookup_upd_client_ne by exact Hne.
    apply lookup_upd_client_eq. rewrite lookup_upd_client_ne by exact Hne.
    rewrite Hheap. exact Hc. }
  assert (Hq4 : forall q, q <> p -> q <> c -> heap s4 !! q = heap s !! q).
  { intros q Hqp Hqc. subst s4.
    rewrite !lookup_upd_client_ne by congruence. rewrite Hheap. reflexivity. }
  clearbody s4.
  pose proof (updatetitle_name p s4 _ Hp4) as Hp5.
  pose proof (updatetitle_other p s4 c ltac:(congruence)) as Hc5.
  assert (Hq5 : forall q, q <> p -> heap (updatetitle p s4) !! q = heap s4 !! q)
    by (intros q Hq; apply updatetitle_other, Hq).
  assert (Hcl5 : cl (updatetitle p s4) = cl s4) by reflexivity.
  set (s5 := updatetitle p s4) in *. clearbody s5.
  pose proof (skeleton_arrange (Some (mon kp)) s5) as Hsk.
  pose proof (skeleton_fmap_heap stable _ _ (fun _ => eq_refl) Hsk) as Hst.
  pose proof (skeleton_cl _ _ Hsk) as Hcl6.
  set (s6 := arrange (Some (mon kp)) s5) in *. clearbody s6.
  destruct (updateclientlist_spec s6) as (_ & _ & Hh & Hl & _).
  rewrite Hl, Hh.
  assert (Hlook : forall q, stable <$> heap s6 !! q = stable <$> heap s5 !! q).
  { intros q. pose proof (f_equal (fun h => h !! q) Hst) as H. simpl in H.
    rewrite !lookup_fmap in H. exact H. }
  split; [|split; [|split]].
  - pose proof (Hlook p) as H. rewrite Hp5, Hx4 in H. simpl in H.
    destruct (heap s6 !! p) as [kp'|]; [|discriminate].
    exists kp'. split; [reflexivity|]. simpl in H. congruence.
  - pose proof (Hlook c) as H. rewrite Hc5, Hc4 in H.
    destruct (heap s6 !! c) as [kc'|]; [|discriminate].
    exists kc'. split; [reflexivity|]. simpl in H. congruence.
  - intros q Hqp Hqc. rewrite Hlook, Hq5, Hq4 by assumption. reflexivity.
  - rewrite Hcl6, Hcl5, Hcl4, Hcl. reflexivity.
Qed.

(** C7.  [swallow(p, c)] changes nothing when the child has [noswallow]
    or [isterminal]; otherwise the child, and only the child, leaves the
    client and stack chains, whose other clients stay in their order;
    parent and child exchange their windows and the parent's [swallowing]
    is the child; the parent is titled after its new window, the child
    takes the parent's monitor, and nothing else of parent, child or any
    other client changes but geometry and [isurgent].  The guard on
    [swallowfloating] never decides: it is false wherever it is evaluated,
    and the result does not depend on [swallowfloating]. *)
Theorem swallow_spec swallowfloating p c s kp kc :
  heap s !! p = Some kp -> heap s !! c = Some kc -> p <> c ->
  NoDup (clients (cl s)) -> NoDup (stack (cl s)) ->
  ((noswallow kc || isterminal kc) = true -> swallow swallowfloating p c s = s)
  /\ ((noswallow kc || isterminal kc) = false ->
      let s' := swallow swallowfloating p c s in
      clients (cl s') = filter (fun a => a <> c) (clients (cl s))
      /\ stack (cl s') = filter (fun a => a <> c) (stack (cl s))
      /\ (c ∉ clients (cl s')) /\ (c ∉ stack (cl s'))
      /\ (exists kp' kc',
           heap s' !! p = Some kp' /\ heap s' !! c = Some kc'
           /\ win kp' = win kc /\ win kc' = win kp
           /\ swallowing kp' = Some c
           /\ name kp' = title (xserver s) (win kc)
           /\ stable kp' = stable (set_name (title (xserver s) (win kc))
                                     (set_win (win kc) (set_swallowing (Some c) kp)))
           /\ stable kc' = stable (set_win (win kp) (set_mon (mon kp) kc)))
      /\ (forall q, q <> p -> q <> c ->
            stable <$> heap s' !! q = stable <$> heap s !! q))
  /\ ((noswallow kc || isterminal kc) = false ->
      (noswallow kc && negb swallowfloating && isfloating kc) = false)
  /\ (forall b, swallow b p c s = swallow swallowfloating p c s).
Proof.
  intros Hp Hc Hne Hnd1 Hnd2.
  split; [|split; [|split]].
  - intros Hg. unfold swallow. rewrite Hp, Hc, Hg. reflexivity.
  - intros Hg.
    destruct (swallow_heap swallowfloating p c s kp kc Hp Hc Hne Hg)
      as ((kp' & Hkp' & Ep) & (kc' & Hkc' & Ec) & Hother & Hcl).
    cbv zeta in *. rewrite Hcl. cbn [clients stack].
    rewrite !unlink_filter by assumption.
    split; [reflexivity|]. split; [reflexivity|].
    split; [rewrite list_elem_of_filter; intros [H _]; apply H; reflexivity|].
    split; [rewrite list_elem_of_filter; intros [H _]; apply H; reflexivity|].
    split; [|exact Hother].
    exists kp', kc'. split; [exact Hkp'|]. split; [exact Hkc'|].
    split; [exact (f_equal win Ep)|]. split; [exact (f_equal win Ec)|].
    split; [exact (f_equal swallowing Ep)|]. split; [exact (f_equal name Ep)|].
    split; [exact Ep|exact Ec].
  - apply swallow_second_guard_dead.
  - intros b. unfold swallow. rewrite Hp, Hc.
    destruct (noswallow kc || isterminal kc) eqn:Hg; [reflexivity|].
    rewrite !(swallow_second_guard_dead _ kc Hg). reflexivity.
Qed.

Lemma swallow_spec_witness :
  swallow false 1%nat 2%nat terminal_and_noswallow_child
  = terminal_and_noswallow_child
  /\ clients (cl (swallow false 1%nat 2%nat terminal_child_and_other))
     = [3%nat; 1%nat]
  /\ stack (cl (swallow false 1%nat 2%nat terminal_child_and_other))
     = [3%nat; 1%nat]
  /\ (exists kp', heap (swallow false 1%nat 2%nat terminal_child_and_other) !! 1%nat
                  = Some kp'
                  /\ win kp' = 20 /\ swallowing kp' = Some 2%nat
                  /\ name kp' = "top"%string)
  /\ win <$> heap (swallow false 1%nat 2%nat terminal_and_child) !! 1%nat = Some 20
  /\ swallow true 1%nat 2%nat terminal_and_child
     = swallow false 1%nat 2%nat terminal_and_child.
Proof.
  assert (Hnd : NoDup [2%nat; 1%nat])
    by (apply NoDup_cons; split;
        [rewrite list_elem_of_singleton; discriminate | apply NoDup_singleton]).
  assert (Hnd3 : NoDup [3%nat; 2%nat; 1%nat]).
  { apply NoDup_cons. split; [|exact Hnd].
    rewrite elem_of_cons, list_elem_of_singleton. intros [H|H]; discriminate. }
  split; [|split; [|split; [|split; [|split]]]].
  - refine (proj1 (swallow_spec false 1%nat 2%nat terminal_and_noswallow_child
                     _ _ eq_refl eq_refl _ Hnd Hnd) eq_refl).
    discriminate.
  - destruct (proj1 (proj2 (swallow_spec false 1%nat 2%nat terminal_child_and_other
                     _ _ eq_refl eq_refl ltac:(discriminate) Hnd3 Hnd3)) eq_refl)
      as (H1 & _). exact H1.
  - destruct (proj1 (proj2 (swallow_spec false 1%nat 2%nat terminal_child_and_other
                     _ _ eq_refl eq_refl ltac:(discriminate) Hnd3 Hnd3)) eq_refl)
      as (_ & H2 & _). exact H2.
  - destruct (proj1 (proj2 (swallow_spec false 1%nat 2%nat terminal_child_and_other
                     _ _ eq_refl eq_refl ltac:(discriminate) Hnd3 Hnd3)) eq_refl)
      as (_ & _ & _ & _ & (kp' & kc' & H1 & _ & H3 & _ & H5 & H6 & _) & _).
    exists kp'. split; [exact H1|]. split; [exact H3|]. split; [exact H5|exact H6].
  - destruct (proj1 (proj2 (swallow_spec false 1%nat 2%nat terminal_and_child
                     _ _ eq_refl eq_refl ltac:(discriminate) Hnd Hnd)) eq_refl)
      as (_ & _ & _ & _ & (kp' & kc' & H1 & _ & H3 & _) & _).
    rewrite H1. simpl. f_equal. exact H3.
  - refine (proj2 (proj2 (proj2 (swallow_spec false 1%nat 2%nat terminal_and_child
                     _ _ eq_refl eq_refl _ Hnd Hnd))) true).
    discriminate.
Defined.

(** ** Floating position (C6) *)

Ltac scan_d_step :=
  match goal with
  | |- context [scan_d ?i] =>
      let r := fresh "r" in let e := fresh "e" in
      destruct (scan_d i) as [[[? r]|] e]; [|simpl; constructor]
  end.

Ltac scan_c_step :=
  match goal with
  | |- context [match ?i with EmptyString => _ | String _ _ => _ end] =>
      destruct i as [|? ?]; [simpl; constructor|]
  end.

Lemma scan_floatpos_shape fp : floatpos_shape (fst (scan floatpos_format fp)).
Proof.
  unfold floatpos_format.
  cbn [scan]. scan_d_step. scan_c_step.
  cbn [scan]. scan_d_step. scan_c_step.
  cbn [scan]. scan_d_step. scan_c_step.
  cbn [scan]. scan_d_step. scan_c_step.
  simpl. constructor.
Qed.

Lemma setfloatpos_apply_sets_flag c px xCh py yCh pw wCh ph hCh s k m :
  heap s !! c = Some k -> mons s !! mon k = Some m ->
  exists k', heap (setfloatpos_apply c px xCh py yCh pw wCh ph hCh s) !! c = Some k'
             /\ ignoresizehints k' = true.
Proof.
  intros Hk Hm. unfold setfloatpos_apply. rewrite Hk, Hm.
  destruct (getfloatpos px _ _ _ _ _ _ _ _ _) as [cx cw].
  destruct (getfloatpos py _ _ _ _ _ _ _ _ _) as [cy ch].
  eexists. split; [apply lookup_upd_client_eq, Hk|reflexivity].
Qed.

(** C6.  [setfloatpos(c, spec)] changes nothing when the string does not
    parse as the 4-token or 8-token form, nor when the selected monitor has
    a layout function and [c] is not floating (nor for a null pointer); in
    every other case the client ends with [ignoresizehints] set. *)
Theorem setfloatpos_spec c fp junk s :
  (~ parses_as_floatpos fp -> setfloatpos (Some c) (Some fp) junk s = s)
  /\ (forall k sm,
        heap s !! c = Some k -> mons s !! selmon s = Some sm ->
        has_arrange sm = true -> isfloating k = false ->
        setfloatpos (Some c) (Some fp) junk s = s)
  /\ setfloatpos None (Some fp) junk s = s
  /\ setfloatpos (Some c) None junk s = s
  /\ (forall k sm m,
        heap s !! c = Some k -> mons s !! selmon s = Some sm ->
        mons s !! mon k = Some m ->
        has_arrange sm && negb (isfloating k) = false ->
        parses_as_floatpos fp ->
        exists k', heap (setfloatpos (Some c) (Some fp) junk s) !! c = Some k'
                   /\ ignoresizehints k' = true).
Proof.
  split; [|split; [|split; [|split]]]; try reflexivity.
  - intros Hnp. unfold setfloatpos.
    destruct (heap s !! c) as [k|]; [|reflexivity].
    destruct (mons s !! selmon s) as [sm|]; [|reflexivity].
    destruct (has_arrange sm && negb (isfloating k)); [reflexivity|].
    destruct junk as [[[jw jwCh] jh] jhCh]. destruct (pointer (xserver s)) as [ptx pty].
    unfold parses_as_floatpos, sscanf_count in Hnp.
    pose proof (scan_floatpos_shape fp) as Hs.
    destruct (scan floatpos_format fp) as [l e]. simpl in Hs |- *.
    destruct Hs; try reflexivity; exfalso; apply Hnp; simpl; auto.
  - intros k sm Hk Hsm Ha Hf. unfold setfloatpos. rewrite Hk, Hsm, Ha, Hf.
    reflexivity.
  - intros k sm m Hk Hsm Hm Hg Hp. unfold setfloatpos. rewrite Hk, Hsm, Hg.
    destruct junk as [[[jw jwCh] jh] jhCh]. destruct (pointer (xserver s)) as [ptx pty].
    unfold parses_as_floatpos, sscanf_count in Hp.
    pose proof (scan_floatpos_shape fp) as Hs.
    destruct (scan floatpos_format fp) as [l e]. simpl in Hs |- *.
    destruct Hs; try (exfalso; destruct e, Hp; simpl in *; discriminate).
    + repeat match goal with
             | |- context [if ?b then _ else _] => destruct b
             end; eapply setfloatpos_apply_sets_flag; eassumption.
    + repeat match goal with
             | |- context [if ?b then _ else _] => destruct b
             end; eapply setfloatpos_apply_sets_flag; eassumption.
Qed.

Lemma setfloatpos_spec_witness :
  setfloatpos (Some 1%nat) (Some "50% 50% 90%"%string) no_junk floating_client_world
  = floating_client_world
  /\ setfloatpos (Some 1%nat) (Some "50% 50% 90% 80%"%string) no_junk monocle_one_client
     = monocle_one_client
  /\ exists k', heap (setfloatpos (Some 1%nat) (Some "50% 50% 90% 80%"%string)
                        no_junk floating_client_world) !! 1%nat = Some k'
                /\ ignoresizehints k' = true.
Proof.
  split; [|split].
  - apply (proj1 (setfloatpos_spec 1%nat "50% 50% 90%" no_junk floating_client_world)).
    unfold parses_as_floatpos. vm_compute. intros [H|H]; discriminate.
  - apply (proj1 (proj2 (setfloatpos_spec 1%nat "50% 50% 90% 80%" no_junk
                           monocle_one_client)) _ _ eq_refl eq_refl);
      reflexivity.
  - apply (proj2 (proj2 (proj2 (proj2 (setfloatpos_spec 1%nat "50% 50% 90% 80%"
                           no_junk floating_client_world)))) _ _ _
             eq_refl eq_refl eq_refl eq_refl).
    unfold parses_as_floatpos. right. vm_compute. reflexivity.
Defined.

(** ** Floating-point facts *)

Section Rounding.
Variables prec emax : Z.

Lemma iter_pos_invariant {A} (P : A -> Prop) (f : A -> A) :
  (forall a, P a -> P (f a)) -> forall p a, P a -> P (SpecFloat.iter_pos f p a).
Proof.
  intros Hf. induction p as [p IH|p IH|]; intros a Ha; simpl; auto.
Qed.

Lemma shr_1_nonneg mrs : 0 <= shr_m mrs -> 0 <= shr_m (shr_1 mrs).
Proof.
  destruct mrs as [m r s0]. simpl. intros Hm.
  destruct m as [|[p|p|]|p]; simpl; lia.
Qed.

Lemma shr_fexp_nonneg m e l :
  0 <= m -> 0 <= shr_m (fst (shr_fexp prec emax m e l)).
Proof.
  intros Hm. unfold shr_fexp, shr.
  assert (H0 : 0 <= shr_m (shr_record_of_loc m l))
    by (destruct l as [|[ | | ]]; exact Hm).
  destruct (fexp prec emax (Zdigits2 m + e) - e)%Z; simpl; try exact H0.
  apply (iter_pos_invariant (fun r => 0 <= shr_m r)); [apply shr_1_nonneg|exact H0].
Qed.

Lemma round_nearest_even_nonneg m l : 0 <= m -> 0 <= round_nearest_even m l.
Proof.
  intros Hm. destruct l as [|[ | | ]]; simpl; try lia.
  destruct (Z.even m); lia.
Qed.

(** Rounding a non-negative mantissa never produces a NaN. *)
Lemma binary_round_aux_not_nan sx mx ex lx :
  0 <= mx -> is_nan (binary_round_aux prec emax sx mx ex lx) = false.
Proof.
  intros Hm. unfold binary_round_aux.
  pose proof (shr_fexp_nonneg mx ex lx Hm) as H1.
  destruct (shr_fexp prec emax mx ex lx) as [mrs' e']. simpl in H1.
  pose proof (shr_fexp_nonneg _ e' loc_Exact
                (round_nearest_even_nonneg _ (loc_of_shr_record mrs') H1)) as H2.
  destruct (shr_fexp prec emax _ e' loc_Exact) as [mrs'' e'']. simpl in H2.
  destruct (shr_m mrs'') as [|p|p]; [reflexivity| |lia].
  destruct (e'' <=? emax - prec)%Z; reflexivity.
Qed.

Lemma binary_round_not_nan sx mx ex :
  is_nan (binary_round prec emax sx mx ex) = false.
Proof.
  unfold binary_round. destruct (shl_align mx ex _) as [mz ez].
  apply binary_round_aux_not_nan. lia.
Qed.

Lemma binary_normalize_not_nan m e sz :
  is_nan (binary_normalize prec emax m e sz) = false.
Proof.
  destruct m; simpl; [reflexivity| |]; apply binary_round_not_nan.
Qed.

Lemma SFadd_finite_not_nan a s m e :
  is_nan a = false -> is_nan (SFadd prec emax a (S754_finite s m e)) = false.
Proof.
  destruct a as [sa|sa| |sa ma ea]; simpl; intros Ha;
    try reflexivity; try discriminate.
  apply binary_normalize_not_nan.
Qed.

Lemma SFsub_finite_not_nan a s m e :
  is_nan a = false -> is_nan (SFsub prec emax a (S754_finite s m e)) = false.
Proof.
  destruct a as [sa|sa| |sa ma ea]; simpl; intros Ha;
    try reflexivity; try discriminate.
  apply binary_normalize_not_nan.
Qed.

End Rounding.

Lemma double_of_float_not_nan f : is_nan f = false -> is_nan (double_of_float f) = false.
Proof.
  destruct f; simpl; intros H; try reflexivity; try discriminate.
  apply binary_round_not_nan.
Qed.

Lemma float_of_double_not_nan d : is_nan d = false -> is_nan (float_of_double d) = false.
Proof.
  destruct d; simpl; intros H; try reflexivity; try discriminate.
  apply binary_round_not_nan.
Qed.

Lemma double_of_float_nan_inv f : is_nan (double_of_float f) = false -> is_nan f = false.
Proof. destruct f; simpl; auto. Qed.

(** Comparison of two numbers: swapping the arguments mirrors the result. *)
Lemma SFcompare_swap a b : SFcompare b a = CompOpp <$> SFcompare a b.
Proof.
  destruct a as [sa|sa| |sa ma ea], b as [sb|sb| |sb mb eb]; simpl;
    try reflexivity;
    try (destruct sa; reflexivity); try (destruct sb; reflexivity);
    try (destruct sa, sb; reflexivity).
  destruct sa, sb; simpl; try reflexivity.
  - rewrite (Z.compare_antisym ea eb). destruct (ea ?= eb)%Z; simpl; try reflexivity.
    rewrite (Pos.compare_cont_antisym ma mb). simpl.
    destruct (Pos.compare_cont Eq ma mb); reflexivity.
  - rewrite (Z.compare_antisym ea eb). destruct (ea ?= eb)%Z; simpl; try reflexivity.
    rewrite (Pos.compare_cont_antisym ma mb). simpl.
    destruct (Pos.compare_cont Eq ma mb); reflexivity.
Qed.

Lemma SFcompare_not_nan a b :
  is_nan a = false -> is_nan b = false -> exists c, SFcompare a b = Some c.
Proof.
  destruct a, b; simpl; intros Ha Hb; try discriminate; eexists; reflexivity.
Qed.

(** For numbers, "not less" is "greater or equal". *)
Lemma not_flt_fle a b :
  is_nan a = false -> is_nan b = false -> flt a b = false -> fle b a = true.
Proof.
  intros Ha Hb. unfold flt, fle, SFltb, SFleb. rewrite (SFcompare_swap a b).
  destruct (SFcompare_not_nan a b Ha Hb) as [c ->]. simpl.
  destruct c; simpl; try reflexivity. discriminate.
Qed.

Lemma fle_not_flt a b : fle b a = true -> flt a b = false.
Proof.
  unfold flt, fle, SFltb, SFleb. rewrite (SFcompare_swap a b).
  destruct (SFcompare a b) as [[ | | ]|]; simpl; auto.
Qed.

Lemma fle_not_nan_l a b : fle a b = true -> is_nan a = false.
Proof. destruct a, b; simpl; auto; discriminate. Qed.

Lemma fle_not_nan_r a b : fle a b = true -> is_nan b = false.
Proof. destruct a, b; simpl; auto; try discriminate. Qed.

(** ** Master area factor (C8) *)

Lemma mfact_in_range_finite f :
  mfact_in_range f -> exists s m e, f = S754_finite s m e.
Proof.
  intros [H1 H2]. destruct f as [s|s| |s m e].
  - discriminate H1.
  - destruct s; [discriminate H1|discriminate H2].
  - discriminate H1.
  - eauto.
Qed.

(** The value computed from a number and a factor in range is a number. *)
Lemma setmfact_value_not_nan argf mf :
  is_nan argf = false -> mfact_in_range mf ->
  is_nan (setmfact_value argf mf) = false.
Proof.
  intros Ha Hmf. destruct (mfact_in_range_finite mf Hmf) as (s & m & e & ->).
  unfold setmfact_value. apply float_of_double_not_nan.
  destruct (flt (double_of_float argf) d_1_0).
  - apply double_of_float_not_nan. apply SFadd_finite_not_nan, Ha.
  - apply SFsub_finite_not_nan, double_of_float_not_nan, Ha.
Qed.

(** The test of [setmfact] accepts exactly the numbers in range. *)
Lemma setmfact_rejects_iff f :
  is_nan f = false -> setmfact_rejects f = false <-> mfact_in_range f.
Proof.
  intros Hn. unfold setmfact_rejects, mfact_in_range.
  pose proof (double_of_float_not_nan f Hn) as Hd.
  rewrite orb_false_iff. split; intros [H1 H2]; split.
  - apply not_flt_fle; auto.
  - apply not_flt_fle; auto.
  - apply fle_not_flt, H1.
  - apply fle_not_flt, H2.
Qed.

Lemma arrange_mfact m s i mm' :
  mons (arrange m s) !! i = Some mm' ->
  exists mm, mons s !! i = Some mm /\ mfact mm = mfact mm'.
Proof.
  intros H.
  destruct (skeleton_mons_Some _ _ i mm' (skeleton_arrange m s) H) as (mm & Hm & Hn).
  exists mm. split; [exact Hm|]. exact (f_equal mfact Hn).
Qed.

(** [setmfact] with a number: outside the range it changes nothing, and
    it keeps every factor in range. *)
Lemma setmfact_in_range s argf sm :
  mons s !! selmon s = Some sm ->
  is_nan argf = false ->
  mfact_inv s ->
  (~ mfact_in_range (setmfact_value argf (mfact sm)) -> setmfact (Some argf) s = s)
  /\ mfact_inv (setmfact (Some argf) s).
Proof.
  intros Hsm Ha Hinv.
  assert (Hmf : mfact_in_range (mfact sm)).
  { unfold mfact_inv in Hinv. rewrite Forall_lookup in Hinv. exact (Hinv _ _ Hsm). }
  pose proof (setmfact_value_not_nan argf (mfact sm) Ha Hmf) as Hn.
  pose proof (setmfact_rejects_iff _ Hn) as Hiff.
  unfold setmfact. rewrite Hsm.
  destruct (has_arrange sm); simpl; [|auto].
  destruct (setmfact_rejects (setmfact_value argf (mfact sm))) eqn:Hr; [auto|].
  split.
  - intros Hout. exfalso. apply Hout, Hiff. reflexivity.
  - unfold mfact_inv. rewrite Forall_lookup. intros i mm' Hi.
    destruct (arrange_mfact _ _ _ _ Hi) as (mm & Hmm & <-).
    destruct (decide (selmon s = i)) as [<-|Hne].
    + rewrite (lookup_upd_mon_eq _ _ _ _ Hsm) in Hmm. injection Hmm as <-.
      simpl. apply Hiff. reflexivity.
    + rewrite lookup_upd_mon_ne in Hmm by exact Hne.
      unfold mfact_inv in Hinv. rewrite Forall_lookup in Hinv. exact (Hinv _ _ Hmm).
Qed.

(** ** Fullscreen clients across a tag switch (C2) *)

(** With one fullscreen client coming into view it stays fullscreen; with
    two, both lose the flag. *)
Example view_one_fullscreen_kept :
  fullscreen_flags (view all_tags one_fullscreen_world)
  = [(2%nat, false); (1%nat, true)].
Proof. vm_compute. reflexivity. Qed.

Example view_two_fullscreen_cleared :
  fullscreen_flags (view all_tags two_fullscreen_world)
  = [(2%nat, false); (1%nat, false)].
Proof. vm_compute. reflexivity. Qed.

(** C2.  With three fullscreen clients coming into view, [view] clears the
    flag of the first two of the chain and leaves the third fullscreen:
    [fs = fs ? NULL : c] toggles, so an odd number of fullscreen clients
    ends with the last one restored. *)
Theorem view_three_fullscreen_keeps_last :
  fullscreen_flags three_fullscreen_world
  = [(3%nat, true); (2%nat, true); (1%nat, true)]
  /\ displayed three_fullscreen_world = [8]
  /\ displayed (view all_tags three_fullscreen_world) = [TAGMASK]
  /\ fullscreen_flags (view all_tags three_fullscreen_world)
     = [(3%nat, false); (2%nat, false); (1%nat, true)].
Proof. vm_compute. repeat split; reflexivity. Qed.

(** ** Moving a tag between monitors (C3) *)

Lemma findfirstunusedtag_loop_zero n occupied :
  findfirstunusedtag_loop (S n) 0 occupied = 0.
Proof. simpl. destruct (0 <? occupied); reflexivity. Qed.

Lemma findfirstunusedtag_loop_stops k :
  forall n1 n2 i occupied,
    Nat.iter k (fun i => sint (Z.shiftl i 1)) i = 0 ->
    (k < n1)%nat -> (k < n2)%nat ->
    findfirstunusedtag_loop n1 i occupied = findfirstunusedtag_loop n2 i occupied.
Proof.
  induction k as [|k IH]; intros n1 n2 i occupied Hi H1 H2;
    destruct n1 as [|n1]; try lia; destruct n2 as [|n2]; try lia.
  - simpl in Hi. subst i. rewrite !findfirstunusedtag_loop_zero. reflexivity.
  - simpl. destruct (i <? occupied); [|reflexivity].
    destruct (Z.land i occupied =? 0); [reflexivity|].
    apply IH; [|lia|lia]. rewrite Nat.iter_succ_r in Hi. exact Hi.
Qed.

(** The loop of [findfirstunusedtag] ends by itself within 33 rounds: more
    fuel never changes its result. *)
Lemma findfirstunusedtag_loop_fuel n occupied :
  findfirstunusedtag_loop (34 + n) 1 occupied
  = findfirstunusedtag_loop 34 1 occupied.
Proof.
  apply (findfirstunusedtag_loop_stops 32); [vm_compute; reflexivity|lia|lia].
Qed.


(** C3.  [toggleview] on monitor 0, which shows tag 1: adding tag 6, the
    only tag of monitor 1 (the tag [monrules] starts it with), leaves
    monitor 1 with the empty tag set, because [findfirstunusedtag] only
    looks below the highest displayed bit; and adding tag 1 while monitor 0
    shows tag 3 hands tag 1 straight back to monitor 1, so both monitors
    display it. *)
Theorem toggleview_leaves_empty_or_shared_tagset :
  displayed (two_monitors 1 32) = [1; 32]
  /\ displayed (toggleview 32 (two_monitors 1 32)) = [33; 0]
  /\ displayed (two_monitors 4 1) = [4; 1]
  /\ displayed (toggleview 1 (two_monitors 4 1)) = [5; 1].
Proof. vm_compute. repeat split; reflexivity. Qed.

(** ** The monocle layout (C4) *)

Ltac int_ok :=
  repeat match goal with
         | |- context [sint ?z] => rewrite (sint_id z) by (unfold in_int in *; lia)
         end.

(** For a tiled client that fits, [applysizehints] returns what [monocle]
    passes in. *)
Lemma applysizehints_monocle s k m :
  monocle_fits s m k -> isfloating k = false -> has_arrange m = true ->
  applysizehints s k m (wx m) (wy m) (ww m -i 2 *i bw k) (wh m -i 2 *i bw k) false
  = ((wx m, wy m, ww m - 2 * bw k, wh m - 2 * bw k),
     negb (wx m =? x k) || negb (wy m =? y k)
     || negb (ww m - 2 * bw k =? w k) || negb (wh m - 2 * bw k =? h k)).
Proof.
  intros (H1 & H2 & H3 & H4 & H5 & H6 & H7 & H8 & H9 & H10 & H11) Hf Ha.
  unfold applysizehints, WIDTH, HEIGHT, add, sub, mul. int_ok.
  rewrite !Z.max_r by lia.
  replace (wx m >=? wx m + ww m) with false by (symmetry; rewrite Z.geb_leb; apply Z.leb_gt; lia).
  replace (wy m >=? wy m + wh m) with false by (symmetry; rewrite Z.geb_leb; apply Z.leb_gt; lia).
  int_ok.
  replace (wx m + (ww m - 2 * bw k) + 2 * bw k <=? wx m) with false
    by (symmetry; apply Z.leb_gt; lia).
  replace (wy m + (wh m - 2 * bw k) + 2 * bw k <=? wy m) with false
    by (symmetry; apply Z.leb_gt; lia).
  replace (wh m - 2 * bw k <? bh s) with false by (symmetry; apply Z.ltb_ge; lia).
  replace (ww m - 2 * bw k <? bh s) with false by (symmetry; apply Z.ltb_ge; lia).
  rewrite Hf, Ha. unfold resizehints. simpl. rewrite andb_false_r. reflexivity.
Qed.

Lemma resizeclient_other c c' nx ny nw nh s :
  c <> c' -> heap (resizeclient c' nx ny nw nh s) !! c = heap s !! c.
Proof.
  intros Hne. unfold resizeclient.
  destruct (heap s !! c') as [k|]; [|reflexivity]. cbv zeta.
  set (k1 := set_h nh _).
  assert (H1 : heap (set_heap (<[c' := k1]> (heap s)) s) !! c = heap s !! c)
    by (simpl; apply lookup_insert_ne; congruence).
  destruct (beingmoved k1); [exact H1|].
  destruct (mons _ !! mon k1); [|exact H1].
  destruct (noborder _ c' k1 m); [|exact H1].
  unfold XConfigureWindow. simpl heap.
  rewrite lookup_alter_ne by congruence. exact H1.
Qed.

Lemma resize_other c c' nx ny nw nh i s :
  c <> c' -> heap (resize c' nx ny nw nh i s) !! c = heap s !! c.
Proof.
  intros Hne. unfold resize.
  destruct (heap s !! c') as [k|]; [|reflexivity].
  destruct (mons s !! mon k) as [m|]; [|reflexivity].
  destruct (applysizehints s k m nx ny nw nh i) as [[[[ax ay] aw] ah] ch].
  destruct ch; [apply resizeclient_other, Hne|reflexivity].
Qed.

Lemma mons_resizeclient c nx ny nw nh s :
  mons (resizeclient c nx ny nw nh s) = mons s.
Proof.
  unfold resizeclient. destruct (heap s !! c) as [k|]; [|reflexivity]. cbv zeta.
  destruct (beingmoved _); [reflexivity|]. simpl mons.
  destruct (mons s !! _); [|reflexivity].
  destruct (noborder _ _ _ _); reflexivity.
Qed.

Lemma mons_resize c nx ny nw nh i s : mons (resize c nx ny nw nh i s) = mons s.
Proof.
  unfold resize. destruct (heap s !! c) as [k|]; [|reflexivity].
  destruct (mons s !! mon k) as [m|]; [|reflexivity].
  destruct (applysizehints s k m nx ny nw nh i) as [[[[ax ay] aw] ah] ch].
  destruct ch; [apply mons_resizeclient|reflexivity].
Qed.

(** Being tiled is a matter of the skeleton. *)
Lemma is_tiled_skeleton t t' c m :
  skeleton t = skeleton t' -> is_tiled t c m = is_tiled t' c m.
Proof.
  intros H. pose proof (skeleton_heap t t' c H) as Hh.
  pose proof (skeleton_mons t t' m H) as Hm. unfold is_tiled.
  destruct (heap t !! c) as [k|], (heap t' !! c) as [k'|]; try discriminate;
    destruct (mons t !! m) as [mm|], (mons t' !! m) as [mm'|]; try discriminate;
    try reflexivity.
  simpl in Hh, Hm.
  assert (Ek : nongeom k = nongeom k') by congruence.
  assert (Em : nosym mm = nosym mm') by congruence.
  change (negb (isfloating (nongeom k) || negb (ISVISIBLE (nongeom k) (nosym mm)))
          = negb (isfloating (nongeom k') || negb (ISVISIBLE (nongeom k') (nosym mm')))).
  rewrite Ek, Em. reflexivity.
Qed.

Section TiledLoop.
Variable body : nat -> World -> World.
Hypothesis body_other :
  forall c c' t, c <> c' -> heap (body c' t) !! c = heap t !! c.
Hypothesis body_skeleton : forall c t, skeleton (body c t) = skeleton t.

Lemma for_nexttiled_other l m c t :
  c ∉ l -> heap (for_nexttiled l m body t) !! c = heap t !! c.
Proof.
  revert t. induction l as [|a l IH]; intros t Hc; simpl; [reflexivity|].
  apply not_elem_of_cons in Hc as [Hne Hc].
  destruct (is_tiled t a m); rewrite IH by exact Hc; [|reflexivity].
  apply body_other, Hne.
Qed.

(** A tiled client of the chain is handled once, in a state that differs
    from the first one by the geometry of other clients only. *)
Lemma for_nexttiled_at l m c t :
  NoDup l -> c ∈ l -> is_tiled t c m = true ->
  exists t', skeleton t' = skeleton t /\ heap t' !! c = heap t !! c
             /\ heap (for_nexttiled l m body t) !! c = heap (body c t') !! c.
Proof.
  revert t. induction l as [|a l IH]; intros t Hnd Hc Ht.
  - apply elem_of_nil in Hc. contradiction.
  - apply NoDup_cons in Hnd as [Ha Hnd]. simpl.
    destruct (decide (a = c)) as [->|Hne].
    + rewrite Ht. exists t. split; [reflexivity|]. split; [reflexivity|].
      apply for_nexttiled_other, Ha.
    + apply elem_of_cons in Hc as [Hc|Hc]; [congruence|].
      destruct (is_tiled t a m) eqn:Hta.
      * destruct (IH (body a t) Hnd Hc) as (t' & H1 & H2 & H3).
        { rewrite (is_tiled_skeleton _ t c m (body_skeleton a t)). exact Ht. }
        exists t'. rewrite H1, H2, H3, body_skeleton, body_other by congruence. auto.
      * apply IH; assumption.
Qed.

Lemma mons_for_nexttiled l m t :
  (forall c t, mons (body c t) = mons t) ->
  mons (for_nexttiled l m body t) = mons t.
Proof.
  intros Hb. revert t. induction l as [|a l IH]; intros t; simpl; [reflexivity|].
  destruct (is_tiled t a m); rewrite IH; [apply Hb|reflexivity].
Qed.

End TiledLoop.

Lemma count_visible_bound hp l m :
  Z.of_nat (length l) < 2 ^ 32 ->
  0 <= count_visible hp l m <= Z.of_nat (length l).
Proof.
  induction l as [|a l IH]; simpl length; intros Hl; [simpl; lia|].
  rewrite Nat2Z.inj_succ in *. specialize (IH ltac:(lia)). simpl.
  destruct (hp !! a) as [k|]; [|lia].
  destruct (ISVISIBLE k m); [|lia].
  unfold uint. rewrite Z.mod_small by lia. lia.
Qed.

Lemma count_visible_pos hp l m c k :
  Z.of_nat (length l) < 2 ^ 32 ->
  c ∈ l -> hp !! c = Some k -> ISVISIBLE k m = true ->
  0 < count_visible hp l m.
Proof.
  induction l as [|a l IH]; simpl length; intros Hl Hc Hk Hv.
  - apply elem_of_nil in Hc. contradiction.
  - rewrite Nat2Z.inj_succ in Hl.
    pose proof (count_visible_bound hp l m ltac:(lia)) as Hb. simpl.
    destruct (decide (a = c)) as [->|Hne].
    + rewrite Hk, Hv. unfold uint. rewrite Z.mod_small by lia. lia.
    + apply elem_of_cons in Hc as [Hc|Hc]; [congruence|].
      specialize (IH ltac:(lia) Hc Hk Hv).
      destruct (hp !! a) as [ka|]; [|exact IH].
      destruct (ISVISIBLE ka m); [|exact IH].
      unfold uint. rewrite Z.mod_small by lia. lia.
Qed.

(** What [monocle]'s call of [resize] does to a tiled client that fits. *)
Lemma monocle_resize_result t c k mt :
  heap t !! c = Some k -> mons t !! mon k = Some mt ->
  arrange_fn (sellayout mt) = Some monocle_fn ->
  isfloating k = false -> isfullscreen k = false -> beingmoved k = false ->
  monocle_fits t mt k ->
  exists k',
    heap (resize c (wx mt) (wy mt) (ww mt -i 2 *i bw k) (wh mt -i 2 *i bw k)
            false t) !! c = Some k'
    /\ x k' = wx mt /\ y k' = wy mt
    /\ ((w k' = ww mt /\ h k' = wh mt) \/ (k' = k /\ monocle_unchanged mt k)).
Proof.
  intros Hk Hm Hmono Hf Hfs Hbm Hfit.
  assert (Ha : has_arrange mt = true) by (unfold has_arrange; rewrite Hmono; reflexivity).
  unfold resize. rewrite Hk, Hm, (applysizehints_monocle t k mt Hfit Hf Ha).
  destruct (negb (wx mt =? x k) || _ || _ || _) eqn:Hch.
  - rewrite (resizeclient_unfold c _ _ _ _ t k mt Hk Hm). cbv zeta. rewrite Hbm.
    set (k1 := set_h _ _).
    assert (Hno : noborder (set_heap (<[c := k1]> (heap t)) t) c k1 mt = true).
    { apply (noborder_iff t c k k1 mt Hk eq_refl eq_refl eq_refl).
      unfold borderless_case. auto. }
    rewrite Hno. eexists. split.
    + unfold XConfigureWindow. simpl heap. rewrite lookup_alter_eq, lookup_insert_eq.
      reflexivity.
    + simpl. destruct Hfit as (H1 & H2 & H3 & H4 & H5 & H6 & H7 & H8 & H9 & _).
      split; [reflexivity|]. split; [reflexivity|]. left.
      unfold add, mul. int_ok. split; lia.
  - exists k. split; [exact Hk|].
    rewrite !orb_false_iff, !negb_false_iff, !Z.eqb_eq in Hch.
    destruct Hch as [[[E1 E2] E3] E4].
    split; [congruence|]. split; [congruence|]. right.
    split; [reflexivity|]. unfold monocle_unchanged. auto.
Qed.

(** C4 as first stated fails: with outer gaps 10 and 30 configured, the
    one tiled client of a monitor in the monocle layout is put at the
    origin of the work area, not 30 pixels to its right. *)
Lemma monocle_claim_fails_no_gaps : ~ monocle_claim monocle_one_client 0%nat.
Proof.
  intros H. destruct (H _ eq_refl) as [H1 _].
  assert (Hin : 1%nat ∈ clients (cl monocle_one_client))
    by (apply list_elem_of_here).
  destruct (heap (monocle 0%nat monocle_one_client) !! 1%nat) as [k'|] eqn:Hk;
    [|vm_compute in Hk; discriminate].
  specialize (H1 1%nat k' Hin eq_refl Hk). destruct H1 as [Hx _].
  vm_compute in Hk. injection Hk as <-. vm_compute in Hx. discriminate.
Qed.

(** The loop of [monocle] counts the clients of the chain that are
    visible on the monitor. *)
Lemma count_visible_filter hp (l : list nat) m :
  Z.of_nat (length l) < 2 ^ 32 ->
  count_visible hp l m
  = Z.of_nat (length (filter (fun c => visibleb hp m c = true) l)).
Proof.
  induction l as [|a l IH]; simpl length; intros Hl; [reflexivity|].
  rewrite Nat2Z.inj_succ in Hl.
  pose proof (count_visible_bound hp l m ltac:(lia)) as Hb.
  specialize (IH ltac:(lia)). simpl.
  destruct (hp !! a) as [k|] eqn:Hk.
  - destruct (ISVISIBLE k m) eqn:Hv.
    + rewrite filter_cons_True by (unfold visibleb; rewrite Hk; exact Hv).
      simpl length. rewrite Nat2Z.inj_succ, <- IH.
      unfold uint. rewrite Z.mod_small by lia. lia.
    + rewrite filter_cons_False
        by (unfold visibleb; rewrite Hk, Hv; discriminate).
      exact IH.
  - rewrite filter_cons_False by (unfold visibleb; rewrite Hk; discriminate).
    exact IH.
Qed.

(** C4, amended.  [monocle] on monitor [m], whatever clients there are:
    when at least one client of the client list is visible on [m]
    (floating and fullscreen clients count) the layout symbol becomes what
    [snprintf] writes for ["[%d]"] and the number of visible clients, and
    otherwise the symbol stays.  In the monocle layout every visible tiled
    client that belongs to [m] (not fullscreen, not being moved, on a work
    area that holds it) is put at the origin of the monitor's work area and
    given the whole work area, gaps not applied: [resize] is asked for the
    work area less the border, and [resizeclient] then drops the border and
    gives the client the full width and height, unless the client already
    had the requested geometry, which then stays. *)
Theorem monocle_fills_work_area s m mm :
  mons s !! m = Some mm ->
  Z.of_nat (length (clients (cl s))) < 2 ^ 31 ->
  (exists mm', mons (monocle m s) !! m = Some mm'
               /\ ltsymbol mm' = if 0 <? visible_clients s mm
                                 then bracketed (visible_clients s mm)
                                 else ltsymbol mm)
  /\ (arrange_fn (sellayout mm) = Some monocle_fn ->
      NoDup (clients (cl s)) ->
      forall c k,
        c ∈ clients (cl s) -> heap s !! c = Some k -> mon k = m ->
        isfloating k = false -> ISVISIBLE k mm = true ->
        isfullscreen k = false -> beingmoved k = false ->
        monocle_fits s mm k ->
        exists k', heap (monocle m s) !! c = Some k'
                   /\ x k' = wx mm /\ y k' = wy mm
                   /\ ((w k' = ww mm /\ h k' = wh mm)
                       \/ (k' = k /\ monocle_unchanged mm k))).
Proof.
  intros Hm Hlen.
  unfold monocle. rewrite Hm.
  pose proof (count_visible_filter (heap s) (clients (cl s)) mm ltac:(lia)) as Hn.
  pose proof (count_visible_bound (heap s) (clients (cl s)) mm ltac:(lia)) as Hnb.
  fold (visible_clients s mm) in Hn.
  set (n := count_visible _ _ mm) in *.
  set (s1 := if 0 <? n then upd_mon m (set_ltsymbol (snprintf_brackets n)) s else s).
  set (body := fun (c : nat) (s : World) => match heap s !! c with
                                           | Some k => _ | None => s end).
  assert (Hbo : forall c c' t, c <> c' -> heap (body c' t) !! c = heap t !! c).
  { intros a a' t Hne. unfold body. destruct (heap t !! a'); [|reflexivity].
    apply resize_other, Hne. }
  assert (Hbs : forall c t, skeleton (body c t) = skeleton t).
  { intros a t. unfold body. destruct (heap t !! a); [|reflexivity].
    apply skeleton_resize. }
  assert (Hbm' : forall c t, mons (body c t) = mons t).
  { intros a t. unfold body. destruct (heap t !! a); [|reflexivity].
    apply mons_resize. }
  assert (Hs1 : skeleton s1 = skeleton s).
  { subst s1. destruct (0 <? n); [|reflexivity]. apply skeleton_upd_mon. reflexivity. }
  assert (Hh1 : heap s1 = heap s) by (subst s1; destruct (0 <? n); reflexivity).
  assert (Hc1 : cl s1 = cl s) by (subst s1; destruct (0 <? n); reflexivity).
  assert (Hm1 : exists m1, mons s1 !! m = Some m1 /\ nosym m1 = nosym mm
                           /\ ltsymbol m1 = if 0 <? n then snprintf_brackets n
                                            else ltsymbol mm).
  { subst s1. destruct (0 <? n).
    - exists (set_ltsymbol (snprintf_brackets n) mm).
      split; [apply lookup_upd_mon_eq, Hm|]. split; reflexivity.
    - exists mm. auto. }
  destruct Hm1 as (m1 & Hm1 & En1 & El1).
  split.
  - exists m1. split.
    + rewrite (mons_for_nexttiled body _ m s1 Hbm'). exact Hm1.
    + rewrite El1, <- Hn. destruct (0 <? n); [|reflexivity].
      unfold snprintf_brackets, bracketed, string_of_Z.
      rewrite sint_id by (unfold in_int; lia). reflexivity.
  - intros Hmono Hnd c k Hc Hk Hmon Hf Hv Hfs Hbm Hfit.
    assert (Ht : is_tiled s1 c m = true).
    { unfold is_tiled. rewrite Hm1, Hh1, Hk.
      change (ISVISIBLE k m1) with (ISVISIBLE k (nosym m1)). rewrite En1.
      change (ISVISIBLE k (nosym mm)) with (ISVISIBLE k mm).
      rewrite Hf, Hv. reflexivity. }
    rewrite Hc1.
    destruct (for_nexttiled_at body Hbo Hbs (clients (cl s)) m c s1 Hnd Hc Ht)
      as (t' & Hsk & Hh & Hres).
    rewrite Hres. unfold body.
    rewrite Hh1, Hk in Hh. rewrite Hh.
    destruct (skeleton_mons_Some s1 t' m _ (eq_sym Hsk) Hm1) as (mt & Hmt & Hn').
    rewrite En1 in Hn'.
    pose proof (f_equal wx Hn') as Ewx. pose proof (f_equal wy Hn') as Ewy.
    pose proof (f_equal ww Hn') as Eww. pose proof (f_equal wh Hn') as Ewh.
    pose proof (f_equal sellayout Hn') as Elt.
    pose proof (f_equal bh Hsk) as Ebh.
    simpl in Ewx, Ewy, Eww, Ewh, Ebh.
    assert (Hb1 : bh s1 = bh s) by (subst s1; destruct (0 <? n); reflexivity).
    rewrite Hb1 in Ebh.
    change (sellayout (nosym mt)) with (sellayout mt) in Elt.
    change (sellayout (nosym mm)) with (sellayout mm) in Elt.
    subst m.
    destruct (monocle_resize_result t' c k mt Hh Hmt) as (k' & Hk' & Hx & Hy & Hw);
      try assumption.
    + rewrite Elt. exact Hmono.
    + unfold monocle_fits in *. rewrite Ewx, Ewy, Eww, Ewh, Ebh. exact Hfit.
    + unfold monocle_unchanged in Hw.
      exists k'. unfold monocle_unchanged.
      rewrite <- Ewx, <- Ewy, <- Eww, <- Ewh.
      split; [exact Hk'|]. split; [exact Hx|]. split; [exact Hy|exact Hw].
Qed.

Lemma monocle_fills_work_area_witness :
  (exists k', heap (monocle 0%nat monocle_one_client) !! 1%nat = Some k'
              /\ x k' = 0 /\ y k' = 18 /\ w k' = 1920 /\ h k' = 1062)
  /\ (exists mm', mons (monocle 0%nat floating_and_fullscreen_world) !! 0%nat = Some mm'
                  /\ ltsymbol mm' = "[2]"%string).
Proof.
  split.
  - assert (Hnd : NoDup [1%nat]) by apply NoDup_singleton.
    assert (Hfit : monocle_fits monocle_one_client
                     (sample_monitor 0 0 1 layout_monocle)
                     (sample_client 10 1 0%nat)).
    { unfold monocle_fits, in_int. simpl. unfold borderpx. lia. }
    destruct (proj2 (monocle_fills_work_area monocle_one_client 0%nat _
                       eq_refl ltac:(simpl; lia))
                eq_refl Hnd 1%nat _ (list_elem_of_here _ _)
                eq_refl eq_refl eq_refl eq_refl eq_refl eq_refl Hfit)
      as (k' & Hk & Hx & Hy & Hwh).
    exists k'. split; [exact Hk|]. split; [exact Hx|]. split; [exact Hy|].
    destruct Hwh as [[Hw Hh]|[_ Hu]]; [auto|].
    unfold monocle_unchanged in Hu. simpl in Hu. unfold borderpx in Hu. lia.
  - destruct (proj1 (monocle_fills_work_area floating_and_fullscreen_world 0%nat _
                       eq_refl ltac:(simpl; lia)))
      as (mm' & Hmm' & Hl).
    exists mm'. split; [exact Hmm'|]. rewrite Hl. reflexivity.
Defined.

(** ** Viewing a tag set (C10) *)

Lemma ISVISIBLE_tagmon_tagview k k' m m' :
  tagmon k = tagmon k' -> tagview m = tagview m' ->
  ISVISIBLE k m = ISVISIBLE k' m'.
Proof.
  unfold tagmon, tagview, ISVISIBLE, seltagset. intros Hk Hm.
  injection Hk as -> _. injection Hm as -> -> ->. reflexivity.
Qed.

Lemma seltagset_tagview m m' : tagview m = tagview m' -> seltagset m = seltagset m'.
Proof.
  unfold tagview, seltagset. intros Hm. injection Hm as -> -> ->. reflexivity.
Qed.

Lemma tagmon_upd_client c f s :
  (forall k, tagmon (f k) = tagmon k) ->
  tagmon <$> heap (upd_client c f s) = tagmon <$> heap s.
Proof.
  intros Hf. rewrite heap_upd_client.
  rewrite (fmap_alter tagmon f id) by (intros; apply Hf).
  apply alter_id. reflexivity.
Qed.

Lemma tagview_upd_mon m f s :
  (forall mm, tagview (f mm) = tagview mm) ->
  tagview <$> mons (upd_mon m f s) = tagview <$> mons s.
Proof.
  intros Hf. rewrite mons_upd_mon.
  rewrite (list_fmap_alter tagview f id) by (apply Forall_forall; intros; apply Hf).
  apply list_alter_id. reflexivity.
Qed.

Lemma skeleton_tagmon s s' :
  skeleton s = skeleton s' -> tagmon <$> heap s = tagmon <$> heap s'.
Proof.
  intros H. apply map_eq. intros c. rewrite !lookup_fmap.
  pose proof (skeleton_heap s s' c H) as Hc.
  destruct (heap s !! c) as [k|], (heap s' !! c) as [k'|]; try discriminate;
    [|reflexivity].
  simpl in *. assert (E : nongeom k = nongeom k') by congruence.
  f_equal. exact (f_equal tagmon E).
Qed.

Lemma skeleton_tagview s s' :
  skeleton s = skeleton s' -> tagview <$> mons s = tagview <$> mons s'.
Proof.
  intros H. apply list_eq. intros i. rewrite !list_lookup_fmap.
  pose proof (skeleton_mons s s' i H) as Hi.
  destruct (mons s !! i) as [m|], (mons s' !! i) as [m'|]; try discriminate;
    [|reflexivity].
  simpl in *. assert (E : nosym m = nosym m') by congruence.
  f_equal. exact (f_equal tagview E).
Qed.

Lemma tagmon_lookup s s' c k' :
  tagmon <$> heap s' = tagmon <$> heap s -> heap s' !! c = Some k' ->
  exists k, heap s !! c = Some k /\ tagmon k = tagmon k'.
Proof.
  intros H Hk. pose proof (f_equal (fun m => m !! c) H) as Hc. simpl in Hc.
  rewrite !lookup_fmap, Hk in Hc.
  destruct (heap s !! c) as [k|]; [|discriminate].
  exists k. split; [reflexivity|]. simpl in Hc. congruence.
Qed.

Lemma tagview_lookup s s' m mm' :
  tagview <$> mons s' = tagview <$> mons s -> mons s' !! m = Some mm' ->
  exists mm, mons s !! m = Some mm /\ tagview mm = tagview mm'.
Proof.
  intros H Hm. pose proof (f_equal (fun l => l !! m) H) as Hc. simpl in Hc.
  rewrite !list_lookup_fmap, Hm in Hc.
  destruct (mons s !! m) as [mm|]; [|discriminate].
  exists mm. split; [reflexivity|]. simpl in Hc. congruence.
Qed.

(** The invariant only looks at tags, monitors, tag sets and chains. *)
Lemma visible_on_selmon_owned_transport s s' :
  tagmon <$> heap s' = tagmon <$> heap s ->
  tagview <$> mons s' = tagview <$> mons s ->
  selmon s' = selmon s -> cl s' = cl s ->
  visible_on_selmon_owned s -> visible_on_selmon_owned s'.
Proof.
  intros Hh Hm Hs Hc Hinv c k' sm' Hin Hk Hsm Hv.
  rewrite Hc in Hin. rewrite Hs in Hsm |- *.
  destruct (tagmon_lookup s s' c k' Hh Hk) as (k & Hk0 & Ek).
  destruct (tagview_lookup s s' _ sm' Hm Hsm) as (sm & Hsm0 & Esm).
  rewrite <- (ISVISIBLE_tagmon_tagview k k' sm sm' Ek Esm) in Hv.
  rewrite <- (Hinv c k sm Hin Hk0 Hsm0 Hv).
  unfold tagmon in Ek. congruence.
Qed.

Lemma first_visible_Some hp l m c :
  first_visible hp l m = Some c ->
  c ∈ l /\ exists k, hp !! c = Some k /\ ISVISIBLE k m = true.
Proof.
  induction l as [|a l IH]; simpl; [discriminate|].
  destruct (hp !! a) as [k|] eqn:Hk.
  - destruct (ISVISIBLE k m) eqn:Hv.
    + intros [= <-]. split; [apply list_elem_of_here|eauto].
    + intros H. destruct (IH H) as [Hin Hex]. split; [apply list_elem_of_further, Hin|exact Hex].
  - intros H. destruct (IH H) as [Hin Hex]. split; [apply list_elem_of_further, Hin|exact Hex].
Qed.

Lemma detachstack_frame_mons c s :
  tagview <$> mons (detachstack c s) = tagview <$> mons s
  /\ selmon (detachstack c s) = selmon s.
Proof.
  unfold detachstack. cbv zeta.
  destruct (heap _ !! c) as [k|]; [|auto].
  destruct (mons _ !! mon k) as [m|]; [|auto].
  destruct (bool_decide (sel m = Some c)); [|auto].
  split; [|reflexivity]. rewrite tagview_upd_mon by reflexivity. reflexivity.
Qed.

(** [focus(NULL)] keeps the selected monitor and the tag sets when the
    visible clients of the stack belong to the selected monitor. *)
Lemma focus_None_frame s :
  stack_in_clients s -> visible_on_selmon_owned s ->
  selmon (focus None s) = selmon s
  /\ tagview <$> mons (focus None s) = tagview <$> mons s.
Proof.
  intros Hsub Hinv. unfold focus.
  destruct (mons s !! selmon s) as [sm|] eqn:Hsm; [|auto].
  destruct (first_visible (heap s) (stack (cl s)) sm) as [c|] eqn:Hfv.
  - destruct (first_visible_Some _ _ _ _ Hfv) as (Hin & k & Hk & Hv).
    rewrite Hk. rewrite (Hinv c k sm (Hsub c Hin) Hk Hsm Hv).
    rewrite bool_decide_eq_true_2 by reflexivity.
    set (s3 := if isurgent k then _ else s).
    assert (H3 : selmon s3 = selmon s /\ tagview <$> mons s3 = tagview <$> mons s)
      by (subst s3; destruct (isurgent k); auto).
    destruct (detachstack_frame_mons c s3) as [H4 H5].
    split.
    + simpl. rewrite H5. tauto.
    + rewrite tagview_upd_mon by reflexivity.
      change (mons (attachstack c (detachstack c s3))) with (mons (detachstack c s3)).
      rewrite H4. tauto.
  - split; [reflexivity|]. apply tagview_upd_mon. reflexivity.
Qed.

Lemma attachclients_loop_frame l m u s r :
  mons (attachclients_loop l m u s r).1 = mons s
  /\ cl (attachclients_loop l m u s r).1 = cl s
  /\ selmon (attachclients_loop l m u s r).1 = selmon s.
Proof.
  revert s r. induction l as [|a l IH]; intros s r; simpl; [auto|].
  destruct (heap s !! a) as [k|]; [|apply IH].
  destruct (mons s !! m) as [mm|]; [|apply IH].
  destruct (ISVISIBLE k mm); [|apply IH].
  destruct (IH (upd_client a (set_mon m)
                  (if negb (Z.land (tags k) u =? 0)
                   then upd_client a (set_tags (Z.land (tags k) (seltagset mm))) s
                   else s)) (r || negb (Z.land (tags k) u =? 0)))
    as (H1 & H2 & H3).
  rewrite H1, H2, H3. destruct (negb (Z.land (tags k) u =? 0)); auto.
Qed.

(** After the client loop of [attachclients(m)], the clients it went over
    that are visible on [m] belong to [m]. *)
Lemma attachclients_loop_owned l m u mm :
  forall s r (D : list nat),
    mons s !! m = Some mm ->
    (forall c k, c ∈ D -> heap s !! c = Some k -> ISVISIBLE k mm = true -> mon k = m) ->
    forall c k, c ∈ D ++ l ->
      heap (attachclients_loop l m u s r).1 !! c = Some k ->
      ISVISIBLE k mm = true -> mon k = m.
Proof.
  induction l as [|a l IH]; intros s r D Hm Hinv c k Hin; simpl.
  - rewrite app_nil_r in Hin. apply Hinv, Hin.
  - replace (D ++ a :: l) with ((D ++ [a]) ++ l) in Hin
      by (rewrite <- app_assoc; reflexivity).
    rewrite Hm.
    assert (Hskip :
      (forall ka, heap s !! a = Some ka -> ISVISIBLE ka mm = false) ->
      forall c k, c ∈ D ++ [a] -> heap s !! c = Some k ->
                  ISVISIBLE k mm = true -> mon k = m).
    { intros Hnv c0 k0 Hc0 Hk0 Hv0.
      apply elem_of_app in Hc0 as [Hc0|Hc0]; [exact (Hinv c0 k0 Hc0 Hk0 Hv0)|].
      apply list_elem_of_singleton in Hc0. subst c0.
      rewrite (Hnv k0 Hk0) in Hv0. discriminate. }
    destruct (heap s !! a) as [ka|] eqn:Hka.
    + destruct (ISVISIBLE ka mm) eqn:Hva.
      * assert (Hstep : forall s1 k1,
                  heap s1 !! a = Some k1 ->
                  (forall c0, c0 <> a -> heap s1 !! c0 = heap s !! c0) ->
                  forall c0 k0, c0 ∈ D ++ [a] ->
                    heap (upd_client a (set_mon m) s1) !! c0 = Some k0 ->
                    ISVISIBLE k0 mm = true -> mon k0 = m).
        { intros s1 k1 Hk1 Hoth c0 k0 Hc0 Hk0 Hv0.
          destruct (decide (c0 = a)) as [->|Hne].
          - rewrite (lookup_upd_client_eq a _ _ _ Hk1) in Hk0.
            injection Hk0 as <-. reflexivity.
          - rewrite lookup_upd_client_ne, Hoth in Hk0 by congruence.
            apply elem_of_app in Hc0 as [Hc0|Hc0]; [exact (Hinv c0 k0 Hc0 Hk0 Hv0)|].
            apply list_elem_of_singleton in Hc0. contradiction. }
        destruct (negb (Z.land (tags ka) u =? 0)).
        -- refine (IH _ _ (D ++ [a]) _ _ c k Hin); [exact Hm|].
           apply (Hstep _ _ (lookup_upd_client_eq a _ _ _ Hka)).
           intros c0 Hne. apply lookup_upd_client_ne. congruence.
        -- refine (IH _ _ (D ++ [a]) _ _ c k Hin); [exact Hm|].
           apply (Hstep _ _ Hka). reflexivity.
      * refine (IH _ _ (D ++ [a]) _ _ c k Hin); [exact Hm|].
        apply Hskip. intros ka' E. congruence.
    + refine (IH _ _ (D ++ [a]) _ _ c k Hin); [exact Hm|].
      apply Hskip. intros ka' E. congruence.
Qed.

Lemma skeleton_arrange_others m l s :
  skeleton (foldl (fun s tm => if bool_decide (tm = m) then s else arrange (Some tm) s) s l)
  = skeleton s.
Proof.
  revert s. induction l as [|a l IH]; intros s; simpl; [reflexivity|].
  rewrite IH. destruct (bool_decide (a = m)); [reflexivity|apply skeleton_arrange].
Qed.

Lemma attachclients_frame m s :
  tagview <$> mons (attachclients m s) = tagview <$> mons s
  /\ cl (attachclients m s) = cl s
  /\ selmon (attachclients m s) = selmon s.
Proof.
  unfold attachclients.
  destruct (attachclients_loop_frame (clients (cl s)) m (utags_of m (mons s)) s false)
    as (H1 & H2 & H3).
  destruct (attachclients_loop _ m _ s false) as [s1 rmons]. simpl in H1, H2, H3.
  destruct rmons; [|rewrite H1, H2, H3; auto].
  pose proof (skeleton_arrange_others m (seq 0 (length (mons s1))) s1) as Hsk.
  rewrite (skeleton_tagview _ _ Hsk), (skeleton_cl _ _ Hsk), (skeleton_selmon _ _ Hsk).
  rewrite H1, H2, H3. auto.
Qed.

Lemma attachclients_owned m s mm c k :
  mons s !! m = Some mm -> c ∈ clients (cl s) ->
  heap (attachclients m s) !! c = Some k -> ISVISIBLE k mm = true ->
  mon k = m.
Proof.
  intros Hm Hc. unfold attachclients.
  pose proof (attachclients_loop_owned (clients (cl s)) m (utags_of m (mons s)) mm
                s false [] Hm) as Hown.
  destruct (attachclients_loop _ m _ s false) as [s1 rmons]. simpl in Hown.
  assert (H1 : forall k1, heap s1 !! c = Some k1 -> ISVISIBLE k1 mm = true -> mon k1 = m).
  { intros k1. apply Hown; [|exact Hc].
    intros c0 k0 H0. apply elem_of_nil in H0. contradiction. }
  destruct rmons; [|apply H1].
  intros Hk Hv.
  pose proof (skeleton_arrange_others m (seq 0 (length (mons s1))) s1) as Hsk.
  destruct (tagmon_lookup _ _ c k (skeleton_tagmon _ _ Hsk) Hk) as (k1 & Hk1 & E).
  rewrite <- (ISVISIBLE_tagmon_tagview k1 k mm mm E eq_refl) in Hv.
  rewrite <- (H1 k1 Hk1 Hv). unfold tagmon in E. congruence.
Qed.

Lemma view_fs_loop_frame l nt s fs :
  mons (view_fs_loop l nt s fs).1 = mons s
  /\ cl (view_fs_loop l nt s fs).1 = cl s
  /\ selmon (view_fs_loop l nt s fs).1 = selmon s
  /\ tagmon <$> heap (view_fs_loop l nt s fs).1 = tagmon <$> heap s.
Proof.
  revert s fs. induction l as [|a l IH]; intros s fs; simpl; [auto|].
  destruct (heap s !! a) as [k|]; [|apply IH].
  destruct (isfullscreen k && negb (Z.land (tags k) nt =? 0)); [|apply IH].
  destruct (IH (upd_client a (set_isfullscreen false) s)
              (match fs with Some _ => None | None => Some a end)) as (H1 & H2 & H3 & H4).
  rewrite H1, H2, H3, H4. repeat split; try reflexivity.
  apply tagmon_upd_client. reflexivity.
Qed.

Lemma tagframe_refl s : tagframe s s.
Proof. unfold tagframe. auto. Qed.

Lemma tagframe_trans s1 s2 s3 : tagframe s1 s2 -> tagframe s2 s3 -> tagframe s1 s3.
Proof.
  unfold tagframe. intros (A1 & A2 & A3 & A4) (B1 & B2 & B3 & B4).
  rewrite B1, B2, B3, B4. auto.
Qed.

Lemma tagframe_skeleton s s' : skeleton s' = skeleton s -> tagframe s s'.
Proof.
  intros H. unfold tagframe.
  rewrite (skeleton_tagmon _ _ H), (skeleton_tagview _ _ H),
    (skeleton_selmon _ _ H), (skeleton_cl _ _ H). auto.
Qed.

Lemma tagframe_upd_client c f s :
  (forall k, tagmon (f k) = tagmon k) -> tagframe s (upd_client c f s).
Proof.
  intros Hf. unfold tagframe. rewrite (tagmon_upd_client c f s Hf). auto.
Qed.

Lemma tagframe_owned s s' :
  tagframe s s' -> visible_on_selmon_owned s -> visible_on_selmon_owned s'.
Proof.
  intros (H1 & H2 & H3 & H4). apply visible_on_selmon_owned_transport; assumption.
Qed.

Lemma seltagset_set_seltagset v m : seltagset (set_seltagset v m) = v.
Proof. unfold seltagset, set_seltagset. destruct (seltags m) eqn:E; simpl; rewrite E; reflexivity. Qed.

(** After the switch the selected monitor is the same and displays the
    requested tags. *)
Lemma view_switch_result ui nt t sm :
  Z.land ui TAGMASK <> 0 ->
  mons t !! selmon t = Some sm -> stack_in_clients t ->
  exists sm', mons (view_switch ui nt t) !! selmon (view_switch ui nt t) = Some sm'
              /\ seltagset sm' = Z.land ui TAGMASK.
Proof.
  intros Hui Hsm Hsub. unfold view_switch.
  apply Z.eqb_neq in Hui. rewrite Hui.
  set (s1 := upd_mon (selmon t) _ t).
  set (s2 := upd_mon (selmon s1) _ s1).
  set (m2 := set_seltagset (Z.land ui TAGMASK) (set_seltags (negb (seltags sm)) sm)).
  assert (Hm2 : mons s2 !! selmon t = Some m2).
  { pose proof (lookup_upd_mon_eq (selmon t)
                  (fun m => set_seltags (negb (seltags m)) m) t sm Hsm) as E1.
    exact (lookup_upd_mon_eq (selmon t) (set_seltagset (Z.land ui TAGMASK)) s1 _ E1). }
  destruct (view_fs_loop_frame (clients (cl s2)) nt s2 None) as (F1 & F2 & F3 & F4).
  destruct (view_fs_loop (clients (cl s2)) nt s2 None) as [s3 fs].
  simpl in F1, F2, F3, F4.
  assert (Hsel3 : selmon s3 = selmon t) by (rewrite F3; reflexivity).
  assert (Hcl3 : cl s3 = cl t) by (rewrite F2; reflexivity).
  assert (Hm3 : mons s3 !! selmon s3 = Some m2) by (rewrite F1, Hsel3; exact Hm2).
  set (a := attachclients (selmon s3) s3).
  destruct (attachclients_frame (selmon s3) s3) as (A1 & A2 & A3). fold a in A1, A2, A3.
  assert (Hown : visible_on_selmon_owned a).
  { intros c k sma Hc Hk Hsma Hv. rewrite A3.
    rewrite A2 in Hc. rewrite A3 in Hsma.
    destruct (tagview_lookup s3 a _ sma A1 Hsma) as (m3 & Hm3' & E).
    rewrite Hm3 in Hm3'. injection Hm3' as <-.
    rewrite <- (ISVISIBLE_tagmon_tagview k k m2 sma eq_refl E) in Hv.
    exact (attachclients_owned (selmon s3) s3 m2 c k Hm3 Hc Hk Hv). }
  set (s4 := arrange _ a).
  assert (T4 : tagframe a s4) by (apply tagframe_skeleton, skeleton_arrange).
  set (s5 := match fs with Some c => _ | None => s4 end).
  assert (T5 : tagframe s4 s5).
  { subst s5. destruct fs as [c|]; [|apply tagframe_refl].
    set (s' := upd_client c (set_isfullscreen true) s4).
    assert (T' : tagframe s4 s') by (apply tagframe_upd_client; reflexivity).
    destruct (heap s' !! c) as [k|]; [|exact T'].
    destruct (mons s' !! mon k) as [m|]; [|exact T'].
    eapply tagframe_trans; [exact T'|]. apply tagframe_skeleton, skeleton_resizeclient. }
  pose proof (tagframe_trans _ _ _ T4 T5) as T45.
  pose proof (tagframe_owned _ _ T45 Hown) as Hown5.
  destruct T45 as (_ & V2 & V3 & V4).
  assert (Hsub5 : stack_in_clients s5).
  { unfold stack_in_clients. rewrite V4, A2, Hcl3. exact Hsub. }
  destruct (focus_None_frame s5 Hsub5 Hown5) as [G1 G2].
  rewrite G1, V3, A3, Hsel3.
  assert (Htv : tagview <$> mons (focus None s5) = tagview <$> mons s2).
  { rewrite G2, V2, A1, F1. reflexivity. }
  destruct (tagview_lookup (focus None s5) s2 (selmon t) m2 (eq_sym Htv) Hm2)
    as (sm' & Hsm' & E).
  exists sm'. split; [exact Hsm'|].
  rewrite (seltagset_tagview _ _ E). apply seltagset_set_seltagset.
Qed.

Lemma tagview_is_Some s s' j :
  tagview <$> mons s' = tagview <$> mons s ->
  is_Some (mons s !! j) -> is_Some (mons s' !! j).
Proof.
  intros H [mm Hm].
  destruct (tagview_lookup s' s j mm (eq_sym H) Hm) as (mm' & Hm' & _). eauto.
Qed.

(** With the requested tags already displayed, [view] returns at once. *)
Lemma view_fixed ui t sm :
  mons t !! selmon t = Some sm -> seltagset sm = Z.land ui TAGMASK -> ui <> 0 ->
  view ui t = t.
Proof.
  intros Hsm Hts Hui. unfold view. rewrite Hsm, Hts, Z.eqb_refl.
  apply Z.eqb_neq in Hui. rewrite Hui. reflexivity.
Qed.

(** [view] either leaves the state alone or ends with the selected monitor
    displaying the requested tags. *)
Lemma view_cases ui s :
  stack_in_clients s -> Z.land ui TAGMASK <> 0 ->
  view ui s = s
  \/ exists sm', mons (view ui s) !! selmon (view ui s) = Some sm'
                 /\ seltagset sm' = Z.land ui TAGMASK.
Proof.
  intros Hsub Hui. unfold view.
  destruct (mons s !! selmon s) as [sm|] eqn:Hsm; [|left; reflexivity].
  destruct (negb (ui =? 0) && (Z.land ui TAGMASK =? seltagset sm)); [left; reflexivity|].
  set (nt := if Z.land ui TAGMASK =? 0 then othertagset sm else Z.land ui TAGMASK).
  destruct (view_find _ (selmon s) nt) as [[i m]|].
  - destruct (negb (Z.land nt (seltagset sm) =? 0)); [left; reflexivity|].
    right.
    set (s1 := upd_mon i (set_sel (sel sm)) s).
    set (s2 := upd_mon i (fun m => set_seltags (negb (seltags m)) m) s1).
    set (s3 := upd_mon i (set_seltagset (seltagset sm)) s2).
    set (t := arrange (Some i) (attachclients i s3)).
    pose proof (skeleton_arrange (Some i) (attachclients i s3)) as Hsk. fold t in Hsk.
    destruct (attachclients_frame i s3) as (A1 & A2 & A3).
    assert (Hsel : selmon t = selmon s)
      by (rewrite (skeleton_selmon _ _ Hsk), A3; reflexivity).
    assert (Hcl : cl t = cl s)
      by (rewrite (skeleton_cl _ _ Hsk), A2; reflexivity).
    assert (Hex : is_Some (mons t !! selmon t)).
    { rewrite Hsel. apply (tagview_is_Some (attachclients i s3) t);
        [exact (skeleton_tagview _ _ Hsk)|].
      apply (tagview_is_Some s3 _ _ A1).
      subst s3 s2 s1. rewrite !mons_upd_mon. apply lookup_lt_is_Some.
      rewrite !length_alter. apply lookup_lt_is_Some. eauto. }
    destruct Hex as [smt Hsmt].
    apply (view_switch_result ui nt t smt Hui Hsmt).
    unfold stack_in_clients. rewrite Hcl. exact Hsub.
  - right. apply (view_switch_result ui nt s sm Hui Hsm Hsub).
Qed.

(** C10.  [view] with a nonzero tag mask that is the selected monitor's
    displayed tag set returns the state unchanged; and for every mask with
    a tag in it, viewing twice is viewing once. *)
Theorem view_idempotent ui s :
  (forall sm, mons s !! selmon s = Some sm ->
     ui <> 0 -> Z.land ui TAGMASK = ui -> ui = seltagset sm -> view ui s = s)
  /\ (stack_in_clients s -> Z.land ui TAGMASK <> 0 ->
      view ui (view ui s) = view ui s).
Proof.
  split.
  - intros sm Hsm Hui Hmask Heq. apply (view_fixed ui s sm Hsm); congruence.
  - intros Hsub Hui.
    assert (Hnz : ui <> 0) by (intros ->; apply Hui; reflexivity).
    destruct (view_cases ui s Hsub Hui) as [E|(sm' & Hsm' & Hts)].
    + rewrite E. exact E.
    + exact (view_fixed ui (view ui s) sm' Hsm' Hts Hnz).
Qed.

Lemma view_idempotent_witness :
  view 1 two_monitors_two_clients = two_monitors_two_clients
  /\ view 4 (view 4 two_monitors_two_clients) = view 4 two_monitors_two_clients
  /\ view 2 (view 2 two_monitors_two_clients) = view 2 two_monitors_two_clients
  /\ displayed (view 2 two_monitors_two_clients) = [2; 1].
Proof.
  assert (Hsub : stack_in_clients two_monitors_two_clients)
    by (intros c Hc; exact Hc).
  split; [|split; [|split]].
  - apply (proj1 (view_idempotent 1 two_monitors_two_clients) _ eq_refl);
      [discriminate|reflexivity|reflexivity].
  - apply (proj2 (view_idempotent 4 two_monitors_two_clients) Hsub). discriminate.
  - apply (proj2 (view_idempotent 2 two_monitors_two_clients) Hsub). discriminate.
  - vm_compute. reflexivity.
Defined.

(** ** Fullscreen round trip (C5) *)

(** C5 as first stated fails: a tiled client on a tag that is not viewed,
    under the monocle layout, comes back from fullscreen 4 pixels (twice
    its border) wider and higher. *)
Lemma fullscreen_roundtrip_claim_fails_hidden_monocle :
  ~ fullscreen_roundtrip_claim hidden_client_world 1%nat.
Proof.
  intros H. destruct (H _ eq_refl eq_refl) as (k' & Hk & _ & _ & Hw & _).
  vm_compute in Hk. injection Hk as <-. vm_compute in Hw. discriminate.
Qed.

Lemma resizeclient_lookup c nx ny nw nh s k m :
  heap s !! c = Some k -> mons s !! mon k = Some m ->
  exists k',
    heap (resizeclient c nx ny nw nh s) !! c = Some k'
    /\ nongeom k' = nongeom k
    /\ x k' = nx /\ y k' = ny
    /\ oldx k' = x k /\ oldy k' = y k /\ oldw k' = w k /\ oldh k' = h k
    /\ ((beingmoved k = true \/ ~ borderless_case s c k m) -> w k' = nw /\ h k' = nh).
Proof.
  intros Hk Hm. rewrite (resizeclient_unfold c nx ny nw nh s k m Hk Hm). cbv zeta.
  set (k1 := set_h nh _).
  pose proof (noborder_iff s c k k1 m Hk eq_refl eq_refl eq_refl) as Hiff.
  destruct (beingmoved k) eqn:Hb.
  - exists k1. simpl. rewrite lookup_insert_eq. repeat split; reflexivity.
  - destruct (noborder _ c k1 m) eqn:Hno.
    + eexists. split.
      * unfold XConfigureWindow. simpl heap.
        rewrite lookup_alter_eq, lookup_insert_eq. reflexivity.
      * simpl. repeat split; try reflexivity;
          destruct H as [H|H]; try discriminate; exfalso; apply H, Hiff; reflexivity.
    + exists k1. unfold XConfigureWindow. simpl. rewrite lookup_insert_eq.
      repeat split; reflexivity.
Qed.

(** A client that is not visible on its own monitor. *)
Lemma showhide_hidden l s c k m :
  heap s !! c = Some k -> mons s !! mon k = Some m -> ISVISIBLE k m = false ->
  heap (showhide l s) !! c = Some k /\ mons (showhide l s) = mons s.
Proof.
  revert s. induction l as [|a l IH]; intros s Hk Hm Hv; simpl; [auto|].
  destruct (heap s !! a) as [ka|] eqn:Hka; [|apply IH; assumption].
  destruct (mons s !! mon ka) as [ma|] eqn:Hma; [|apply IH; assumption].
  destruct (ISVISIBLE ka ma) eqn:Hva; [|apply IH; assumption].
  assert (Hne : c <> a) by (intros ->; congruence).
  set (s1 := if _ && isfloating ka then _ else s).
  assert (H1 : heap s1 !! c = Some k /\ mons s1 = mons s).
  { subst s1. destruct (_ && isfloating ka); [|auto].
    split; [|reflexivity]. rewrite lookup_upd_client_ne by congruence. exact Hk. }
  set (s2 := if _ && negb (isfullscreen ka) then _ else s1).
  assert (H2 : heap s2 !! c = Some k /\ mons s2 = mons s).
  { subst s2. destruct (_ && negb (isfullscreen ka)); [|exact H1].
    destruct (heap s1 !! a); [|exact H1].
    rewrite resize_other, mons_resize by exact Hne. exact H1. }
  destruct H2 as [H2 H3].
  destruct (IH s2 H2) as [H4 H5]; [rewrite H3; exact Hm|exact Hv|].
  rewrite H4, H5. auto.
Qed.

Lemma for_nexttiled_untiled body l m c t :
  (forall c c' t, c <> c' -> heap (body c' t) !! c = heap t !! c) ->
  (forall c t, skeleton (body c t) = skeleton t) ->
  is_tiled t c m = false ->
  heap (for_nexttiled l m body t) !! c = heap t !! c.
Proof.
  intros Hbo Hbs. revert t. induction l as [|a l IH]; intros t Ht; simpl; [reflexivity|].
  destruct (is_tiled t a m) eqn:Hta; [|apply IH, Ht].
  assert (Hne : c <> a) by (intros ->; congruence).
  rewrite IH by (rewrite (is_tiled_skeleton _ t c m (Hbs a t)); exact Ht).
  apply Hbo, Hne.
Qed.

Lemma resize_all_other l c s :
  c ∉ l.*1 -> heap (resize_all l s) !! c = heap s !! c.
Proof.
  revert s. induction l as [|[a [[[rx ry] rw] rh]] l IH]; intros s Hc; simpl;
    [reflexivity|].
  simpl in Hc. apply not_elem_of_cons in Hc as [Hne Hc].
  rewrite IH by exact Hc. apply resize_other, Hne.
Qed.

(** The layout of monitor [m] leaves a client that is not tiled on [m]. *)
Lemma arrangemon_untiled m s c :
  is_tiled s c m = false -> heap (arrangemon m s) !! c = heap s !! c.
Proof.
  intros Ht. unfold arrangemon.
  destruct (mons s !! m) as [mm|] eqn:Hm; [|reflexivity].
  set (s1 := upd_mon m _ s).
  assert (Hs1 : skeleton s1 = skeleton s) by (apply skeleton_upd_mon; reflexivity).
  assert (Ht1 : is_tiled s1 c m = false)
    by (rewrite (is_tiled_skeleton _ _ c m Hs1); exact Ht).
  destruct (arrange_fn (sellayout mm)) as [[|f]|]; [| |reflexivity].
  - unfold monocle. destruct (mons s1 !! m) as [mm1|]; [|reflexivity].
    set (s2 := if 0 <? _ then _ else s1).
    assert (Hs2 : skeleton s2 = skeleton s1)
      by (subst s2; destruct (0 <? _); [apply skeleton_upd_mon|]; reflexivity).
    rewrite for_nexttiled_untiled.
    + subst s2. destruct (0 <? _); reflexivity.
    + intros a a' t Hne. destruct (heap t !! a'); [|reflexivity].
      apply resize_other, Hne.
    + intros a t. destruct (heap t !! a); [|reflexivity]. apply skeleton_resize.
    + rewrite (is_tiled_skeleton _ _ c m Hs2). exact Ht1.
  - unfold tiling. destruct (mons s1 !! m) as [mm1|]; [|reflexivity].
    destruct (f _ _) as [sym rects].
    rewrite resize_all_other.
    + destruct sym; reflexivity.
    + intros Hin. apply list_elem_of_fmap in Hin as ([a r] & -> & Hin).
      apply elem_of_zip_l in Hin. unfold tiled_clients in Hin.
      apply list_elem_of_filter in Hin as [Hin _]. simpl in Hin, Ht1. congruence.
Qed.

(** [arrange(c->mon)] leaves a client that is not visible on its monitor. *)
Lemma arrange_hidden s c k m :
  heap s !! c = Some k -> mons s !! mon k = Some m -> ISVISIBLE k m = false ->
  heap (arrange (Some (mon k)) s) !! c = Some k.
Proof.
  intros Hk Hm Hv. unfold arrange.
  destruct (showhide_hidden (stack (cl s)) s c k m Hk Hm Hv) as [H1 H2].
  rewrite arrangemon_untiled; [exact H1|].
  unfold is_tiled. rewrite H1, H2, Hm, Hv. simpl. rewrite orb_true_r. reflexivity.
Qed.

Lemma applysizehints_env s s' k m nx ny nw nh i :
  bh s = bh s' -> sw s = sw s' -> sh s = sh s' ->
  applysizehints s k m nx ny nw nh i = applysizehints s' k m nx ny nw nh i.
Proof. unfold applysizehints. intros -> -> ->. reflexivity. Qed.

(** [applysizehints] reads from the client its geometry, border, hints and
    two flags. *)
Lemma applysizehints_client s k k' m nx ny nw nh i :
  x k = x k' -> y k = y k' -> w k = w k' -> h k = h k' -> bw k = bw k' ->
  basew k = basew k' -> baseh k = baseh k' -> incw k = incw k' -> inch k = inch k' ->
  maxw k = maxw k' -> maxh k = maxh k' -> minw k = minw k' -> minh k = minh k' ->
  mina k = mina k' -> maxa k = maxa k' ->
  isfloating k = isfloating k' -> ignoresizehints k = ignoresizehints k' ->
  applysizehints s k m nx ny nw nh i = applysizehints s k' m nx ny nw nh i.
Proof.
  unfold applysizehints, aspect_limits, WIDTH, HEIGHT.
  intros -> -> -> -> -> -> -> -> -> -> -> -> -> -> -> -> ->. reflexivity.
Qed.

Lemma env_resize c nx ny nw nh i s :
  bh (resize c nx ny nw nh i s) = bh s /\ sw (resize c nx ny nw nh i s) = sw s
  /\ sh (resize c nx ny nw nh i s) = sh s.
Proof.
  pose proof (skeleton_resize c nx ny nw nh i s) as H.
  exact (conj (f_equal bh H) (conj (f_equal sw H) (f_equal sh H))).
Qed.

(** [showhide] leaves a floating client at rest where it is. *)
Lemma showhide_at_rest l s c k m :
  heap s !! c = Some k -> mons s !! mon k = Some m -> floating_at_rest s k m ->
  heap (showhide l s) !! c = Some k.
Proof.
  revert s. induction l as [|a l IH]; intros s Hk Hm Hrest; simpl; [exact Hk|].
  destruct Hrest as (Hf & Hsp & Hst).
  destruct (decide (a = c)) as [->|Hne].
  - rewrite Hk, Hm.
    destruct (ISVISIBLE k m); [|apply IH; unfold floating_at_rest; auto].
    rewrite Hsp. simpl. rewrite Hf, orb_true_r. simpl.
    destruct (negb (isfullscreen k)).
    + rewrite Hk. unfold resize. rewrite Hk, Hm.
      destruct (applysizehints s k m (x k) (y k) (w k) (h k) false)
        as [[[[ax ay] aw] ah] ch] eqn:E.
      simpl in Hst. subst ch. apply IH; [exact Hk|exact Hm|].
      unfold floating_at_rest. rewrite E. auto.
    + apply IH; unfold floating_at_rest; auto.
  - destruct (heap s !! a) as [ka|] eqn:Hka;
      [|apply IH; unfold floating_at_rest; auto].
    destruct (mons s !! mon ka) as [ma|] eqn:Hma;
      [|apply IH; unfold floating_at_rest; auto].
    destruct (ISVISIBLE ka ma); [|apply IH; unfold floating_at_rest; auto].
    set (s1 := if _ && isfloating ka then _ else s).
    assert (H1 : heap s1 !! c = Some k /\ mons s1 = mons s /\ bh s1 = bh s
                 /\ sw s1 = sw s /\ sh s1 = sh s).
    { subst s1. destruct (_ && isfloating ka); [|auto].
      rewrite lookup_upd_client_ne by exact Hne. auto. }
    set (s2 := if _ && negb (isfullscreen ka) then _ else s1).
    assert (H2 : heap s2 !! c = Some k /\ mons s2 = mons s /\ bh s2 = bh s
                 /\ sw s2 = sw s /\ sh s2 = sh s).
    { subst s2. destruct (_ && negb (isfullscreen ka)); [|exact H1].
      destruct (heap s1 !! a); [|exact H1].
      destruct (env_resize a (x c0) (y c0) (w c0) (h c0) false s1) as (E1 & E2 & E3).
      rewrite resize_other, mons_resize, E1, E2, E3 by congruence. exact H1. }
    destruct H2 as (G1 & G2 & G3 & G4 & G5).
    apply IH; [exact G1|rewrite G2; exact Hm|].
    unfold floating_at_rest.
    rewrite (applysizehints_env s2 s k m _ _ _ _ false G3 G4 G5). auto.
Qed.

(** [arrange(c->mon)] leaves a floating client at rest where it is. *)
Lemma arrange_at_rest s c k m :
  heap s !! c = Some k -> mons s !! mon k = Some m -> floating_at_rest s k m ->
  heap (arrange (Some (mon k)) s) !! c = Some k.
Proof.
  intros Hk Hm Hrest. unfold arrange.
  pose proof (showhide_at_rest (stack (cl s)) s c k m Hk Hm Hrest) as H1.
  rewrite arrangemon_untiled; [exact H1|].
  rewrite (is_tiled_skeleton _ s c (mon k) (skeleton_showhide _ s)).
  unfold is_tiled. rewrite Hk, Hm. destruct Hrest as (-> & _). reflexivity.
Qed.

(** The first half of the round trip: the snapshot taken by
    [setfullscreen(c, 1)]. *)
Lemma setfullscreen_on s c k m :
  heap s !! c = Some k -> mons s !! mon k = Some m -> isfullscreen k = false ->
  exists ka,
    heap (setfullscreen c true s) !! c = Some ka
    /\ mons (setfullscreen c true s) = mons s
    /\ skeleton (setfullscreen c true s)
       = skeleton (upd_client c
           (fun k => set_isfloating true (set_bw 0 (set_oldbw (bw k)
              (set_oldstate (isfloating k) (set_isfullscreen true k))))) s)
    /\ nongeom ka
       = nongeom (set_isfloating true (set_bw 0 (set_oldbw (bw k)
           (set_oldstate (isfloating k) (set_isfullscreen true k)))))
    /\ oldx ka = x k /\ oldy ka = y k /\ oldw ka = w k /\ oldh ka = h k.
Proof.
  intros Hk Hm Hfs. unfold setfullscreen. rewrite Hk, Hm, Hfs. simpl.
  set (F := fun k : Client => set_isfloating true _).
  set (s0 := upd_client c F s).
  assert (Hk0 : heap s0 !! c = Some (F k)) by (apply lookup_upd_client_eq, Hk).
  destruct (resizeclient_lookup c (mx m) (my m) (mw m) (mh m) s0 (F k) m Hk0 Hm)
    as (ka & Hka & Hna & _ & _ & Hox & Hoy & How & Hoh & _).
  exists ka. rewrite mons_resizeclient, skeleton_resizeclient.
  repeat split; assumption || reflexivity.
Qed.

(** C5, amended: the round trip restores bw and isfloating (and leaves the
    client not fullscreen); x, y, w and h are restored from the snapshot
    and then go through the [resizeclient] and [arrange] that end
    [setfullscreen(c, 0)].  They are exactly the old ones for a client that
    is hidden and keeps its border, and for a floating client whose geometry
    already satisfied its size hints. *)
Theorem setfullscreen_roundtrip s c k m :
  heap s !! c = Some k -> mons s !! mon k = Some m -> isfullscreen k = false ->
  exists k',
    heap (setfullscreen c false (setfullscreen c true s)) !! c = Some k'
    /\ bw k' = bw k /\ isfloating k' = isfloating k /\ isfullscreen k' = false
    /\ (hidden_with_border k m \/ floating_at_rest s k m ->
        x k' = x k /\ y k' = y k /\ w k' = w k /\ h k' = h k).
Proof.
  intros Hk Hm Hfs.
  destruct (setfullscreen_on s c k m Hk Hm Hfs)
    as (ka & Hka & Hmons1 & Hsk1 & Hna & Hox & Hoy & How & Hoh).
  set (s1 := setfullscreen c true s) in *.
  assert (Ema : mon ka = mon k) by exact (f_equal mon Hna).
  assert (Efa : isfullscreen ka = true) by exact (f_equal isfullscreen Hna).
  assert (Hm1 : mons s1 !! mon ka = Some m) by (rewrite Hmons1, Ema; exact Hm).
  unfold setfullscreen at 1. rewrite Hka, Hm1, Efa. cbn [negb andb]. cbv zeta.
  set (G := fun k : Client => set_h (oldh k) _).
  set (sr := upd_client c G s1).
  assert (Hkr : heap sr !! c = Some (G ka)) by (apply lookup_upd_client_eq, Hka).
  rewrite Hkr.
  assert (Hmr : mons sr !! mon (G ka) = Some m) by exact Hm1.
  destruct (resizeclient_lookup c (x (G ka)) (y (G ka)) (w (G ka)) (h (G ka))
              sr (G ka) m Hkr Hmr)
    as (kb & Hkb & Hnb & Hxb & Hyb & _ & _ & _ & _ & Hwhb).
  set (st := resizeclient c _ _ _ _ sr) in *.
  pose proof (skeleton_arrange (Some (mon ka)) st) as Hska.
  destruct (skeleton_heap_Some st _ c kb (eq_sym Hska) Hkb) as (k' & Hk' & Hn').
  (* the fields of [kb] *)
  assert (Ebw : bw kb = bw k).
  { pose proof (f_equal bw Hnb) as E1. pose proof (f_equal oldbw Hna) as E2.
    simpl in E1, E2. congruence. }
  assert (Efl : isfloating kb = isfloating k).
  { pose proof (f_equal isfloating Hnb) as E1. pose proof (f_equal oldstate Hna) as E2.
    simpl in E1, E2. congruence. }
  assert (Efs : isfullscreen kb = false) by exact (f_equal isfullscreen Hnb).
  assert (Etg : tags kb = tags k).
  { pose proof (f_equal tags Hnb) as E1. pose proof (f_equal tags Hna) as E2.
    simpl in E1, E2. congruence. }
  assert (Emb : mon kb = mon k).
  { pose proof (f_equal mon Hnb) as E1. simpl in E1. congruence. }
  assert (Ebm : beingmoved ka = beingmoved k) by exact (f_equal beingmoved Hna).
  assert (Ex : x kb = x k) by (simpl in Hxb; congruence).
  assert (Ey : y kb = y k) by (simpl in Hyb; congruence).
  assert (Hmt : mons st !! mon kb = Some m).
  { subst st. rewrite mons_resizeclient, Emb. change (mons sr) with (mons s1).
    rewrite Hmons1. exact Hm. }
  exists k'. split; [exact Hk'|].
  split; [rewrite <- Ebw; exact (f_equal bw Hn')|].
  split; [rewrite <- Efl; exact (f_equal isfloating Hn')|].
  split; [rewrite <- Efs; exact (f_equal isfullscreen Hn')|].
  intros Hcase.
  (* the border is kept *)
  assert (Hwh : w kb = w k /\ h kb = h k).
  { simpl in Hwhb. rewrite How, Hoh in Hwhb. apply Hwhb.
    destruct Hcase as [[Hv Hb]|(Hf & _)].
    - destruct Hb as [Hb|[Hb|Hb]].
      + left. change (beingmoved ka = true). congruence.
      + right. intros (_ & Hfl & _). simpl in Hfl.
        pose proof (f_equal oldstate Hna) as E2. simpl in E2. congruence.
      + right. intros (_ & _ & _ & [Hot|Hmo]); [|contradiction].
        unfold only_tiled in Hot.
        assert (Hin : c ∈ filter (fun a => tiledb (heap sr) m a = true) (clients (cl sr)))
          by (rewrite Hot; apply list_elem_of_here).
        apply list_elem_of_filter in Hin as [Hin _].
        unfold tiledb in Hin. rewrite Hkr in Hin.
        assert (Evis : ISVISIBLE (G ka) m = ISVISIBLE k m).
        { unfold ISVISIBLE. pose proof (f_equal tags Hna) as E2. simpl in E2 |- *.
          rewrite E2. reflexivity. }
        rewrite Evis, Hv, orb_true_r in Hin. discriminate.
    - right. intros (_ & Hfl & _). simpl in Hfl.
      pose proof (f_equal oldstate Hna) as E2. simpl in E2. congruence. }
  destruct Hwh as [Ew Eh].
  (* [arrange] leaves the client alone *)
  assert (Hfinal : heap (arrange (Some (mon ka)) st) !! c = Some kb).
  { rewrite Ema, <- Emb. destruct Hcase as [[Hv _]|(Hf & Hsp & Hst)].
    - apply (arrange_hidden st c kb m Hkb Hmt).
      unfold ISVISIBLE in *. rewrite Etg. exact Hv.
    - apply (arrange_at_rest st c kb m Hkb Hmt).
      unfold floating_at_rest. rewrite Efl, Etg, Ex, Ey, Ew, Eh.
      split; [exact Hf|]. split; [exact Hsp|].
      assert (Henv : bh st = bh s /\ sw st = sw s /\ sh st = sh s).
      { pose proof (skeleton_resizeclient c (x (G ka)) (y (G ka)) (w (G ka))
                      (h (G ka)) sr) as Q1. fold st in Q1.
        pose proof (f_equal bh Q1) as B1. pose proof (f_equal sw Q1) as B2.
        pose proof (f_equal sh Q1) as B3.
        pose proof (f_equal bh Hsk1) as C1. pose proof (f_equal sw Hsk1) as C2.
        pose proof (f_equal sh Hsk1) as C3.
        simpl in B1, B2, B3, C1, C2, C3. fold s1 in C1, C2, C3.
        rewrite B1, B2, B3, C1, C2, C3. auto. }
      destruct Henv as (B1 & B2 & B3).
      rewrite (applysizehints_env st s kb m _ _ _ _ false B1 B2 B3).
      rewrite (applysizehints_client s kb k m (x k) (y k) (w k) (h k) false);
        try assumption;
        match goal with
        | |- ?f kb = ?f k =>
            let E1 := fresh in let E2 := fresh in
            pose proof (f_equal f Hnb) as E1; pose proof (f_equal f Hna) as E2;
            simpl in E1, E2; congruence
        end. }
  rewrite Hfinal in Hk'. injection Hk' as <-. auto.
Qed.

Lemma setfullscreen_roundtrip_witness :
  (exists k', heap (setfullscreen 1%nat false (setfullscreen 1%nat true
                      hidden_floating_world)) !! 1%nat = Some k'
              /\ x k' = 0 /\ y k' = 18 /\ w k' = 640 /\ h k' = 480
              /\ bw k' = 2 /\ isfloating k' = true)
  /\ (exists k', heap (setfullscreen 1%nat false (setfullscreen 1%nat true
                         visible_floating_world)) !! 1%nat = Some k'
                 /\ x k' = 0 /\ y k' = 18 /\ w k' = 640 /\ h k' = 480
                 /\ bw k' = 2 /\ isfloating k' = true).
Proof.
  split.
  - destruct (setfullscreen_roundtrip hidden_floating_world 1%nat _ _
                eq_refl eq_refl eq_refl) as (k' & Hk & H1 & H2 & _ & Hg).
    destruct Hg as (Hx & Hy & Hw & Hh).
    { left. split; [reflexivity|]. right. left. reflexivity. }
    exists k'. repeat split; assumption.
  - destruct (setfullscreen_roundtrip visible_floating_world 1%nat _ _
                eq_refl eq_refl eq_refl) as (k' & Hk & H1 & H2 & _ & Hg).
    destruct Hg as (Hx & Hy & Hw & Hh).
    { right. split; [reflexivity|]. split; [reflexivity|]. vm_compute. reflexivity. }
    exists k'. repeat split; assumption.
Defined.

(** ** Master area factor across operations (C8) *)

Lemma mfacts_skeleton s s' : skeleton s' = skeleton s -> mfacts s' = mfacts s.
Proof.
  intros H. unfold mfacts. apply list_eq. intros i. rewrite !list_lookup_fmap.
  pose proof (skeleton_mons s' s i H) as Hi.
  destruct (mons s' !! i) as [m'|], (mons s !! i) as [m|]; try discriminate;
    [|reflexivity].
  simpl in *. assert (E : nosym m' = nosym m) by congruence.
  f_equal. exact (f_equal mfact E).
Qed.

Lemma mfacts_upd_mon m f s :
  (forall mm, mfact (f mm) = mfact mm) -> mfacts (upd_mon m f s) = mfacts s.
Proof.
  intros Hf. unfold mfacts. rewrite mons_upd_mon.
  rewrite (list_fmap_alter mfact f id) by (apply Forall_forall; intros; apply Hf).
  apply list_alter_id. reflexivity.
Qed.

Lemma mfacts_set_seltagset m v s : mfacts (upd_mon m (set_seltagset v) s) = mfacts s.
Proof.
  apply mfacts_upd_mon. intros mm. unfold set_seltagset.
  destruct (seltags mm); reflexivity.
Qed.

Lemma mfacts_detachstack c s : mfacts (detachstack c s) = mfacts s.
Proof.
  unfold detachstack. cbv zeta.
  destruct (heap _ !! c) as [k|]; [|reflexivity].
  destruct (mons _ !! mon k) as [m|]; [|reflexivity].
  destruct (bool_decide (sel m = Some c)); [|reflexivity].
  rewrite mfacts_upd_mon by reflexivity. reflexivity.
Qed.

Lemma mfacts_focus c s : mfacts (focus c s) = mfacts s.
Proof.
  unfold focus.
  set (s1 := match c with Some c' => _ | None => s end).
  assert (H1 : mfacts s1 = mfacts s).
  { subst s1. destruct c as [c'|]; [|reflexivity].
    destruct (heap s !! c'); [|reflexivity].
    destruct (bool_decide _); reflexivity. }
  destruct (mons s1 !! selmon s1) as [sm|]; [|exact H1].
  set (c1 := match c with Some c' => _ | None => _ end). clearbody c1.
  destruct c1 as [c'|].
  - destruct (heap s1 !! c') as [k|].
    + set (s2 := if bool_decide _ then s1 else _).
      assert (H2 : mfacts s2 = mfacts s1) by (subst s2; destruct (bool_decide _); reflexivity).
      set (s3 := if isurgent k then _ else s2).
      assert (H3 : mfacts s3 = mfacts s2) by (subst s3; destruct (isurgent k); reflexivity).
      rewrite mfacts_upd_mon by reflexivity.
      change (mfacts (attachstack c' (detachstack c' s3)))
        with (mfacts (detachstack c' s3)).
      rewrite mfacts_detachstack, H3, H2. exact H1.
    + rewrite mfacts_upd_mon by reflexivity. exact H1.
  - rewrite mfacts_upd_mon by reflexivity. exact H1.
Qed.

Lemma mfacts_attachclients m s : mfacts (attachclients m s) = mfacts s.
Proof.
  unfold attachclients.
  destruct (attachclients_loop_frame (clients (cl s)) m (utags_of m (mons s)) s false)
    as (H1 & _).
  destruct (attachclients_loop _ m _ s false) as [s1 rmons]. simpl in H1.
  assert (E : mfacts s1 = mfacts s) by (unfold mfacts; rewrite H1; reflexivity).
  destruct rmons; [|exact E].
  rewrite (mfacts_skeleton _ _ (skeleton_arrange_others m _ s1)). exact E.
Qed.

Lemma mfacts_arrange m s : mfacts (arrange m s) = mfacts s.
Proof. apply mfacts_skeleton, skeleton_arrange. Qed.

Lemma mfacts_resizeclient c nx ny nw nh s :
  mfacts (resizeclient c nx ny nw nh s) = mfacts s.
Proof. apply mfacts_skeleton, skeleton_resizeclient. Qed.

Lemma mfacts_view_switch ui nt s : mfacts (view_switch ui nt s) = mfacts s.
Proof.
  unfold view_switch.
  set (s1 := upd_mon (selmon s) _ s).
  assert (H1 : mfacts s1 = mfacts s) by (apply mfacts_upd_mon; reflexivity).
  set (s2 := if Z.land ui TAGMASK =? 0 then s1 else _).
  assert (H2 : mfacts s2 = mfacts s1)
    by (subst s2; destruct (_ =? 0); [reflexivity|apply mfacts_set_seltagset]).
  destruct (view_fs_loop_frame (clients (cl s2)) nt s2 None) as (F1 & _).
  destruct (view_fs_loop (clients (cl s2)) nt s2 None) as [s3 fs]. simpl in F1.
  rewrite mfacts_focus.
  set (s4 := arrange _ _).
  assert (H4 : mfacts s4 = mfacts s).
  { subst s4. rewrite mfacts_arrange, mfacts_attachclients.
    unfold mfacts at 1. rewrite F1. fold (mfacts s2). rewrite H2. exact H1. }
  destruct fs as [c|]; [|exact H4].
  set (s' := upd_client c _ s4).
  destruct (heap s' !! c) as [k|]; [|exact H4].
  destruct (mons s' !! mon k) as [m|]; [|exact H4].
  rewrite mfacts_resizeclient. exact H4.
Qed.

Lemma mfacts_view ui s : mfacts (view ui s) = mfacts s.
Proof.
  unfold view. destruct (mons s !! selmon s) as [sm|]; [|reflexivity].
  destruct (_ && _); [reflexivity|].
  destruct (view_find _ _ _) as [[i m]|]; [|apply mfacts_view_switch].
  destruct (negb _); [reflexivity|].
  rewrite mfacts_view_switch, mfacts_arrange, mfacts_attachclients,
    mfacts_set_seltagset, !mfacts_upd_mon by reflexivity.
  reflexivity.
Qed.

Lemma mfacts_toggleview_loop l ui nt s :
  mfacts (toggleview_loop l ui nt s) = mfacts s.
Proof.
  revert s. induction l as [|m l IH]; intros s; simpl; [reflexivity|].
  destruct (mons s !! m) as [mm|]; [|apply IH].
  destruct (_ && _); [|apply IH].
  rewrite IH, mfacts_arrange, mfacts_attachclients, mfacts_upd_mon by reflexivity.
  destruct (_ =? 0); rewrite !mfacts_set_seltagset; reflexivity.
Qed.

Lemma mfacts_toggleview ui s : mfacts (toggleview ui s) = mfacts s.
Proof.
  unfold toggleview. destruct (mons s !! selmon s) as [sm|]; [|reflexivity].
  cbv zeta.
  rewrite mfacts_focus, mfacts_arrange, mfacts_attachclients, mfacts_set_seltagset.
  apply mfacts_toggleview_loop.
Qed.

Lemma mfacts_setfullscreen c b s : mfacts (setfullscreen c b s) = mfacts s.
Proof.
  unfold setfullscreen. destruct (heap s !! c) as [k|]; [|reflexivity].
  destruct (mons s !! mon k) as [m|]; [|reflexivity].
  destruct (b && negb (isfullscreen k)); [rewrite mfacts_resizeclient; reflexivity|].
  destruct (negb b && isfullscreen k); [|reflexivity].
  rewrite mfacts_arrange.
  destruct (heap _ !! c); [rewrite mfacts_resizeclient|]; reflexivity.
Qed.

Lemma mfacts_updateclientlist s : mfacts (updateclientlist s) = mfacts s.
Proof.
  destruct (updateclientlist_spec s) as (_ & _ & _ & _ & H).
  unfold mfacts. rewrite H. reflexivity.
Qed.

Lemma mfacts_swallow b p c s : mfacts (swallow b p c s) = mfacts s.
Proof.
  unfold swallow. destruct (heap s !! p) as [kp|]; [|reflexivity].
  destruct (heap s !! c) as [kc|]; [|reflexivity].
  destruct (_ || _); [reflexivity|]. destruct (_ && _); [reflexivity|].
  rewrite mfacts_updateclientlist, mfacts_arrange.
  apply (mfacts_detachstack c (detach c s)).
Qed.

Lemma mfacts_setfloatpos c fp junk s : mfacts (setfloatpos c fp junk s) = mfacts s.
Proof.
  assert (Happ : forall c a b d e f g i j t,
            mfacts (setfloatpos_apply c a b d e f g i j t) = mfacts t).
  { intros. unfold setfloatpos_apply.
    destruct (heap t !! c0) as [k|]; [|reflexivity].
    destruct (mons t !! mon k) as [m|]; [|reflexivity].
    destruct (getfloatpos a _ _ _ _ _ _ _ _ _), (getfloatpos d _ _ _ _ _ _ _ _ _).
    reflexivity. }
  unfold setfloatpos. destruct c as [c|]; [|reflexivity].
  destruct fp as [fp|]; [|reflexivity].
  destruct (heap s !! c) as [k|]; [|reflexivity].
  destruct (mons s !! selmon s) as [sm|]; [|reflexivity].
  destruct (_ && _); [reflexivity|].
  destruct junk as [[[jw jwCh] jh] jhCh]. destruct (pointer (xserver s)) as [ptx pty].
  pose proof (scan_floatpos_shape fp) as Hs.
  destruct (scan floatpos_format fp) as [l e]. simpl in Hs |- *.
  destruct Hs; try reflexivity;
    repeat match goal with
           | |- context [if ?b then _ else _] => destruct b
           end; apply Happ.
Qed.

(** Every operation but [setmfact] leaves the factors alone. *)
Lemma mfacts_run o s :
  (forall arg, o <> op_setmfact arg) -> mfacts (run o s) = mfacts s.
Proof.
  intros Hne. destruct o; simpl.
  - apply mfacts_view.
  - apply mfacts_toggleview.
  - exfalso. exact (Hne arg eq_refl).
  - apply mfacts_setfullscreen.
  - apply mfacts_swallow.
  - apply mfacts_setfloatpos.
  - apply mfacts_focus.
  - apply mfacts_arrange.
  - apply mfacts_resizeclient.
  - apply mfacts_updateclientlist.
Qed.

Lemma mfact_inv_mfacts s s' : mfacts s' = mfacts s -> mfact_inv s -> mfact_inv s'.
Proof.
  unfold mfact_inv, mfacts. intros H Hinv.
  rewrite Forall_lookup in Hinv |- *. intros i m' Hi.
  pose proof (f_equal (fun l => l !! i) H) as E. simpl in E.
  rewrite !list_lookup_fmap, Hi in E.
  destruct (mons s !! i) as [m|] eqn:Hm; [|discriminate].
  simpl in E. injection E as ->. exact (Hinv i m Hm).
Qed.

Lemma mfact_inv_run o s : numeric_arg o -> mfact_inv s -> mfact_inv (run o s).
Proof.
  intros Hnum Hinv.
  destruct o; try (apply (mfact_inv_mfacts s); [apply mfacts_run; discriminate|exact Hinv]).
  simpl. destruct arg as [argf|]; [|exact Hinv].
  destruct (mons s !! selmon s) as [sm|] eqn:Hsm.
  - exact (proj2 (setmfact_in_range s argf sm Hsm Hnum Hinv)).
  - unfold setmfact. rewrite Hsm. exact Hinv.
Qed.

(** C8.  For an argument that is a number: when the computed factor lies
    outside [0.05, 0.95], [setmfact] changes nothing; and if every
    monitor's [mfact] is within [0.05, 0.95], it stays so across every
    sequence of operations. *)
Theorem mfact_stays_in_range :
  (forall s argf sm,
     mons s !! selmon s = Some sm -> is_nan argf = false -> mfact_inv s ->
     ~ mfact_in_range (setmfact_value argf (mfact sm)) ->
     setmfact (Some argf) s = s)
  /\ (forall ops s,
        Forall numeric_arg ops -> mfact_inv s -> mfact_inv (run_all ops s)).
Proof.
  split.
  - intros s argf sm Hsm Ha Hinv Hout.
    exact (proj1 (setmfact_in_range s argf sm Hsm Ha Hinv) Hout).
  - intros ops. unfold run_all.
    induction ops as [|o ops IH]; intros s Hnum Hinv; simpl; [exact Hinv|].
    apply Forall_cons in Hnum as [Ho Hnum].
    apply IH; [exact Hnum|]. apply mfact_inv_run; assumption.
Qed.

(** The configured factor 0.55: an absolute request for 2.0 is refused, and
    the steps [+0.05], view tag 2, [-0.05] keep the factor in range. *)
Lemma mfact_stays_in_range_witness :
  setmfact (Some (float_of_int 3)) monocle_one_client = monocle_one_client
  /\ mfact_inv (run_all [op_setmfact (Some arg_plus_0_05); op_view 2;
                         op_setmfact (Some arg_minus_0_05)] monocle_one_client).
Proof.
  assert (H0 : mfact_inv monocle_one_client).
  { unfold mfact_inv, monocle_one_client. simpl. constructor; [|constructor].
    split; vm_compute; reflexivity. }
  split.
  - apply (proj1 mfact_stays_in_range monocle_one_client (float_of_int 3) _
             eq_refl eq_refl H0).
    unfold mfact_in_range. vm_compute. intros [_ H]. discriminate.
  - apply (proj2 mfact_stays_in_range); [|exact H0].
    repeat constructor.
Defined.

(** * Properties of the further functions *)

(** ** Client lists on the root window *)

Lemma map_const_replicate {A B} (b : B) (l : list A) :
  map (fun _ => b) l = replicate (length l) b.
Proof. induction l as [|a l IH]; simpl; [reflexivity|rewrite IH; reflexivity]. Qed.

(** X1.  [updateclientlist] writes into [_NET_CLIENT_LIST] the windows of
    the client chain, in chain order, once for each monitor of the monitor
    chain, and into [_NET_CLIENT_LIST_STACKING] the windows of the stack
    chain likewise: with one monitor every managed window is listed once,
    with none the lists are empty. *)
Theorem updateclientlist_lists_chain_per_monitor s :
  NetClientList (xserver (updateclientlist s))
  = concat (replicate (length (mons s)) (wins (heap s) (clients (cl s))))
  /\ NetClientListStacking (xserver (updateclientlist s))
     = concat (replicate (length (mons s)) (wins (heap s) (stack (cl s))))
  /\ heap (updateclientlist s) = heap s
  /\ cl (updateclientlist s) = cl s
  /\ mons (updateclientlist s) = mons s.
Proof.
  destruct (updateclientlist_spec s) as (H1 & H2 & H3 & H4 & H5).
  rewrite H1, H2, !map_const_replicate. auto.
Qed.

(** ** Arranging *)

(** X2.  [arrange] (with [showhide], [arrangemon], the layouts, [resize]
    and [resizeclient] under it) writes client geometry, layout symbols and
    X requests only: the chains, the selected monitor, every client's tags,
    flags, border width, window and monitor, and every monitor's tag sets,
    selection, layouts, factors and areas are the same afterwards. *)
Theorem arrange_writes_geometry_only m s :
  skeleton (arrange m s) = skeleton s.
Proof. apply skeleton_arrange. Qed.

(** ** Tags across monitors *)

Lemma lor_small n a b :
  0 <= n -> 0 <= a < 2 ^ n -> 0 <= b < 2 ^ n -> 0 <= Z.lor a b < 2 ^ n.
Proof.
  intros Hn Ha Hb. split; [apply Z.lor_nonneg; lia|].
  destruct (Z.eq_dec (Z.lor a b) 0) as [->|Hz]; [apply Z.pow_pos_nonneg; lia|].
  apply Z.log2_lt_pow2; [pose proof (proj2 (Z.lor_nonneg a b)); lia|].
  rewrite Z.log2_lor by lia.
  destruct (Z.eq_dec a 0) as [->|Ha0], (Z.eq_dec b 0) as [->|Hb0].
  - exfalso. apply Hz. reflexivity.
  - rewrite Z.max_r by (simpl; apply Z.log2_nonneg). apply Z.log2_lt_pow2; lia.
  - rewrite Z.max_l by (simpl; apply Z.log2_nonneg). apply Z.log2_lt_pow2; lia.
  - apply Z.max_lub_lt; apply Z.log2_lt_pow2; lia.
Qed.

Lemma TAGMASK_val : TAGMASK = 1023.
Proof. reflexivity. Qed.

(** The tags shown by all monitors, as [findfirstunusedtag] collects them. *)
Lemma occupied_spec (ms : list Monitor) o :
  0 <= o <= TAGMASK ->
  Forall (fun m => 0 <= seltagset m <= TAGMASK) ms ->
  let occ := foldl (fun o m => sint (Z.lor o (seltagset m))) o ms in
  0 <= occ <= TAGMASK
  /\ (forall r, Z.land r occ = 0 ->
        Z.land r o = 0 /\ Forall (fun m => Z.land r (seltagset m) = 0) ms).
Proof.
  rewrite TAGMASK_val.
  intros Ho Hms. revert o Ho. induction Hms as [|m ms Hm Hms IH]; intros o Ho; simpl.
  - split; [exact Ho|]. intros r Hr. split; [exact Hr|constructor].
  - assert (Hl : 0 <= Z.lor o (seltagset m) < 2 ^ 10) by (apply lor_small; lia).
    rewrite sint_id by (unfold in_int; lia).
    destruct (IH (Z.lor o (seltagset m))) as [Hocc Hland]; [lia|].
    split; [exact Hocc|].
    intros r Hr. destruct (Hland r Hr) as [H1 H2].
    assert (Ho' : Z.land r o = 0 /\ Z.land r (seltagset m) = 0).
    { rewrite Z.land_lor_distr_r in H1. apply Z.lor_eq_0_iff in H1. exact H1. }
    split; [tauto|]. constructor; tauto.
Qed.

Lemma findfirstunusedtag_loop_result fuel : forall k occupied,
  0 <= k -> 0 <= occupied <= TAGMASK ->
  let r := findfirstunusedtag_loop fuel (2 ^ k) occupied in
  r = 0 \/ (exists j, k <= j < 10 /\ r = 2 ^ j /\ Z.land r occupied = 0).
Proof.
  rewrite TAGMASK_val.
  induction fuel as [|fuel IH]; intros k occupied Hk Hocc; simpl; [left; reflexivity|].
  destruct (2 ^ k <? occupied) eqn:Hlt; [|left; reflexivity].
  apply Z.ltb_lt in Hlt.
  assert (Hk10 : k < 10).
  { destruct (Z.lt_ge_cases k 10) as [?|Hge]; [assumption|].
    pose proof (Z.pow_le_mono_r 2 10 k ltac:(lia) Hge) as Hp. lia. }
  destruct (Z.land (2 ^ k) occupied =? 0) eqn:Hl.
  - right. exists k. apply Z.eqb_eq in Hl. repeat split; [lia|assumption|exact Hl].
  - rewrite Z.shiftl_mul_pow2 by lia.
    replace (2 ^ k * 2 ^ 1) with (2 ^ (k + 1)) by (rewrite Z.pow_add_r by lia; reflexivity).
    rewrite sint_id.
    + destruct (IH (k + 1) occupied ltac:(lia) Hocc) as [H0|(j & Hj & Hr & Hz)].
      * left. exact H0.
      * right. exists j. repeat split; [lia|lia|assumption|assumption].
    + unfold in_int. split.
      * pose proof (Z.pow_pos_nonneg 2 (k + 1)). lia.
      * apply Z.pow_lt_mono_r; lia.
Qed.

(** X3.  When every monitor's displayed tag set lies within [TAGMASK],
    [findfirstunusedtag] returns 0 or a single tag bit that no monitor
    displays. *)
Theorem findfirstunusedtag_is_unused s :
  Forall (fun m => 0 <= seltagset m <= TAGMASK) (mons s) ->
  findfirstunusedtag s = 0
  \/ (exists j, 0 <= j < 10 /\ findfirstunusedtag s = 2 ^ j
      /\ Forall (fun m => Z.land (findfirstunusedtag s) (seltagset m) = 0) (mons s)).
Proof.
  intros Hms. unfold findfirstunusedtag.
  destruct (occupied_spec (mons s) 0 ltac:(rewrite TAGMASK_val; lia) Hms)
    as [Hocc Hland].
  cbv zeta in *. set (occ := foldl _ 0 (mons s)) in *.
  destruct (findfirstunusedtag_loop_result 34 0 occ ltac:(lia) Hocc)
    as [H0|(j & Hj & Hr & Hz)].
  - left. exact H0.
  - right. exists j. split; [lia|]. split; [exact Hr|].
    apply (Hland _ Hz).
Qed.

Lemma findfirstunusedtag_is_unused_witness :
  findfirstunusedtag (two_monitors 1 4) = 0
  \/ (exists j, 0 <= j < 10 /\ findfirstunusedtag (two_monitors 1 4) = 2 ^ j
      /\ Forall (fun m => Z.land (findfirstunusedtag (two_monitors 1 4)) (seltagset m) = 0)
           (mons (two_monitors 1 4))).
Proof.
  apply (findfirstunusedtag_is_unused (two_monitors 1 4)).
  repeat constructor; vm_compute; discriminate.
Defined.

(** ** Choosing a monitor *)

(** X4.  For a selected monitor of the chain, [dirtomon] returns a monitor
    of the chain, and its two directions undo each other: from the monitor
    it returns for [dir > 0], the one it returns for [dir <= 0] is the
    starting monitor, and the other way round. *)
Theorem dirtomon_inverse_directions s up down :
  (selmon s < length (mons s))%nat -> 0 < up -> down <= 0 ->
  (dirtomon up s < length (mons s))%nat
  /\ (dirtomon down s < length (mons s))%nat
  /\ dirtomon down (set_selmon (dirtomon up s) s) = selmon s
  /\ dirtomon up (set_selmon (dirtomon down s) s) = selmon s.
Proof.
  intros Hs Hup Hdown. unfold dirtomon. simpl.
  destruct (0 <? up) eqn:E1; [|apply Z.ltb_ge in E1; lia].
  destruct (0 <? down) eqn:E2; [apply Z.ltb_lt in E2; lia|].
  repeat case_bool_decide; lia.
Qed.

Lemma dirtomon_inverse_directions_witness :
  (dirtomon 1 two_monitors_one_client < 2)%nat
  /\ (dirtomon (-1) two_monitors_one_client < 2)%nat
  /\ dirtomon (-1) (set_selmon (dirtomon 1 two_monitors_one_client)
                      two_monitors_one_client) = 0%nat
  /\ dirtomon 1 (set_selmon (dirtomon (-1) two_monitors_one_client)
                   two_monitors_one_client) = 0%nat.
Proof.
  apply (dirtomon_inverse_directions two_monitors_one_client 1 (-1));
    [vm_compute; lia | lia | lia].
Defined.

Lemma recttomon_loop_max l x y w h : forall r area,
  let r' := recttomon_loop l x y w h r area in
  exists a',
    area <= a'
    /\ Forall (fun im => INTERSECT x y w h im.2 <= a') l
    /\ ((r' = r /\ a' = area)
        \/ (exists m, (r', m) ∈ l /\ INTERSECT x y w h m = a' /\ area < a')).
Proof.
  induction l as [|[i m] l IH]; intros r area; simpl.
  - exists area. split; [lia|]. split; [constructor|]. left. auto.
  - destruct (INTERSECT x y w h m >? area) eqn:E.
    + apply Z.gtb_lt in E.
      destruct (IH i (INTERSECT x y w h m)) as (a' & Ha & HF & Hd).
      exists a'. split; [lia|]. split; [constructor; [exact Ha|exact HF]|].
      right. destruct Hd as [[-> ->]|(m' & Hin & Hm' & Hlt)].
      * exists m. split; [apply list_elem_of_here|]. split; [reflexivity|exact E].
      * exists m'. split; [apply list_elem_of_further, Hin|]. split; [exact Hm'|lia].
    + assert (E' : INTERSECT x y w h m <= area).
      { destruct (Z.gtb_spec (INTERSECT x y w h m) area); [discriminate|lia]. }
      destruct (IH r area) as (a' & Ha & HF & Hd).
      exists a'. split; [exact Ha|]. split; [constructor; [simpl; lia|exact HF]|].
      destruct Hd as [Hd|(m' & Hin & Hm' & Hlt)]; [left; exact Hd|].
      right. exists m'. split; [apply list_elem_of_further, Hin|]. auto.
Qed.

Lemma elem_of_numbered (ms : list Monitor) i m :
  (i, m) ∈ imap (fun i m => (i, m)) ms <-> ms !! i = Some m.
Proof.
  rewrite elem_of_lookup_imap. split.
  - intros (j & y & [= -> ->] & H). exact H.
  - intros H. exists i, m. auto.
Qed.

(** X5.  For a selected monitor of the chain, [recttomon] returns a monitor
    of the chain; no monitor overlaps the rectangle in a larger area (as
    [INTERSECT] computes it) than the one returned, when some monitor
    overlaps it at all; and when none does, the selected monitor is
    returned. *)
Theorem recttomon_largest_overlap x y w h s :
  (selmon s < length (mons s))%nat ->
  (recttomon x y w h s < length (mons s))%nat
  /\ (forall i m, mons s !! i = Some m -> 0 < INTERSECT x y w h m ->
        exists mr, mons s !! recttomon x y w h s = Some mr
                   /\ INTERSECT x y w h m <= INTERSECT x y w h mr)
  /\ ((forall i m, mons s !! i = Some m -> INTERSECT x y w h m <= 0) ->
      recttomon x y w h s = selmon s).
Proof.
  intros Hs. unfold recttomon.
  destruct (recttomon_loop_max (imap (fun i m => (i, m)) (mons s)) x y w h (selmon s) 0)
    as (a' & Ha & HF & Hd).
  cbv zeta in Hd. set (r := recttomon_loop _ x y w h (selmon s) 0) in *.
  rewrite Forall_forall in HF.
  split; [|split].
  - destruct Hd as [[-> _]|(m & Hin & _)]; [exact Hs|].
    apply elem_of_numbered in Hin. apply lookup_lt_Some in Hin. exact Hin.
  - intros i m Hm Hpos.
    pose proof (HF (i, m) (proj2 (elem_of_numbered _ _ _) Hm)) as Hle. simpl in Hle.
    destruct Hd as [[_ ->]|(m' & Hin & Hm' & _)]; [lia|].
    exists m'. split; [apply elem_of_numbered, Hin|lia].
  - intros Hall. destruct Hd as [[-> _]|(m' & Hin & Hm' & Hlt)]; [reflexivity|].
    apply elem_of_numbered in Hin. specialize (Hall _ _ Hin). lia.
Qed.

Lemma recttomon_largest_overlap_witness :
  (recttomon 2000 100 300 200 two_monitors_one_client < 2)%nat
  /\ (forall i m, mons two_monitors_one_client !! i = Some m ->
        0 < INTERSECT 2000 100 300 200 m ->
        exists mr, mons two_monitors_one_client
                     !! recttomon 2000 100 300 200 two_monitors_one_client = Some mr
                   /\ INTERSECT 2000 100 300 200 m <= INTERSECT 2000 100 300 200 mr)
  /\ ((forall i m, mons two_monitors_one_client !! i = Some m ->
         INTERSECT 2000 100 300 200 m <= 0) ->
      recttomon 2000 100 300 200 two_monitors_one_client = 0%nat).
Proof.
  apply (recttomon_largest_overlap 2000 100 300 200 two_monitors_one_client).
  vm_compute. lia.
Defined.

(** ** The current desktop *)

Lemma updatecurrentdesktop_loop_log2 fuel : forall raw i,
  0 < raw < 2 ^ 32 -> 0 <= i <= Z.log2 raw ->
  (Z.to_nat (Z.log2 raw - i) < fuel)%nat ->
  updatecurrentdesktop_loop fuel raw i = Z.log2 raw.
Proof.
  induction fuel as [|fuel IH]; intros raw i Hraw Hi Hfuel; [lia|].
  assert (Hlog : Z.log2 raw < 32) by (apply Z.log2_lt_pow2; lia).
  simpl. unfold add. rewrite sint_id by (unfold in_int; lia).
  destruct (Z.shiftr raw (i + 1) =? 0) eqn:E.
  - apply Z.eqb_eq in E. apply Z.shiftr_eq_0_iff in E. lia.
  - apply Z.eqb_neq in E.
    assert (Hlt : i + 1 <= Z.log2 raw).
    { destruct (Z.le_gt_cases (i + 1) (Z.log2 raw)) as [?|Hgt]; [assumption|].
      exfalso. apply E. apply Z.shiftr_eq_0_iff. right. lia. }
    apply IH; [exact Hraw|lia|lia].
Qed.

(** X6.  [updatecurrentdesktop] reports the index of the highest tag bit the
    selected monitor displays ([Z.log2] of its tag set), and 0 for the
    empty tag set: for a single tag [1 << k] it reports [k]. *)
Theorem updatecurrentdesktop_highest_tag s sm :
  mons s !! selmon s = Some sm -> 0 <= seltagset sm < 2 ^ 32 ->
  updatecurrentdesktop s = Some (Z.log2 (seltagset sm)).
Proof.
  intros Hsm Hts. unfold updatecurrentdesktop. rewrite Hsm. f_equal.
  destruct (Z.eq_dec (seltagset sm) 0) as [->|Hnz]; [reflexivity|].
  assert (Hlog : Z.log2 (seltagset sm) < 32) by (apply Z.log2_lt_pow2; lia).
  pose proof (Z.log2_nonneg (seltagset sm)).
  apply updatecurrentdesktop_loop_log2; lia.
Qed.

Lemma updatecurrentdesktop_highest_tag_witness :
  updatecurrentdesktop (two_monitors 32 1) = Some 5.
Proof.
  apply (updatecurrentdesktop_highest_tag (two_monitors 32 1) _ eq_refl).
  vm_compute. split; [discriminate|reflexivity].
Defined.

(** ** Screens *)

Lemma same_geom_spec a b :
  same_geom a b = true
  <-> x_org a = x_org b /\ y_org a = y_org b
      /\ width a = width b /\ height a = height b.
Proof.
  unfold same_geom. rewrite !andb_true_iff, !Z.eqb_eq. tauto.
Qed.

Lemma same_geom_refl a : same_geom a a = true.
Proof. apply same_geom_spec. auto. Qed.

Lemma same_geom_sym a b : same_geom a b = same_geom b a.
Proof.
  unfold same_geom.
  rewrite (Z.eqb_sym (x_org a)), (Z.eqb_sym (y_org a)),
    (Z.eqb_sym (width a)), (Z.eqb_sym (height a)). reflexivity.
Qed.

Lemma isuniquegeom_true unique n info :
  isuniquegeom unique n info = true
  <-> forall a u, (a < n)%nat -> unique !! a = Some u -> same_geom u info = false.
Proof.
  induction n as [|n IH]; simpl.
  - split; [intros _ a u Ha; lia|reflexivity].
  - destruct (unique !! n) as [u|] eqn:Hu.
    + destruct (same_geom u info) eqn:Hg.
      * split; [discriminate|]. intros H. rewrite (H n u) in Hg; [discriminate|lia|exact Hu].
      * rewrite IH. split.
        -- intros H a u' Ha Hu'. destruct (decide (a = n)) as [->|Hne].
           ++ congruence.
           ++ apply (H a); [lia|exact Hu'].
        -- intros H a u' Ha. apply H. lia.
    + rewrite IH. split.
      * intros H a u' Ha Hu'. destruct (decide (a = n)) as [->|Hne]; [congruence|].
        apply (H a); [lia|exact Hu'].
      * intros H a u' Ha. apply H. lia.
Qed.

Lemma isuniquegeom_false unique n info :
  isuniquegeom unique n info = false ->
  exists a u, (a < n)%nat /\ unique !! a = Some u /\ same_geom u info = true.
Proof.
  induction n as [|n IH]; simpl; [discriminate|].
  destruct (unique !! n) as [u|] eqn:Hu.
  - destruct (same_geom u info) eqn:Hg.
    + intros _. exists n, u. auto.
    + intros H. destruct (IH H) as (a & u' & Ha & H1 & H2). exists a, u'. auto with lia.
  - intros H. destruct (IH H) as (a & u' & Ha & H1 & H2). exists a, u'. auto with lia.
Qed.

(** The loop of [updategeom] over the screens [rest], after the screens
    [seen]. *)
Lemma unique_screens_loop rest : forall unique j seen,
  (j <= length seen)%nat -> (length seen + length rest <= length unique)%nat ->
  (forall a u, (a < j)%nat -> unique !! a = Some u -> u ∈ seen) ->
  (forall a b ua ub, (a < j)%nat -> (b < j)%nat -> a <> b ->
     unique !! a = Some ua -> unique !! b = Some ub -> same_geom ua ub = false) ->
  (forall inf, inf ∈ seen ->
     exists a u, (a < j)%nat /\ unique !! a = Some u /\ same_geom u inf = true) ->
  let '(unique', j') :=
    foldl (fun '(unique, j) inf =>
             if isuniquegeom unique j inf then (<[j := inf]> unique, S j)
             else (unique, j)) (unique, j) rest in
  (j' <= length (seen ++ rest))%nat
  /\ (forall a u, (a < j')%nat -> unique' !! a = Some u -> u ∈ seen ++ rest)
  /\ (forall a b ua ub, (a < j')%nat -> (b < j')%nat -> a <> b ->
        unique' !! a = Some ua -> unique' !! b = Some ub -> same_geom ua ub = false)
  /\ (forall inf, inf ∈ seen ++ rest ->
        exists a u, (a < j')%nat /\ unique' !! a = Some u /\ same_geom u inf = true).
Proof.
  induction rest as [|inf rest IH]; intros unique j seen Hj Hlen Hin Hdis Hcov.
  - simpl. rewrite app_nil_r. auto.
  - simpl. simpl in Hlen.
    replace (seen ++ inf :: rest) with ((seen ++ [inf]) ++ rest)
      by (rewrite <- app_assoc; reflexivity).
    destruct (isuniquegeom unique j inf) eqn:Hu.
    + rewrite isuniquegeom_true in Hu.
      assert (Hjl : (j < length unique)%nat) by lia.
      apply IH.
      * rewrite length_app. simpl. lia.
      * rewrite length_app, length_insert. simpl. lia.
      * intros a u Ha Hau. rewrite elem_of_app.
        destruct (decide (a = j)) as [->|Hne].
        -- rewrite list_lookup_insert_eq in Hau by exact Hjl. injection Hau as <-.
           right. apply list_elem_of_here.
        -- rewrite list_lookup_insert_ne in Hau by congruence.
           left. apply (Hin a); [lia|exact Hau].
      * intros a b ua ub Ha Hb Hab Hua Hub.
        destruct (decide (a = j)) as [->|Hna], (decide (b = j)) as [->|Hnb].
        -- congruence.
        -- rewrite list_lookup_insert_eq in Hua by exact Hjl. injection Hua as <-.
           rewrite list_lookup_insert_ne in Hub by congruence.
           rewrite same_geom_sym. apply (Hu b); [lia|exact Hub].
        -- rewrite list_lookup_insert_eq in Hub by exact Hjl. injection Hub as <-.
           rewrite list_lookup_insert_ne in Hua by congruence.
           apply (Hu a); [lia|exact Hua].
        -- rewrite list_lookup_insert_ne in Hua, Hub by congruence.
           apply (Hdis a b); [lia|lia|exact Hab|exact Hua|exact Hub].
      * intros i0 Hi0. rewrite elem_of_app, list_elem_of_singleton in Hi0.
        destruct Hi0 as [Hi0| ->].
        -- destruct (Hcov i0 Hi0) as (a & u & Ha & Hau & Hg).
           exists a, u. split; [lia|]. split; [|exact Hg].
           rewrite list_lookup_insert_ne by lia. exact Hau.
        -- exists j, inf. split; [lia|]. split; [|apply same_geom_refl].
           apply list_lookup_insert_eq. exact Hjl.
    + destruct (isuniquegeom_false _ _ _ Hu) as (a0 & u0 & Ha0 & Hu0 & Hg0).
      apply IH.
      * rewrite length_app. simpl. lia.
      * rewrite length_app. simpl. lia.
      * intros a u Ha Hau. rewrite elem_of_app. left. apply (Hin a); assumption.
      * exact Hdis.
      * intros i0 Hi0. rewrite elem_of_app, list_elem_of_singleton in Hi0.
        destruct Hi0 as [Hi0| ->]; [apply Hcov, Hi0|].
        exists a0, u0. auto.
Qed.

(** X7.  The loop of [updategeom] that filters the Xinerama screens with
    [isuniquegeom] keeps, in the first [j] slots of [unique], screens of
    the list it was given, no two of them with the same geometry, and so
    that every screen of the list has its geometry among them. *)
Theorem unique_screens_distinct_and_complete info :
  let '(unique, j) := unique_screens info in
  (j <= length info)%nat
  /\ (forall a u, (a < j)%nat -> unique !! a = Some u -> u ∈ info)
  /\ (forall a b ua ub, (a < j)%nat -> (b < j)%nat -> a <> b ->
        unique !! a = Some ua -> unique !! b = Some ub -> same_geom ua ub = false)
  /\ (forall inf, inf ∈ info ->
        exists a u, (a < j)%nat /\ unique !! a = Some u /\ same_geom u inf = true).
Proof.
  unfold unique_screens.
  apply (unique_screens_loop info (replicate (length info) zero_screen) 0%nat []).
  - simpl. lia.
  - rewrite length_replicate. simpl. lia.
  - intros a u Ha. lia.
  - intros a b ua ub Ha. lia.
  - intros inf Hi. apply elem_of_nil in Hi. contradiction.
Qed.

Lemma unique_screens_distinct_and_complete_witness :
  let info := [mkScreenInfo 0 0 0 1920 1080; mkScreenInfo 1 0 0 1920 1080;
               mkScreenInfo 2 1920 0 1280 1024] in
  let '(unique, j) := unique_screens info in
  (j <= length info)%nat
  /\ (forall a u, (a < j)%nat -> unique !! a = Some u -> u ∈ info)
  /\ (forall a b ua ub, (a < j)%nat -> (b < j)%nat -> a <> b ->
        unique !! a = Some ua -> unique !! b = Some ub -> same_geom ua ub = false)
  /\ (forall inf, inf ∈ info ->
        exists a u, (a < j)%nat /\ unique !! a = Some u /\ same_geom u inf = true).
Proof.
  exact (unique_screens_distinct_and_complete
           [mkScreenInfo 0 0 0 1920 1080; mkScreenInfo 1 0 0 1920 1080;
            mkScreenInfo 2 1920 0 1280 1024]).
Defined.

Lemma RIGHTOF_false a b :
  RIGHTOF a b = false
  <-> y_org a < y_org b \/ (y_org a = y_org b /\ x_org a <= x_org b).
Proof.
  unfold RIGHTOF. rewrite orb_false_iff, andb_false_iff.
  rewrite !Z.gtb_ltb, !Z.ltb_ge, Z.eqb_neq. lia.
Qed.

Lemma RIGHTOF_true a b :
  RIGHTOF a b = true
  <-> y_org b < y_org a \/ (y_org a = y_org b /\ x_org b < x_org a).
Proof.
  unfold RIGHTOF. rewrite orb_true_iff, andb_true_iff.
  rewrite !Z.gtb_ltb, !Z.ltb_lt, Z.eqb_eq. lia.
Qed.

Lemma RIGHTOF_false_trans a b c :
  RIGHTOF a b = false -> RIGHTOF b c = false -> RIGHTOF a c = false.
Proof. rewrite !RIGHTOF_false. lia. Qed.

Lemma insert_head_Permutation {A} (l : list A) j (a b : A) :
  l !! j = Some b -> b :: <[j := a]> l ≡ₚ a :: l.
Proof.
  revert j. induction l as [|c l IH]; intros [|j] H; simpl in *; try discriminate.
  - injection H as ->. apply Permutation_swap.
  - rewrite (Permutation_swap c b), (IH j H). apply Permutation_swap.
Qed.

Lemma swap_Permutation {A} (l : list A) i j (a b : A) :
  (i < j)%nat -> l !! i = Some a -> l !! j = Some b ->
  <[j := a]> (<[i := b]> l) ≡ₚ l.
Proof.
  revert i j. induction l as [|c l IH]; intros [|i] [|j] Hij Hi Hj; simpl in *;
    try discriminate; try lia.
  - injection Hi as ->. apply insert_head_Permutation, Hj.
  - f_equiv. apply IH; [lia|exact Hi|exact Hj].
Qed.

(** The inner loop of [sortscreens] for the outer index [i], over
    [j = a, ..., a + k - 1]. *)
Lemma sortscreens_inner i k : forall a l,
  (i < a)%nat -> (a + k <= length l)%nat ->
  (forall j si sj, (i < j < a)%nat -> l !! i = Some si -> l !! j = Some sj ->
     RIGHTOF si sj = false) ->
  let l' := foldl (fun scr j => sortscreens_step i j scr) l (seq a k) in
  length l' = length l
  /\ l' ≡ₚ l
  /\ (forall p, (p < i)%nat -> l' !! p = l !! p)
  /\ (forall p, (a + k <= p)%nat -> l' !! p = l !! p)
  /\ (forall p sp, (i <= p < a + k)%nat -> l' !! p = Some sp ->
        exists q, (i <= q < a + k)%nat /\ l !! q = Some sp)
  /\ (forall j si sj, (i < j < a + k)%nat -> l' !! i = Some si -> l' !! j = Some sj ->
        RIGHTOF si sj = false).
Proof.
  induction k as [|k IH]; intros a l Hia Hlen Hinv; simpl.
  - rewrite Nat.add_0_r. repeat split; try reflexivity.
    + intros p sp Hp Hsp. exists p. auto.
    + exact Hinv.
  - destruct (lookup_lt_is_Some_2 l i ltac:(lia)) as [si Hsi].
    destruct (lookup_lt_is_Some_2 l a ltac:(lia)) as [sa Hsa].
    set (l1 := sortscreens_step i a l).
    assert (H1 : length l1 = length l
                 /\ l1 ≡ₚ l
                 /\ (forall p, p <> i -> p <> a -> l1 !! p = l !! p)
                 /\ (forall p sp, (p = i \/ p = a) -> l1 !! p = Some sp ->
                       exists q, (q = i \/ q = a) /\ l !! q = Some sp)
                 /\ (forall j ti tj, (i < j < S a)%nat -> l1 !! i = Some ti ->
                       l1 !! j = Some tj -> RIGHTOF ti tj = false)).
    { subst l1. unfold sortscreens_step. rewrite Hsi, Hsa.
      destruct (RIGHTOF si sa) eqn:Hr.
      - split; [rewrite !length_insert; reflexivity|].
        split; [apply (swap_Permutation l i a si sa); [lia|exact Hsi|exact Hsa]|].
        split; [intros p Hpi Hpa; rewrite !list_lookup_insert_ne by congruence; reflexivity|].
        split.
        + intros p sp [->| ->] Hsp.
          * rewrite list_lookup_insert_ne in Hsp by lia.
            rewrite list_lookup_insert_eq in Hsp by lia. injection Hsp as <-.
            exists a. auto.
          * rewrite list_lookup_insert_eq in Hsp by (rewrite length_insert; lia).
            injection Hsp as <-. exists i. auto.
        + intros j ti tj Hj Hti Htj.
          rewrite list_lookup_insert_ne in Hti by lia.
          rewrite list_lookup_insert_eq in Hti by lia. injection Hti as <-.
          destruct (decide (j = a)) as [->|Hja].
          * rewrite list_lookup_insert_eq in Htj by (rewrite length_insert; lia).
            injection Htj as <-. apply RIGHTOF_false. apply RIGHTOF_true in Hr. lia.
          * rewrite !list_lookup_insert_ne in Htj by lia.
            pose proof (Hinv j si tj ltac:(lia) Hsi Htj) as Hle.
            apply RIGHTOF_false. apply RIGHTOF_false in Hle. apply RIGHTOF_true in Hr. lia.
      - split; [reflexivity|]. split; [reflexivity|]. split; [reflexivity|].
        split; [intros p sp Hp Hsp; exists p; auto|].
        intros j ti tj Hj Hti Htj. rewrite Hsi in Hti. injection Hti as <-.
        destruct (decide (j = a)) as [->|Hja].
        + rewrite Hsa in Htj. injection Htj as <-. exact Hr.
        + apply (Hinv j si tj); [lia|exact Hsi|exact Htj]. }
    destruct H1 as (L1 & P1 & U1 & F1 & S1).
    destruct (IH (S a) l1 ltac:(lia) ltac:(lia) S1) as (L2 & P2 & U2 & A2 & F2 & S2).
    cbv zeta in *. set (l2 := foldl _ l1 (seq (S a) k)) in *.
    replace (a + S k)%nat with (S a + k)%nat by lia.
    split; [congruence|]. split; [rewrite P2; exact P1|].
    split; [intros p Hp; rewrite U2 by exact Hp; apply U1; lia|].
    split; [intros p Hp; rewrite A2 by exact Hp; apply U1; lia|].
    split; [|exact S2].
    intros p sp Hp Hsp. destruct (F2 p sp Hp Hsp) as (q & Hq & Hlq).
    destruct (decide (q = i \/ q = a)) as [Hq'|Hq'].
    + destruct (F1 q sp Hq' Hlq) as (q' & Hq'' & Hl). exists q'. split; [lia|exact Hl].
    + exists q. split; [lia|]. rewrite <- U1 by tauto. exact Hlq.
Qed.

(** The outer loop of [sortscreens], over [i = a, ..., a + k - 1]. *)
Lemma sortscreens_outer n k : forall a l,
  (a + k = n)%nat -> (n <= length l)%nat ->
  (forall p q sp sq, (p < a)%nat -> (p < q < n)%nat ->
     l !! p = Some sp -> l !! q = Some sq -> RIGHTOF sp sq = false) ->
  let l' := foldl (fun scr i =>
                     foldl (fun scr j => sortscreens_step i j scr) scr
                       (seq (S i) (n - S i))) l (seq a k) in
  length l' = length l
  /\ l' ≡ₚ l
  /\ (forall p, (n <= p)%nat -> l' !! p = l !! p)
  /\ (forall p q sp sq, (p < q < n)%nat ->
        l' !! p = Some sp -> l' !! q = Some sq -> RIGHTOF sp sq = false).
Proof.
  induction k as [|k IH]; intros a l Hak Hn Hinv; simpl.
  - repeat split; try reflexivity.
    intros p q sp sq Hpq. apply Hinv; lia.
  - destruct (sortscreens_inner a (n - S a) (S a) l ltac:(lia) ltac:(lia))
      as (L1 & P1 & U1 & A1 & F1 & S1).
    { intros j si sj Hj. lia. }
    cbv zeta in *. set (l1 := foldl _ l (seq (S a) (n - S a))) in *.
    replace (S a + (n - S a))%nat with n in * by lia.
    destruct (IH (S a) l1 ltac:(lia) ltac:(lia)) as (L2 & P2 & A2 & S2).
    { intros p q sp sq Hp Hpq Hsp Hsq.
      destruct (decide (p = a)) as [->|Hpa].
      - apply (S1 q sp sq); [lia|exact Hsp|exact Hsq].
      - rewrite U1 in Hsp by lia.
        destruct (decide (q < a)%nat) as [Hqa|Hqa].
        + rewrite U1 in Hsq by lia. apply (Hinv p q); [lia|lia|exact Hsp|exact Hsq].
        + destruct (F1 q sq ltac:(lia) Hsq) as (q' & Hq' & Hlq).
          apply (Hinv p q'); [lia|lia|exact Hsp|exact Hlq]. }
    split; [congruence|]. split; [rewrite P2; exact P1|].
    split; [intros p Hp; rewrite A2 by exact Hp; apply A1; lia|exact S2].
Qed.

(** X8.  [sortscreens(screens, n)] on an array of at least [n] screens
    rearranges its first [n] elements: the result is a permutation of the
    array, the elements from index [n] on stay in place, and among the
    first [n] no screen is [RIGHTOF] a later one, so they are in ascending
    order of [y_org] and, for equal [y_org], of [x_org]. *)
Theorem sortscreens_sorts screens n :
  (n <= length screens)%nat ->
  sortscreens screens n ≡ₚ screens
  /\ (forall p, (n <= p)%nat -> sortscreens screens n !! p = screens !! p)
  /\ (forall p q sp sq, (p < q < n)%nat ->
        sortscreens screens n !! p = Some sp -> sortscreens screens n !! q = Some sq ->
        RIGHTOF sp sq = false
        /\ (y_org sp < y_org sq \/ (y_org sp = y_org sq /\ x_org sp <= x_org sq))).
Proof.
  intros Hn. unfold sortscreens.
  destruct (sortscreens_outer n n 0%nat screens ltac:(lia) Hn) as (L & P & A & S).
  { intros p q sp sq Hp. lia. }
  split; [exact P|]. split; [exact A|].
  intros p q sp sq Hpq Hsp Hsq.
  pose proof (S p q sp sq Hpq Hsp Hsq) as Hr.
  split; [exact Hr|apply RIGHTOF_false, Hr].
Qed.

Lemma sortscreens_sorts_witness :
  let screens := [mkScreenInfo 0 1920 0 1280 1024; mkScreenInfo 1 0 1080 1920 1080;
                  mkScreenInfo 2 0 0 1920 1080] in
  sortscreens screens 3 ≡ₚ screens
  /\ (forall p, (3 <= p)%nat -> sortscreens screens 3 !! p = screens !! p)
  /\ (forall p q sp sq, (p < q < 3)%nat ->
        sortscreens screens 3 !! p = Some sp -> sortscreens screens 3 !! q = Some sq ->
        RIGHTOF sp sq = false
        /\ (y_org sp < y_org sq \/ (y_org sp = y_org sq /\ x_org sp <= x_org sq))).
Proof.
  apply (sortscreens_sorts
           [mkScreenInfo 0 1920 0 1280 1024; mkScreenInfo 1 0 1080 1920 1080;
            mkScreenInfo 2 0 0 1920 1080] 3).
  simpl. lia.
Defined.

(** ** Bars and the work area *)

Lemma updatebarpos_count barh (bars : list Bar) : forall (m1 : Monitor) n,
  0 <= n -> n + Z.of_nat (length bars) < 2 ^ 31 ->
  let '(m2, num_bars) :=
    foldl (fun '(mm, n) b =>
             ((if topbar b then set_wy (my mm +i barh +i 0) mm else mm), n +i 1))
      (m1, n) bars in
  num_bars = n + Z.of_nat (length bars)
  /\ my m2 = my m1 /\ mh m2 = mh m1 /\ wh m2 = wh m1
  /\ wy m2 = if existsb topbar bars then my m1 +i barh +i 0 else wy m1.
Proof.
  induction bars as [|b bars IH]; intros m1 n Hn Hlen.
  - simpl. repeat split; lia.
  - cbn [foldl length existsb] in *. rewrite Nat2Z.inj_succ in Hlen.
    assert (E : n +i 1 = n + 1) by (unfold add; apply sint_id; unfold in_int; lia).
    rewrite E.
    specialize (IH (if topbar b then set_wy (my m1 +i barh +i 0) m1 else m1) (n + 1)
                  ltac:(lia) ltac:(lia)).
    destruct (foldl _ _ bars) as [m2 num_bars].
    destruct IH as (H1 & H2 & H3 & H4 & H5).
    rewrite Nat2Z.inj_succ.
    destruct (topbar b); simpl in *.
    + repeat split; try assumption; try lia.
      rewrite H5. destruct (existsb topbar bars); reflexivity.
    + repeat split; try assumption; lia.
Qed.

(** X9.  [updatebarpos] on a monitor with the bar chain [bars], when no
    computation leaves the range of [int]: with the bar hidden the work
    area is the whole height of the monitor and every bar lies above the
    screen; with the bar shown the work area loses the bar height once per
    bar, starts below the top bar when there is one, every top bar is at
    the monitor's top edge and every other bar directly below the work
    area. *)
Theorem updatebarpos_work_area barh m bars :
  0 <= barh < 2 ^ 15 -> Z.of_nat (length bars) < 2 ^ 15 ->
  - 2 ^ 29 <= my m < 2 ^ 29 -> - 2 ^ 29 <= mh m < 2 ^ 29 ->
  let '(m', bars') := updatebarpos barh m bars in
  length bars' = length bars
  /\ (showbar m = false ->
      wy m' = my m /\ wh m' = mh m
      /\ Forall (fun b => bar_by b + bar_bh b = 0) bars')
  /\ (showbar m = true ->
      wy m' = my m + (if existsb topbar bars then barh else 0)
      /\ wh m' = mh m - barh * Z.of_nat (length bars)
      /\ Forall (fun b => bar_bh b = barh
                          /\ bar_by b = if topbar b then my m else wy m' + wh m') bars').
Proof.
  intros Hb Hl Hy Hh. unfold updatebarpos. cbv zeta.
  change (showbar (set_wh (mh m) (set_wy (my m) m))) with (showbar m).
  destruct (showbar m) eqn:Hs; cbn [negb].
  - pose proof (updatebarpos_count barh
                  (map (fun b => mkBar (bar_idx b) (topbar b)
                                   (mx (set_wh (mh m) (set_wy (my m) m)) +i 0) (bar_by b)
                                   (ww (set_wh (mh m) (set_wy (my m) m)) -i 2 *i 0) barh) bars)
                  (set_wh (mh m) (set_wy (my m) m)) 0 ltac:(lia)) as Hc.
    rewrite length_map in Hc. specialize (Hc ltac:(lia)).
    destruct (foldl _ _ _) as [m2 num_bars].
    destruct Hc as (H1 & H2 & H3 & H4 & H5).
    simpl in H2, H3, H4, H5.
    assert (He : existsb topbar
                   (map (fun b => mkBar (bar_idx b) (topbar b) (mx m +i 0) (bar_by b)
                                    (ww m -i 2 *i 0) barh) bars) = existsb topbar bars).
    { clear. induction bars as [|b bars IH]; simpl; [reflexivity|]. rewrite IH. reflexivity. }
    simpl in He. rewrite He in H5.
    assert (Hn : barh * num_bars = barh * Z.of_nat (length bars)) by (rewrite H1; lia).
    assert (Hnb : 0 <= barh * Z.of_nat (length bars) < 2 ^ 30) by nia.
    assert (Hwy : wy m2 = my m + (if existsb topbar bars then barh else 0)).
    { rewrite H5. destruct (existsb topbar bars); simpl; [|lia].
      unfold add. rewrite (sint_id (my m + barh)) by (unfold in_int; lia).
      rewrite sint_id by (unfold in_int; lia). lia. }
    assert (Hwh : wh m2 -i 0 *i num_bars -i barh *i num_bars
                  = mh m - barh * Z.of_nat (length bars)).
    { rewrite H4. unfold sub, mul. rewrite Z.mul_0_l. simpl (sint 0).
      rewrite Z.sub_0_r, (sint_id (mh m)) by (unfold in_int; lia).
      rewrite Hn, (sint_id (barh * _)) by (unfold in_int; lia).
      apply sint_id. unfold in_int. lia. }
    rewrite !length_map. split; [reflexivity|]. split; [discriminate|].
    intros _. simpl. rewrite Hwh, Hwy. split; [reflexivity|]. split; [reflexivity|].
    rewrite Forall_map, Forall_map. apply Forall_forall. intros b Hin. simpl.
    split; [reflexivity|].
    destruct (topbar b) eqn:Ht.
    + assert (Hex : existsb topbar bars = true).
      { apply existsb_exists. exists b. split; [apply list_elem_of_In, Hin|exact Ht]. }
      rewrite Hex. unfold sub. rewrite sint_id by (unfold in_int; lia). lia.
    + unfold add. destruct (existsb topbar bars); apply sint_id; unfold in_int; lia.
  - rewrite !length_map. split; [reflexivity|]. split; [|discriminate].
    intros _. simpl. split; [reflexivity|]. split; [reflexivity|].
    rewrite Forall_map, Forall_map. apply Forall_forall. intros b _. simpl.
    unfold sub. rewrite (sint_id (- barh)) by (unfold in_int; lia).
    rewrite Z.sub_0_r, sint_id by (unfold in_int; lia). lia.
Qed.

Lemma updatebarpos_work_area_witness :
  let m := sample_monitor 0 0 1 layout_monocle in
  let bars := [mkBar 1 false 0 0 0 0; mkBar 0 true 0 0 0 0] in
  let '(m', bars') := updatebarpos 18 m bars in
  length bars' = length bars
  /\ (showbar m = false ->
      wy m' = my m /\ wh m' = mh m
      /\ Forall (fun b => bar_by b + bar_bh b = 0) bars')
  /\ (showbar m = true ->
      wy m' = my m + (if existsb topbar bars then 18 else 0)
      /\ wh m' = mh m - 18 * Z.of_nat (length bars)
      /\ Forall (fun b => bar_bh b = 18
                          /\ bar_by b = if topbar b then my m else wy m' + wh m') bars').
Proof.
  apply (updatebarpos_work_area 18 (sample_monitor 0 0 1 layout_monocle)
           [mkBar 1 false 0 0 0 0; mkBar 0 true 0 0 0 0]);
    simpl; lia.
Defined.

(** ** Size hints *)




(** X11.  A request that is not interactive, for a client whose size hints
    do not apply (it ignores them, or it is tiled under a layout function),
    with all numbers far from the limits of [int]: [applysizehints] returns
    a rectangle at least one pixel and at least a bar height wide and
    high, which, with its border, still overlaps the work area of the
    monitor in both directions. *)
Theorem applysizehints_stays_on_monitor s k m nx ny nw nh :
  let small v := - 2 ^ 28 <= v <= 2 ^ 28 in
  small nx -> small ny -> small nw -> small nh ->
  small (wx m) -> small (wy m) -> small (ww m) -> small (wh m) ->
  small (w k) -> small (h k) -> small (bh s) ->
  0 <= bw k <= 2 ^ 28 -> 0 < ww m -> 0 < wh m ->
  0 < w k + 2 * bw k -> 0 < h k + 2 * bw k ->
  ignoresizehints k = true \/ (isfloating k = false /\ has_arrange m = true) ->
  let '((x', y', w', h'), _) := applysizehints s k m nx ny nw nh false in
  1 <= w' /\ 1 <= h' /\ bh s <= w' /\ bh s <= h'
  /\ x' < wx m + ww m /\ wx m < x' + w' + 2 * bw k
  /\ y' < wy m + wh m /\ wy m < y' + h' + 2 * bw k.
Proof.
  intros small Hnx Hny Hnw Hnh Hwx Hwy Hww Hwh Hw Hh Hbh Hbw Hww0 Hwh0 HW HH Hno.
  unfold small in *. unfold applysizehints, WIDTH, HEIGHT. cbv zeta.
  assert (Hcond : negb (ignoresizehints k)
                  && (resizehints || isfloating k || negb (has_arrange m)) = false).
  { destruct Hno as [-> | [-> ->]]; unfold resizehints; simpl;
      [reflexivity|apply andb_false_r]. }
  rewrite Hcond. cbn [negb].
  unfold add, sub, mul.
  pose proof (Z.le_max_l 1 nw). pose proof (Z.le_max_r 1 nw).
  pose proof (Z.le_max_l 1 nh). pose proof (Z.le_max_r 1 nh).
  assert (Hmw : Z.max 1 nw <= 2 ^ 28) by (apply Z.max_lub; lia).
  assert (Hmh : Z.max 1 nh <= 2 ^ 28) by (apply Z.max_lub; lia).
  set (mw' := Z.max 1 nw) in *. set (mh' := Z.max 1 nh) in *.
  repeat match goal with
         | |- context [sint ?z] =>
             rewrite (sint_id z) by (unfold in_int; lia)
         end.
  destruct (nx >=? wx m + ww m) eqn:E1; destruct (ny >=? wy m + wh m) eqn:E2;
    repeat match goal with
           | |- context [sint ?z] =>
               rewrite (sint_id z) by (unfold in_int; lia)
           end;
    repeat match goal with
           | |- context [?a <=? ?b] => destruct (Z.leb_spec a b)
           | |- context [?a <? ?b] => destruct (Z.ltb_spec a b)
           end;
    try (apply Z.geb_le in E1); try (apply Z.geb_le in E2);
    try (rewrite Z.geb_leb in E1; apply Z.leb_gt in E1);
    try (rewrite Z.geb_leb in E2; apply Z.leb_gt in E2);
    lia.
Qed.

Lemma applysizehints_stays_on_monitor_witness :
  let k := sample_client 10 1 0%nat in
  let m := sample_monitor 0 0 1 layout_monocle in
  let '((x', y', w', h'), _) :=
    applysizehints monocle_one_client k m 5000 (-3000) 640 0 false in
  1 <= w' /\ 1 <= h' /\ bh monocle_one_client <= w' /\ bh monocle_one_client <= h'
  /\ x' < wx m + ww m /\ wx m < x' + w' + 2 * bw k
  /\ y' < wy m + wh m /\ wy m < y' + h' + 2 * bw k.
Proof.
  apply (applysizehints_stays_on_monitor monocle_one_client (sample_client 10 1 0%nat)
           (sample_monitor 0 0 1 layout_monocle) 5000 (-3000) 640 0);
    try (vm_compute; split; discriminate); try (vm_compute; reflexivity).
  right. split; reflexivity.
Defined.

(** ** Looking up the client of a window *)

Lemma wintoclient_chain_Some hp l wn c :
  wintoclient_chain hp l wn = Some c ->
  c ∈ l /\ exists k, hp !! c = Some k /\ win k = wn.
Proof.
  induction l as [|a l IH]; simpl; [discriminate|].
  destruct (hp !! a) as [k|] eqn:Hk.
  - destruct (win k =? wn) eqn:E.
    + intros [= <-]. apply Z.eqb_eq in E. split; [apply list_elem_of_here|eauto].
    + intros H. destruct (IH H) as [Hin Hex]. split; [apply list_elem_of_further, Hin|exact Hex].
  - intros H. destruct (IH H) as [Hin Hex]. split; [apply list_elem_of_further, Hin|exact Hex].
Qed.

Lemma wintoclient_chain_None hp l wn :
  wintoclient_chain hp l wn = None ->
  forall c k, c ∈ l -> hp !! c = Some k -> win k <> wn.
Proof.
  induction l as [|a l IH]; simpl; intros H c k Hin Hk.
  - apply elem_of_nil in Hin. contradiction.
  - apply elem_of_cons in Hin. destruct (hp !! a) as [ka|] eqn:Hka.
    + destruct (win ka =? wn) eqn:E; [discriminate|]. apply Z.eqb_neq in E.
      destruct Hin as [->|Hin]; [congruence|apply (IH H c k Hin Hk)].
    + destruct Hin as [->|Hin]; [congruence|apply (IH H c k Hin Hk)].
Qed.

(** The first client of the chain that owns the window. *)
Lemma wintoclient_chain_first hp l wn c k :
  c ∈ l -> hp !! c = Some k -> win k = wn ->
  (forall a ka, a ∈ l -> hp !! a = Some ka -> win ka = wn -> a = c) ->
  wintoclient_chain hp l wn = Some c.
Proof.
  intros Hin Hk Hw Huniq.
  destruct (wintoclient_chain hp l wn) as [a|] eqn:E.
  - destruct (wintoclient_chain_Some _ _ _ _ E) as (Ha & ka & Hka & Hwa).
    f_equal. apply (Huniq a ka Ha Hka Hwa).
  - exfalso. exact (wintoclient_chain_None _ _ _ E c k Hin Hk Hw).
Qed.

Lemma wintoclient_mons (ms : list Monitor) hp l wn r :
  foldl (fun r _ => match r with
                    | Some c => Some c
                    | None => wintoclient_chain hp l wn
                    end) r ms
  = match r with
    | Some c => Some c
    | None => match ms with [] => None | _ => wintoclient_chain hp l wn end
    end.
Proof.
  revert r. induction ms as [|m ms IH]; intros r; simpl.
  - destruct r; reflexivity.
  - rewrite IH. destruct r; [reflexivity|].
    destruct (wintoclient_chain hp l wn); [reflexivity|]. destruct ms; reflexivity.
Qed.

(** X12.  [wintoclient(w)] returns a client of the client chain whose
    window is [w], and returns null only when no allocated client of the
    chain has the window [w] or there is no monitor at all. *)
Theorem wintoclient_finds_window wn s :
  match wintoclient wn s with
  | Some c => c ∈ clients (cl s) /\ exists k, heap s !! c = Some k /\ win k = wn
  | None =>
      mons s = []
      \/ forall c k, c ∈ clients (cl s) -> heap s !! c = Some k -> win k <> wn
  end.
Proof.
  unfold wintoclient. rewrite wintoclient_mons.
  destruct (mons s) as [|m ms]; [left; reflexivity|].
  destruct (wintoclient_chain (heap s) (clients (cl s)) wn) as [c|] eqn:E.
  - apply (wintoclient_chain_Some _ _ _ _ E).
  - right. apply (wintoclient_chain_None _ _ _ E).
Qed.

Lemma wintoclient_finds_window_witness :
  match wintoclient 20 two_monitors_two_clients with
  | Some c => c ∈ clients (cl two_monitors_two_clients)
              /\ exists k, heap two_monitors_two_clients !! c = Some k /\ win k = 20
  | None =>
      mons two_monitors_two_clients = []
      \/ forall c k, c ∈ clients (cl two_monitors_two_clients) ->
                     heap two_monitors_two_clients !! c = Some k -> win k <> 20
  end.
Proof. exact (wintoclient_finds_window 20 two_monitors_two_clients). Defined.

(** ** What the operations leave alone

    A projection [Q] of the clients, or [P] of the monitors, that an
    operation does not write is the same before and after it. *)

Lemma detachstack_fmap_mons {A} (P : Monitor -> A) c s :
  (forall v m, P (set_sel v m) = P m) ->
  P <$> mons (detachstack c s) = P <$> mons s.
Proof.
  intros HP. unfold detachstack. cbv zeta.
  destruct (heap _ !! c) as [k|]; [|reflexivity].
  destruct (mons _ !! mon k) as [m|]; [|reflexivity].
  destruct (bool_decide (sel m = Some c)); [|reflexivity].
  rewrite fmap_mons_upd_mon by (intros; apply HP). reflexivity.
Qed.

Lemma detachstack_clients c s : clients (cl (detachstack c s)) = clients (cl s).
Proof.
  destruct (detachstack_frame c s) as [H _]. rewrite H. reflexivity.
Qed.

(** [focus] writes [isurgent] of the client it focuses, the stack chain,
    the selections and the selected monitor. *)
Lemma focus_frame {A B} (P : Monitor -> A) (Q : Client -> B) c s :
  (forall v m, P (set_sel v m) = P m) ->
  (forall b k, Q (set_isurgent b k) = Q k) ->
  P <$> mons (focus c s) = P <$> mons s
  /\ Q <$> heap (focus c s) = Q <$> heap s
  /\ clients (cl (focus c s)) = clients (cl s).
Proof.
  intros HP HQ. unfold focus.
  set (s1 := match c with Some c' => _ | None => s end).
  assert (H1 : mons s1 = mons s /\ heap s1 = heap s /\ cl s1 = cl s).
  { subst s1. destruct c as [c'|]; [|auto].
    destruct (heap s !! c'); [|auto].
    destruct (bool_decide _); auto. }
  destruct H1 as (M1 & E1 & C1).
  destruct (mons s1 !! selmon s1) as [sm|]; [|rewrite M1, E1, C1; auto].
  set (c1 := match c with Some c' => _ | None => _ end). clearbody c1.
  destruct c1 as [c'|].
  - destruct (heap s1 !! c') as [k|].
    + set (s2 := if bool_decide _ then s1 else _).
      assert (H2 : mons s2 = mons s1 /\ heap s2 = heap s1 /\ cl s2 = cl s1)
        by (subst s2; destruct (bool_decide _); auto).
      destruct H2 as (M2 & E2 & C2).
      set (s3 := if isurgent k then _ else s2).
      assert (H3 : mons s3 = mons s2 /\ Q <$> heap s3 = Q <$> heap s2 /\ cl s3 = cl s2).
      { subst s3. destruct (isurgent k); [|auto].
        split; [reflexivity|]. split; [|reflexivity].
        apply fmap_heap_upd_client. intros; apply HQ. }
      destruct H3 as (M3 & E3 & C3).
      destruct (detachstack_frame c' s3) as [C4 E4].
      rewrite fmap_mons_upd_mon by (intros; apply HP).
      change (mons (attachstack c' (detachstack c' s3))) with (mons (detachstack c' s3)).
      rewrite (detachstack_fmap_mons P c' s3 HP), M3, M2, M1.
      split; [reflexivity|].
      change (heap (upd_mon _ _ (attachstack c' (detachstack c' s3))))
        with (heap (detachstack c' s3)).
      rewrite E4, E3, E2, E1. split; [reflexivity|].
      change (clients (cl (upd_mon _ _ (attachstack c' (detachstack c' s3)))))
        with (clients (cl (detachstack c' s3))).
      rewrite detachstack_clients, C3, C2, C1. reflexivity.
    + rewrite fmap_mons_upd_mon by (intros; apply HP).
      change (heap (upd_mon _ _ s1)) with (heap s1).
      change (cl (upd_mon _ _ s1)) with (cl s1).
      rewrite M1, E1, C1. auto.
  - rewrite fmap_mons_upd_mon by (intros; apply HP).
    change (heap (upd_mon _ _ s1)) with (heap s1).
    change (cl (upd_mon _ _ s1)) with (cl s1).
    rewrite M1, E1, C1. auto.
Qed.

(** [arrange] in the same terms. *)
Lemma arrange_frame {A B} (P : Monitor -> A) (Q : Client -> B) m s :
  (forall mm, P (nosym mm) = P mm) ->
  (forall k, Q (nongeom k) = Q k) ->
  P <$> mons (arrange m s) = P <$> mons s
  /\ Q <$> heap (arrange m s) = Q <$> heap s
  /\ cl (arrange m s) = cl s
  /\ selmon (arrange m s) = selmon s.
Proof.
  intros HP HQ. pose proof (skeleton_arrange m s) as H.
  split; [apply (skeleton_fmap_mons P _ _ HP H)|].
  split; [apply (skeleton_fmap_heap Q _ _ HQ H)|].
  split; [apply (skeleton_cl _ _ H)|apply (skeleton_selmon _ _ H)].
Qed.

(** ** The number of master clients *)

(** X13.  [incnmaster] never leaves the selected monitor with a negative
    [nmaster]: the new value is [nmaster + i] (in [int] arithmetic) or 0
    when that is negative; the other monitors keep theirs, and the selected
    monitor stays selected. *)
Theorem incnmaster_nonnegative i s sm :
  mons s !! selmon s = Some sm ->
  selmon (incnmaster i s) = selmon s
  /\ (exists sm', mons (incnmaster i s) !! selmon s = Some sm'
                  /\ nmaster sm' = Z.max (nmaster sm +i i) 0
                  /\ 0 <= nmaster sm')
  /\ (forall j mj, j <> selmon s -> mons s !! j = Some mj ->
        exists mj', mons (incnmaster i s) !! j = Some mj' /\ nmaster mj' = nmaster mj).
Proof.
  intros Hsm. unfold incnmaster.
  set (s1 := upd_mon (selmon s) _ s).
  destruct (arrange_frame nmaster (fun _ => tt) (Some (selmon s)) s1)
    as (HP & _ & _ & Hsel);
    [reflexivity|reflexivity|].
  split; [exact Hsel|]. split.
  - assert (H1 : mons s1 !! selmon s
                 = Some (set_nmaster (Z.max (nmaster sm +i i) 0) sm)).
    { subst s1. rewrite mons_upd_mon, list_lookup_alter_eq, Hsm. reflexivity. }
    destruct (fmap_mons_lookup nmaster _ _ _ _ HP H1) as (sm' & Hsm' & E).
    exists sm'. split; [exact Hsm'|]. simpl in E. split; [exact E|]. rewrite E. lia.
  - intros j mj Hj Hmj.
    assert (H1 : mons s1 !! j = Some mj).
    { subst s1. rewrite mons_upd_mon, list_lookup_alter_ne by congruence. exact Hmj. }
    apply (fmap_mons_lookup nmaster _ _ _ _ HP H1).
Qed.

Lemma incnmaster_nonnegative_witness :
  selmon (incnmaster (-5) monocle_one_client) = 0%nat
  /\ (exists sm', mons (incnmaster (-5) monocle_one_client) !! 0%nat = Some sm'
                  /\ nmaster sm' = Z.max (1 +i (-5)) 0
                  /\ 0 <= nmaster sm')
  /\ (forall j mj, j <> 0%nat -> mons monocle_one_client !! j = Some mj ->
        exists mj', mons (incnmaster (-5) monocle_one_client) !! j = Some mj'
                    /\ nmaster mj' = nmaster mj).
Proof.
  exact (incnmaster_nonnegative (-5) monocle_one_client _ eq_refl).
Defined.

(** ** Floating *)

Lemma skeleton_upd_client_congr c (f g : Client -> Client) s s' :
  (forall k, nongeom (f k) = g (nongeom k)) ->
  skeleton s' = skeleton s ->
  skeleton (upd_client c f s') = skeleton (upd_client c f s).
Proof.
  intros Hf H. unfold skeleton, upd_client. simpl.
  rewrite !(fmap_alter nongeom f g) by (intros; apply Hf).
  pose proof (f_equal heap H) as Hh. pose proof (f_equal mons H) as Hm.
  pose proof (f_equal selmon H) as Hs. pose proof (f_equal cl H) as Hc.
  pose proof (f_equal bh H) as Hb. pose proof (f_equal sw H) as Hw.
  pose proof (f_equal sh H) as Hsh. simpl in *.
  rewrite Hh, Hm, Hs, Hc, Hb, Hw, Hsh. reflexivity.
Qed.

Lemma togglefloating_unfold s sm c k :
  mons s !! selmon s = Some sm -> sel sm = Some c -> heap s !! c = Some k ->
  isfullscreen k = false ->
  skeleton (togglefloating s)
  = skeleton (upd_client c (set_isfloating (negb (isfloating k) || isfixed k)) s).
Proof.
  intros Hsm Hsel Hk Hfs. unfold togglefloating. rewrite Hsm, Hsel, Hk, Hfs. cbv zeta.
  rewrite skeleton_arrange.
  destruct (negb (isfloating k) || isfixed k); [apply skeleton_resize|reflexivity].
Qed.

(** X14.  [togglefloating] on the selected client [c]: a fullscreen client
    is left alone; otherwise only the client's [isfloating] flag, client
    geometry, layout symbols and X requests change, the flag is inverted,
    except that a fixed-size client is always floating afterwards; and for
    a client that is not of fixed size, toggling twice gives back the
    state up to geometry, layout symbols and X requests. *)
Theorem togglefloating_toggles s sm c k :
  mons s !! selmon s = Some sm -> sel sm = Some c -> heap s !! c = Some k ->
  (isfullscreen k = true -> togglefloating s = s)
  /\ (isfullscreen k = false ->
      skeleton (togglefloating s)
      = skeleton (upd_client c (set_isfloating (negb (isfloating k) || isfixed k)) s)
      /\ (exists k', heap (togglefloating s) !! c = Some k'
                     /\ isfloating k' = negb (isfloating k) || isfixed k)
      /\ (isfixed k = false ->
          skeleton (togglefloating (togglefloating s)) = skeleton s)).
Proof.
  intros Hsm Hsel Hk. split.
  - intros Hfs. unfold togglefloating. rewrite Hsm, Hsel, Hk, Hfs. reflexivity.
  - intros Hfs.
    pose proof (togglefloating_unfold s sm c k Hsm Hsel Hk Hfs) as Hsk.
    set (f := negb (isfloating k) || isfixed k) in *.
    assert (Hk1 : heap (upd_client c (set_isfloating f) s) !! c = Some (set_isfloating f k))
      by (apply lookup_upd_client_eq, Hk).
    destruct (skeleton_heap_Some _ _ c _ (eq_sym Hsk) Hk1) as (k' & Hk' & Ek').
    split; [exact Hsk|]. split.
    + exists k'. split; [exact Hk'|]. exact (f_equal isfloating Ek').
    + intros Hfix.
      assert (Hsm1 : mons (upd_client c (set_isfloating f) s) !! selmon s = Some sm)
        by exact Hsm.
      destruct (skeleton_mons_Some _ _ _ _ (eq_sym Hsk) Hsm1) as (sm' & Hsm' & Esm').
      assert (Hs' : selmon (togglefloating s) = selmon s)
        by exact (skeleton_selmon _ _ Hsk).
      rewrite <- Hs' in Hsm'.
      rewrite (togglefloating_unfold (togglefloating s) sm' c k' Hsm'
                 (eq_trans (f_equal sel Esm') Hsel) Hk'
                 (eq_trans (f_equal isfullscreen Ek') Hfs)).
      rewrite (skeleton_upd_client_congr c
                 (set_isfloating (negb (isfloating k') || isfixed k'))
                 (set_isfloating (negb (isfloating k') || isfixed k')) _ _
                 (fun _ => eq_refl) Hsk).
      assert (Efl : isfloating k' = f) by exact (f_equal isfloating Ek').
      assert (Efx : isfixed k' = isfixed k) by exact (f_equal isfixed Ek').
      rewrite Efl, Efx. subst f. rewrite Hfix, !orb_false_r, negb_involutive.
      unfold skeleton, upd_client. simpl. f_equal.
      rewrite alter_alter_eq.
      rewrite (fmap_alter nongeom _ id).
      * apply alter_id. reflexivity.
      * intros k0 Hk0. rewrite Hk in Hk0. injection Hk0 as <-.
        destruct k; reflexivity.
Qed.

Lemma togglefloating_toggles_witness :
  exists k', heap (togglefloating selected_client_world) !! 1%nat = Some k'
             /\ isfloating k' = true.
Proof.
  destruct (proj2 (togglefloating_toggles selected_client_world _ 1%nat _
                     eq_refl eq_refl eq_refl) eq_refl) as (_ & H & _).
  exact H.
Defined.

(** ** Tagging the selected client *)

Lemma focus_stable c s :
  mstable <$> mons (focus c s) = mstable <$> mons s
  /\ stable <$> heap (focus c s) = stable <$> heap s
  /\ clients (cl (focus c s)) = clients (cl s).
Proof. apply focus_frame; reflexivity. Qed.

Lemma stable_nongeom k : stable (nongeom k) = stable k.
Proof. destruct k. vm_compute. reflexivity. Qed.

Lemma mstable_nosym m : mstable (nosym m) = mstable m.
Proof. destruct m. vm_compute. reflexivity. Qed.

Lemma arrange_stable m s :
  mstable <$> mons (arrange m s) = mstable <$> mons s
  /\ stable <$> heap (arrange m s) = stable <$> heap s
  /\ cl (arrange m s) = cl s
  /\ selmon (arrange m s) = selmon s.
Proof. apply arrange_frame; [apply mstable_nosym|apply stable_nongeom]. Qed.

(** A client keeps its stable part through [focus] and [arrange]. *)
Lemma focus_lookup c0 s c k :
  heap s !! c = Some k ->
  exists k', heap (focus c0 s) !! c = Some k' /\ stable k' = stable k.
Proof.
  intros Hk. destruct (focus_stable c0 s) as (_ & H & _).
  apply (fmap_heap_lookup stable _ _ _ _ H Hk).
Qed.

Lemma arrange_lookup m s c k :
  heap s !! c = Some k ->
  exists k', heap (arrange m s) !! c = Some k' /\ stable k' = stable k.
Proof.
  intros Hk. destruct (arrange_stable m s) as (_ & H & _).
  apply (fmap_heap_lookup stable _ _ _ _ H Hk).
Qed.

Lemma focus_lookup_mon c0 s i m :
  mons s !! i = Some m ->
  exists m', mons (focus c0 s) !! i = Some m' /\ mstable m' = mstable m.
Proof.
  intros Hm. destruct (focus_stable c0 s) as (H & _).
  apply (fmap_mons_lookup mstable _ _ _ _ H Hm).
Qed.

Lemma arrange_lookup_mon m0 s i m :
  mons s !! i = Some m ->
  exists m', mons (arrange m0 s) !! i = Some m' /\ mstable m' = mstable m.
Proof.
  intros Hm. destruct (arrange_stable m0 s) as (H & _).
  apply (fmap_mons_lookup mstable _ _ _ _ H Hm).
Qed.

Lemma view_find_Some l selm nt i m :
  view_find l selm nt = Some (i, m) ->
  (i, m) ∈ l /\ i <> selm /\ Z.land nt (seltagset m) <> 0.
Proof.
  induction l as [|[j mj] l IH]; simpl; [discriminate|].
  destruct (negb (bool_decide (j = selm)) && negb (Z.land nt (seltagset mj) =? 0)) eqn:E.
  - intros [= -> ->]. apply andb_true_iff in E. destruct E as [E1 E2].
    apply negb_true_iff in E1, E2. apply bool_decide_eq_false in E1.
    apply Z.eqb_neq in E2. split; [apply list_elem_of_here|auto].
  - intros H. destruct (IH H) as (H1 & H2 & H3).
    split; [apply list_elem_of_further, H1|auto].
Qed.

Lemma view_find_None l selm nt :
  view_find l selm nt = None ->
  forall i m, (i, m) ∈ l -> i <> selm -> Z.land nt (seltagset m) = 0.
Proof.
  induction l as [|[j mj] l IH]; simpl; intros H i m Hin Hne.
  - apply elem_of_nil in Hin. contradiction.
  - destruct (negb (bool_decide (j = selm)) && negb (Z.land nt (seltagset mj) =? 0)) eqn:E;
      [discriminate|].
    apply elem_of_cons in Hin. destruct Hin as [[= -> ->]|Hin]; [|apply (IH H i m Hin Hne)].
    apply andb_false_iff in E. destruct E as [E|E]; apply negb_false_iff in E.
    + apply bool_decide_eq_true in E. contradiction.
    + apply Z.eqb_eq in E. exact E.
Qed.

(** X15.  [tag(ui)] with a client [c] selected.  Nothing changes when
    [ui & TAGMASK] is 0, and nothing changes when the new tags are shown
    both on another monitor and on the selected one.  Otherwise [c] ends
    with exactly the tags [ui & TAGMASK]; it keeps its monitor when no
    other monitor shows one of these tags, and otherwise belongs to a
    monitor other than the selected one that shows one of them. *)
Theorem tag_retags_selected ui s sm c k :
  mons s !! selmon s = Some sm -> sel sm = Some c -> heap s !! c = Some k ->
  let newtags := Z.land ui TAGMASK in
  let shown_elsewhere :=
    exists i m, i <> selmon s /\ mons s !! i = Some m
                /\ Z.land newtags (seltagset m) <> 0 in
  (newtags = 0 -> tag ui s = s)
  /\ (shown_elsewhere -> Z.land newtags (seltagset sm) <> 0 -> tag ui s = s)
  /\ (newtags <> 0 -> (shown_elsewhere -> Z.land newtags (seltagset sm) = 0) ->
      exists k', heap (tag ui s) !! c = Some k' /\ tags k' = newtags
                 /\ ((~ shown_elsewhere /\ mon k' = mon k)
                     \/ (exists m, mons s !! mon k' = Some m /\ mon k' <> selmon s
                                   /\ Z.land newtags (seltagset m) <> 0))).
Proof.
  intros Hsm Hsel Hk newtags shown_elsewhere. unfold tag. rewrite Hsm, Hsel.
  fold newtags.
  split; [intros ->; reflexivity|].
  destruct (newtags =? 0) eqn:Hz.
  { apply Z.eqb_eq in Hz. split; [reflexivity|]. intros Hnz. contradiction. }
  cbv zeta.
  destruct (view_find _ (selmon s) newtags) as [[i m]|] eqn:Hvf.
  - destruct (view_find_Some _ _ _ _ _ Hvf) as (Hin & Hne & Hland).
    apply elem_of_numbered in Hin.
    destruct (Z.land newtags (seltagset sm) =? 0) eqn:Hs; cbn [negb].
    + apply Z.eqb_eq in Hs. split; [intros _ Hc; contradiction|].
      intros _ _.
      set (s0 := upd_mon i (set_sel (Some c))
                   (upd_client c (fun k0 => set_mon i (set_tags newtags k0)) s)).
      assert (H0 : heap s0 !! c = Some (set_mon i (set_tags newtags k)))
        by exact (lookup_upd_client_eq c (fun k0 => set_mon i (set_tags newtags k0)) s k Hk).
      destruct (arrange_lookup (Some i) s0 c _ H0) as (k1 & Hk1 & E1).
      set (s1 := arrange (Some i) s0) in *.
      assert (H2 : heap (upd_client c (set_tags newtags) s1) !! c
                   = Some (set_tags newtags k1))
        by (apply lookup_upd_client_eq, Hk1).
      destruct (focus_lookup None _ c _ H2) as (k2 & Hk2 & E2).
      set (s2 := focus None _) in *.
      destruct (arrange_lookup (Some (selmon s2)) s2 c _ Hk2) as (k3 & Hk3 & E3).
      exists k3. split; [exact Hk3|].
      assert (Et : tags k3 = newtags).
      { rewrite (f_equal tags E3 : tags k3 = tags k2).
        exact (f_equal tags E2). }
      assert (Em : mon k3 = i).
      { rewrite (f_equal mon E3 : mon k3 = mon k2).
        rewrite (f_equal mon E2 : mon k2 = mon k1).
        exact (f_equal mon E1). }
      split; [exact Et|]. right. exists m. rewrite Em. auto.
    + apply Z.eqb_neq in Hs. split; [reflexivity|].
      intros _ Hc. exfalso. apply Hs, Hc. exists i, m. auto.
  - assert (Hnot : ~ shown_elsewhere).
    { intros (i & m & Hne & Hm & Hland). apply Hland.
      apply (view_find_None _ _ _ Hvf i m); [apply elem_of_numbered, Hm|exact Hne]. }
    split; [intros Hc; contradiction|].
    intros _ _.
    assert (H2 : heap (upd_client c (set_tags newtags) s) !! c = Some (set_tags newtags k))
      by (apply lookup_upd_client_eq, Hk).
    destruct (focus_lookup None _ c _ H2) as (k2 & Hk2 & E2).
    set (s2 := focus None _) in *.
    destruct (arrange_lookup (Some (selmon s2)) s2 c _ Hk2) as (k3 & Hk3 & E3).
    exists k3. split; [exact Hk3|].
    split; [rewrite (f_equal tags E3 : tags k3 = tags k2); exact (f_equal tags E2)|].
    left. split; [exact Hnot|].
    rewrite (f_equal mon E3 : mon k3 = mon k2). exact (f_equal mon E2).
Qed.

Lemma tag_retags_selected_witness :
  exists k', heap (tag 2 two_monitors_selected) !! 1%nat = Some k' /\ tags k' = 2.
Proof.
  destruct (proj2 (proj2 (tag_retags_selected 2 two_monitors_selected _ 1%nat _
                            eq_refl eq_refl eq_refl))
              ltac:(vm_compute; discriminate) ltac:(intros _; reflexivity))
    as (k' & Hk' & Ht & _).
  exists k'. split; [exact Hk'|exact Ht].
Defined.

(** X16.  [toggletag(ui)] with a client [c] selected never takes the last
    tag from [c] and never gives it a tag that another monitor shows: it
    either changes nothing, which it does when the toggled tag set would
    be empty or would contain a tag shown on another monitor, or [c] ends
    with the toggled tag set, which is then not empty and shares no tag
    with what any other monitor shows.  [c] keeps its monitor. *)
Theorem toggletag_keeps_a_tag ui s sm c k :
  mons s !! selmon s = Some sm -> sel sm = Some c -> heap s !! c = Some k ->
  let newtags := Z.lxor (tags k) (Z.land ui TAGMASK) in
  let shown_elsewhere :=
    exists i m, i <> selmon s /\ mons s !! i = Some m
                /\ Z.land newtags (seltagset m) <> 0 in
  (newtags = 0 \/ shown_elsewhere -> toggletag ui s = s)
  /\ (newtags <> 0 -> ~ shown_elsewhere ->
      exists k', heap (toggletag ui s) !! c = Some k'
                 /\ tags k' = newtags /\ mon k' = mon k
                 /\ forall i m, i <> selmon s -> mons s !! i = Some m ->
                      Z.land (tags k') (seltagset m) = 0).
Proof.
  intros Hsm Hsel Hk newtags shown_elsewhere. unfold toggletag.
  rewrite Hsm, Hsel, Hk. fold newtags. cbv zeta.
  destruct (newtags =? 0) eqn:Hz.
  { apply Z.eqb_eq in Hz. split; [reflexivity|]. intros Hnz. contradiction. }
  apply Z.eqb_neq in Hz.
  destruct (view_find _ (selmon s) newtags) as [[i m]|] eqn:Hvf.
  - split; [reflexivity|]. intros _ Hnot. exfalso. apply Hnot.
    destruct (view_find_Some _ _ _ _ _ Hvf) as (Hin & Hne & Hland).
    apply elem_of_numbered in Hin. exists i, m. auto.
  - assert (Hnone : forall i m, i <> selmon s -> mons s !! i = Some m ->
                      Z.land newtags (seltagset m) = 0).
    { intros i m Hne Hm.
      apply (view_find_None _ _ _ Hvf i m); [apply elem_of_numbered, Hm|exact Hne]. }
    split.
    + intros [H0|(i & m & Hne & Hm & Hland)]; [contradiction|].
      exfalso. apply Hland, (Hnone i m Hne Hm).
    + intros _ _.
      assert (H2 : heap (upd_client c (set_tags newtags) s) !! c = Some (set_tags newtags k))
        by (apply lookup_upd_client_eq, Hk).
      destruct (focus_lookup None _ c _ H2) as (k2 & Hk2 & E2).
      set (s2 := focus None _) in *.
      destruct (arrange_lookup (Some (selmon s2)) s2 c _ Hk2) as (k3 & Hk3 & E3).
      assert (Et : tags k3 = newtags).
      { rewrite (f_equal tags E3 : tags k3 = tags k2). exact (f_equal tags E2). }
      exists k3. split; [exact Hk3|]. split; [exact Et|]. split.
      * rewrite (f_equal mon E3 : mon k3 = mon k2). exact (f_equal mon E2).
      * rewrite Et. exact Hnone.
Qed.

Lemma toggletag_keeps_a_tag_witness :
  toggletag 1 two_monitors_selected = two_monitors_selected
  /\ toggletag 2 two_monitors_selected = two_monitors_selected
  /\ exists k', heap (toggletag 4 two_monitors_selected) !! 1%nat = Some k'
                /\ tags k' = 5.
Proof.
  pose proof (toggletag_keeps_a_tag 1 two_monitors_selected _ 1%nat _
                eq_refl eq_refl eq_refl) as [H1 _].
  pose proof (toggletag_keeps_a_tag 2 two_monitors_selected _ 1%nat _
                eq_refl eq_refl eq_refl) as [H2 _].
  pose proof (toggletag_keeps_a_tag 4 two_monitors_selected _ 1%nat _
                eq_refl eq_refl eq_refl) as [_ H4].
  split; [apply H1; left; reflexivity|].
  split.
  - apply H2. right. exists 1%nat, (sample_monitor 1 1920 2 layout_monocle).
    split; [discriminate|]. split; [reflexivity|]. vm_compute. discriminate.
  - destruct H4 as (k' & Hk' & Ht & _).
    + vm_compute. discriminate.
    + intros (i & m & Hne & Hm & Hland).
      destruct i as [|[|i]]; [contradiction| |discriminate].
      injection Hm as <-. apply Hland. reflexivity.
    + exists k'. split; [exact Hk'|exact Ht].
Defined.

(** ** Moving a client within the client chain *)

Lemma pop_clients c s :
  clients (cl (pop c s)) = c :: unlink c (clients (cl s)).
Proof.
  unfold pop. cbv zeta.
  set (s1 := focus (Some c) (attach c (detach c s))).
  assert (H1 : clients (cl s1) = c :: unlink c (clients (cl s))).
  { subst s1. destruct (focus_stable (Some c) (attach c (detach c s))) as (_ & _ & H).
    rewrite H. reflexivity. }
  destruct (heap s1 !! c) as [k|]; [|exact H1].
  destruct (arrange_stable (Some (mon k)) s1) as (_ & _ & H & _).
  rewrite H. exact H1.
Qed.

(** X17.  [zoom] changes nothing under the floating layout and when the
    selected client floats.  Otherwise, with a tiled client [c] selected on
    a client chain without repetition: when [c] is the first tiled client
    and the only one, nothing changes; when it is the first and [c'] is the
    next tiled client, [c'] becomes the head of the client chain; when it
    is not the first, [c] becomes the head; in both cases the other clients
    keep their order.  With no client selected while a tiled client is
    visible, [zoom] calls [pop] on the null pointer. *)
Theorem zoom_promotes s sm :
  mons s !! selmon s = Some sm -> NoDup (clients (cl s)) ->
  let first := nexttiled (heap s) (clients (cl s)) sm in
  (has_arrange sm = false -> zoom s = Some s)
  /\ (forall c k, sel sm = Some c -> heap s !! c = Some k ->
        (isfloating k = true -> zoom s = Some s)
        /\ (has_arrange sm = true -> isfloating k = false ->
            let second := nexttiled (heap s) (next_of c (clients (cl s))) sm in
            (first = Some c -> second = None -> zoom s = Some s)
            /\ (forall c', first = Some c -> second = Some c' ->
                  exists s', zoom s = Some s'
                    /\ clients (cl s') = c' :: filter (fun a => a <> c') (clients (cl s)))
            /\ (first <> Some c ->
                  exists s', zoom s = Some s'
                    /\ clients (cl s') = c :: filter (fun a => a <> c) (clients (cl s)))))
  /\ (has_arrange sm = true -> sel sm = None ->
      (first = None -> zoom s = Some s) /\ (first <> None -> zoom s = None)).
Proof.
  intros Hsm Hnd first. unfold zoom. rewrite Hsm. fold first.
  split; [intros ->; reflexivity|]. split.
  - intros c k Hsel Hk. rewrite Hsel, Hk. split.
    + intros ->. rewrite orb_true_r. reflexivity.
    + intros -> ->. cbn [negb orb]. cbv zeta.
      split; [|split].
      * intros -> ->. rewrite bool_decide_eq_true_2 by reflexivity. reflexivity.
      * intros c' -> ->. rewrite bool_decide_eq_true_2 by reflexivity.
        eexists. split; [reflexivity|].
        rewrite pop_clients, unlink_filter by exact Hnd. reflexivity.
      * intros Hne. rewrite bool_decide_eq_false_2 by congruence.
        eexists. split; [reflexivity|].
        rewrite pop_clients, unlink_filter by exact Hnd. reflexivity.
  - intros -> Hsel. rewrite Hsel. cbn [negb orb]. split.
    + intros ->. rewrite bool_decide_eq_true_2 by reflexivity. reflexivity.
    + intros Hne. rewrite bool_decide_eq_false_2 by congruence. reflexivity.
Qed.

Lemma zoom_promotes_witness :
  exists s', zoom two_tiled_selected = Some s' /\ clients (cl s') = [1%nat; 2%nat].
Proof.
  assert (Hnd : NoDup [2%nat; 1%nat])
    by (apply NoDup_cons; split;
        [rewrite list_elem_of_singleton; discriminate | apply NoDup_singleton]).
  destruct (proj1 (proj2 (zoom_promotes two_tiled_selected _ eq_refl Hnd))
              2%nat _ eq_refl eq_refl) as [_ H].
  destruct (H eq_refl eq_refl) as (_ & H2 & _).
  destruct (H2 1%nat eq_refl eq_refl) as (s' & Hz & Hc).
  exists s'. split; [exact Hz|exact Hc].
Defined.

(** ** Sending a client to a monitor *)

(** X18.  [sendmon(c, m)] does nothing when [c] already belongs to [m].
    Otherwise [c] ends on monitor [m] with exactly the tags [m] shows (tag 1
    when [m] shows none), so it is visible there when [m] shows any tag; [m]
    shows the same tags as before; and [c] is the new head of the client
    chain, the other clients keeping their order. *)
Theorem sendmon_moves c m s k mm :
  heap s !! c = Some k -> mons s !! m = Some mm ->
  (mon k = m -> sendmon c m s = s)
  /\ (mon k <> m -> NoDup (clients (cl s)) ->
      clients (cl (sendmon c m s)) = c :: filter (fun a => a <> c) (clients (cl s))
      /\ exists k' mm',
           heap (sendmon c m s) !! c = Some k' /\ mons (sendmon c m s) !! m = Some mm'
           /\ mon k' = m /\ seltagset mm' = seltagset mm
           /\ tags k' = (if seltagset mm =? 0 then 1 else seltagset mm)
           /\ (seltagset mm <> 0 -> ISVISIBLE k' mm' = true)).
Proof.
  intros Hk Hmm. unfold sendmon. rewrite Hk. split.
  - intros ->. rewrite bool_decide_eq_true_2 by reflexivity. reflexivity.
  - intros Hne Hnd. rewrite bool_decide_eq_false_2 by exact Hne. cbv zeta.
    set (hadfocus := match mons s !! selmon s with Some _ => _ | None => false end).
    clearbody hadfocus.
    set (s0 := detachstack c (detach c s)).
    destruct (detachstack_frame c (detach c s)) as [Hcl0 Hheap0]. fold s0 in Hcl0, Hheap0.
    assert (Hk0 : heap s0 !! c = Some k) by (rewrite Hheap0; exact Hk).
    assert (Hm0 : exists m0, mons s0 !! m = Some m0 /\ mstable m0 = mstable mm).
    { apply (fmap_mons_lookup mstable (mons (detach c s)));
        [apply detachstack_fmap_mons; reflexivity|exact Hmm]. }
    destruct Hm0 as (m0 & Hm0 & Em0).
    destruct (arrange_lookup (Some (mon k)) s0 c k Hk0) as (k1 & Hk1 & E1).
    destruct (arrange_lookup_mon (Some (mon k)) s0 m m0 Hm0) as (m1 & Hm1 & Em1).
    destruct (arrange_stable (Some (mon k)) s0) as (_ & _ & Hcl1 & _).
    set (s1 := arrange (Some (mon k)) s0) in *.
    rewrite Hm1.
    assert (Ets : seltagset m1 = seltagset mm).
    { change (seltagset (mstable m1) = seltagset (mstable mm)). rewrite Em1, Em0. reflexivity. }
    rewrite Ets.
    set (t := if seltagset mm =? 0 then 1 else seltagset mm).
    set (s2 := upd_client c (fun k0 => set_tags t (set_mon m k0)) s1).
    assert (Hk2 : heap s2 !! c = Some (set_tags t (set_mon m k1)))
      by exact (lookup_upd_client_eq c (fun k0 => set_tags t (set_mon m k0)) s1 k1 Hk1).
    set (s2' := attachstack c (attach c s2)).
    assert (Hk2' : heap s2' !! c = Some (set_tags t (set_mon m k1))) by exact Hk2.
    assert (Hm2' : mons s2' !! m = Some m1) by exact Hm1.
    destruct (arrange_lookup (Some m) s2' c _ Hk2') as (k3 & Hk3 & E3).
    destruct (arrange_lookup_mon (Some m) s2' m m1 Hm2') as (m3 & Hm3 & Em3).
    destruct (arrange_stable (Some m) s2') as (_ & _ & Hcl3 & _).
    set (s3 := arrange (Some m) s2') in *.
    assert (Hfin : forall c0,
              clients (cl (focus c0 s3)) = c :: filter (fun a => a <> c) (clients (cl s))
              /\ exists k' mm',
                   heap (focus c0 s3) !! c = Some k' /\ mons (focus c0 s3) !! m = Some mm'
                   /\ mon k' = m /\ seltagset mm' = seltagset mm /\ tags k' = t
                   /\ (seltagset mm <> 0 -> ISVISIBLE k' mm' = true)).
    { intros c0.
      destruct (focus_lookup c0 s3 c k3 Hk3) as (k4 & Hk4 & E4).
      destruct (focus_lookup_mon c0 s3 m m3 Hm3) as (m4 & Hm4 & Em4).
      destruct (focus_stable c0 s3) as (_ & _ & Hcl4).
      split.
      - rewrite Hcl4, Hcl3. change (clients (cl s2')) with (c :: clients (cl s1)).
        rewrite Hcl1, Hcl0. simpl. rewrite unlink_filter by exact Hnd. reflexivity.
      - exists k4, m4.
        assert (Et : tags k4 = t).
        { change (tags (stable k4) = t). rewrite E4, E3. reflexivity. }
        assert (Em : mon k4 = m).
        { change (mon (stable k4) = m). rewrite E4, E3. reflexivity. }
        assert (Es : seltagset m4 = seltagset mm).
        { change (seltagset (mstable m4) = seltagset mm). rewrite Em4, Em3.
          exact Ets. }
        repeat split; try assumption.
        intros Hnz. unfold ISVISIBLE. rewrite Et, Es. subst t.
        rewrite (proj2 (Z.eqb_neq _ _) Hnz), Z.land_diag.
        rewrite (proj2 (Z.eqb_neq _ _) Hnz). reflexivity. }
    destruct hadfocus; apply Hfin.
Qed.

Lemma sendmon_moves_witness :
  clients (cl (sendmon 1%nat 1%nat two_monitors_two_clients)) = [1%nat; 2%nat]
  /\ exists k' mm',
       heap (sendmon 1%nat 1%nat two_monitors_two_clients) !! 1%nat = Some k'
       /\ mons (sendmon 1%nat 1%nat two_monitors_two_clients) !! 1%nat = Some mm'
       /\ mon k' = 1%nat /\ seltagset mm' = 2 /\ tags k' = 2
       /\ (2 <> 0 -> ISVISIBLE k' mm' = true).
Proof.
  assert (Hnd : NoDup [2%nat; 1%nat])
    by (apply NoDup_cons; split;
        [rewrite list_elem_of_singleton; discriminate | apply NoDup_singleton]).
  exact (proj2 (sendmon_moves 1%nat 1%nat two_monitors_two_clients _ _ eq_refl eq_refl)
           ltac:(discriminate) Hnd).
Defined.


(** ** Swallowing and the window of a client *)

(** X19.  After [swallow(p, c)] has swallowed, [wintoclient] maps the
    window that was the child's to the terminal [p], provided [p] is on the
    client chain and no other client of the chain had that window: events
    for the swallowed window reach the terminal's client. *)
Theorem swallow_redirects_window swallowfloating p c s kp kc :
  heap s !! p = Some kp -> heap s !! c = Some kc -> p <> c ->
  (noswallow kc || isterminal kc) = false ->
  p ∈ clients (cl s) -> NoDup (clients (cl s)) -> mons s <> [] ->
  (forall a ka, a ∈ clients (cl s) -> heap s !! a = Some ka -> win ka = win kc -> a = c) ->
  wintoclient (win kc) (swallow swallowfloating p c s) = Some p.
Proof.
  intros Hp Hc Hne Hg Hin Hnd Hms Huniq.
  destruct (swallow_heap swallowfloating p c s kp kc Hp Hc Hne Hg)
    as ((kp' & Hkp' & Ep) & _ & Hother & Hcl).
  assert (Hlen : length (mons (swallow swallowfloating p c s)) = length (mons s)).
  { unfold swallow. rewrite Hp, Hc, Hg.
    rewrite (swallow_second_guard_dead swallowfloating kc Hg). cbv zeta.
    destruct (updateclientlist_spec
                (arrange (Some (mon kp))
                   (updatetitle p
                      (upd_client c (set_win (win kp))
                         (upd_client p (set_win (win kc))
                            (upd_client c (set_mon (mon kp))
                               (upd_client p (set_swallowing (Some c))
                                  (detachstack c (detach c s)))))))))
      as (_ & _ & _ & _ & Hm).
    rewrite Hm.
    destruct (arrange_frame (fun _ => tt) (fun _ => tt) (Some (mon kp))
                (updatetitle p
                   (upd_client c (set_win (win kp))
                      (upd_client p (set_win (win kc))
                         (upd_client c (set_mon (mon kp))
                            (upd_client p (set_swallowing (Some c))
                               (detachstack c (detach c s))))))))
      as (Hm6 & _); [reflexivity|reflexivity|].
    apply (f_equal length) in Hm6. rewrite !length_fmap in Hm6. rewrite Hm6.
    pose proof (detachstack_fmap_mons (fun _ => tt) c (detach c s)
                  ltac:(reflexivity)) as H.
    apply (f_equal length) in H. rewrite !length_fmap in H. exact H. }
  cbv zeta in *. set (s' := swallow swallowfloating p c s) in *.
  unfold wintoclient. rewrite wintoclient_mons.
  destruct (mons s') as [|m' ms'] eqn:Hms'.
  { destruct (mons s); [congruence|discriminate]. }
  rewrite Hcl. cbn [clients].
  apply (wintoclient_chain_first _ _ _ p kp').
  - apply unlink_other; [exact Hne|exact Hin].
  - exact Hkp'.
  - exact (f_equal win Ep).
  - intros a ka Ha Hka Hwa.
    destruct (decide (a = p)) as [->|Hap]; [reflexivity|].
    destruct (decide (a = c)) as [->|Hac].
    + exfalso. exact (unlink_NoDup_not_in c _ Hnd Ha).
    + apply unlink_other in Ha; [|exact Hac].
      pose proof (Hother a Hap Hac) as Ha'. rewrite Hka in Ha'.
      destruct (heap s !! a) as [ka0|] eqn:Hka0; [|discriminate].
      simpl in Ha'. assert (Ea : stable ka = stable ka0) by congruence.
      exfalso. apply Hac. apply (Huniq a ka0 Ha Hka0).
      rewrite <- Hwa. symmetry. exact (f_equal win Ea).
Qed.

Lemma swallow_redirects_window_witness :
  wintoclient 20 (swallow false 1%nat 2%nat terminal_child_and_other) = Some 1%nat.
Proof.
  assert (Hnd3 : NoDup [3%nat; 2%nat; 1%nat]).
  { apply NoDup_cons. split.
    - rewrite elem_of_cons, list_elem_of_singleton. intros [H|H]; discriminate.
    - apply NoDup_cons; split;
        [rewrite list_elem_of_singleton; discriminate | apply NoDup_singleton]. }
  apply (swallow_redirects_window false 1%nat 2%nat terminal_child_and_other _ _
           eq_refl eq_refl ltac:(discriminate) eq_refl).
  - apply list_elem_of_further, list_elem_of_further, list_elem_of_here.
  - exact Hnd3.
  - discriminate.
  - intros a ka Ha Hka Hw.
    apply elem_of_cons in Ha. destruct Ha as [->|Ha].
    { vm_compute in Hka. injection Hka as <-. discriminate. }
    apply elem_of_cons in Ha. destruct Ha as [->|Ha]; [reflexivity|].
    apply list_elem_of_singleton in Ha. subst a.
    vm_compute in Hka. injection Hka as <-. discriminate.
Defined.

(** ** Unmanaging *)

Lemma identity_nongeom k : identity (nongeom k) = identity k.
Proof. destruct k. reflexivity. Qed.

Lemma identity_isurgent b k : identity (set_isurgent b k) = identity k.
Proof. destruct k. reflexivity. Qed.

Lemma identity_stable k k' : stable k = stable k' -> identity k = identity k'.
Proof.
  intros H. assert (E : forall a, identity (stable a) = identity a).
  { intros a. destruct a. reflexivity. }
  rewrite <- (E k), <- (E k'), H. reflexivity.
Qed.

Lemma arrange_identity m s :
  identity <$> heap (arrange m s) = identity <$> heap s.
Proof.
  destruct (arrange_frame (fun _ => tt) identity m s) as (_ & H & _);
    [reflexivity|apply identity_nongeom|exact H].
Qed.

Lemma focus_identity c s :
  identity <$> heap (focus c s) = identity <$> heap s.
Proof.
  destruct (focus_frame (fun _ => tt) identity c s) as (_ & H & _);
    [reflexivity|apply identity_isurgent|exact H].
Qed.

Lemma updatetitle_identity c s :
  identity <$> heap (updatetitle c s) = identity <$> heap s.
Proof.
  unfold updatetitle. apply fmap_heap_upd_client. intros k.
  destruct (gettextprop (net_wm_name (xserver s)) (win k)) as [ok t].
  destruct ok; simpl; destruct (bool_decide _); destruct k; reflexivity.
Qed.

(** Leaving fullscreen keeps every client's identity and the chains. *)
Lemma setfullscreen_off_identity c s :
  identity <$> heap (setfullscreen c false s) = identity <$> heap s
  /\ cl (setfullscreen c false s) = cl s.
Proof.
  unfold setfullscreen.
  destruct (heap s !! c) as [k|]; [|auto].
  destruct (mons s !! mon k) as [m|]; [|auto].
  cbn [andb negb]. destruct (isfullscreen k); [|auto]. cbv zeta.
  set (f := fun k0 : Client => set_h (oldh k0) _).
  set (s1 := upd_client c f s).
  assert (H1 : identity <$> heap s1 = identity <$> heap s /\ cl s1 = cl s).
  { split; [|reflexivity]. subst s1. apply fmap_heap_upd_client.
    intros k0. subst f. destruct k0. reflexivity. }
  destruct H1 as [H1 C1].
  set (s2 := match heap s1 !! c with Some k1 => _ | None => s1 end).
  assert (H2 : identity <$> heap s2 = identity <$> heap s1 /\ cl s2 = cl s1).
  { subst s2. destruct (heap s1 !! c) as [k1|]; [|auto].
    pose proof (skeleton_resizeclient c (x k1) (y k1) (w k1) (h k1) s1) as Hs.
    split; [apply (skeleton_fmap_heap identity _ _ identity_nongeom Hs)
           |apply (skeleton_cl _ _ Hs)]. }
  destruct H2 as [H2 C2].
  rewrite arrange_identity, H2, H1.
  destruct (arrange_frame (fun _ => tt) (fun _ => tt) (Some (mon k)) s2)
    as (_ & _ & C3 & _); [reflexivity|reflexivity|].
  rewrite C3, C2, C1. auto.
Qed.

(** What [unswallow] leaves: the swallowed client freed, the swallowing one
    with the window that client held. *)
Lemma unswallow_heap c s k d kd :
  heap s !! c = Some k -> swallowing k = Some d -> heap s !! d = Some kd ->
  c <> d ->
  let s' := unswallow c s in
  heap s' !! d = None
  /\ (exists k', heap s' !! c = Some k'
                 /\ identity k' = (win kd, None, mon k, tags k))
  /\ (forall q, q <> c -> q <> d ->
        identity <$> heap s' !! q = identity <$> heap s !! q)
  /\ clients (cl s') = clients (cl s).
Proof.
  intros Hk Hs Hd Hne. cbv zeta. unfold unswallow. rewrite Hk, Hs, Hd. cbv zeta.
  set (s2 := upd_client c (set_swallowing None)
               (free d (upd_client c (set_win (win kd)) s))).
  set (s3 := setfullscreen c false s2).
  set (s4 := arrange (Some (mon k)) (updatetitle c s3)).
  assert (E : identity <$> heap (arrange (Some (mon k)) (focus None s4))
              = identity <$> heap s2).
  { rewrite arrange_identity, focus_identity. subst s4.
    rewrite arrange_identity, updatetitle_identity. subst s3.
    apply setfullscreen_off_identity. }
  assert (C : clients (cl (arrange (Some (mon k)) (focus None s4)))
              = clients (cl s)).
  { destruct (arrange_stable (Some (mon k)) (focus None s4)) as (_ & _ & C1 & _).
    rewrite C1. destruct (focus_stable None s4) as (_ & _ & C2). rewrite C2.
    subst s4. destruct (arrange_stable (Some (mon k)) (updatetitle c s3))
      as (_ & _ & C3 & _). rewrite C3. unfold updatetitle.
    change (cl (upd_client c ?f s3)) with (cl s3). subst s3.
    destruct (setfullscreen_off_identity c s2) as [_ C4]. rewrite C4. reflexivity. }
  assert (H2 : heap s2 = alter (set_swallowing None) c
                           (delete d (alter (set_win (win kd)) c (heap s)))).
  { reflexivity. }
  split; [|split; [|split]].
  - apply (fmap_heap_lookup_None identity _ _ _ E).
    rewrite H2, lookup_alter_ne by congruence. apply lookup_delete_eq.
  - assert (Hc2 : heap s2 !! c = Some (set_swallowing None (set_win (win kd) k))).
    { rewrite H2, lookup_alter_eq, lookup_delete_ne by congruence.
      rewrite lookup_alter_eq, Hk. reflexivity. }
    destruct (fmap_heap_lookup identity _ _ _ _ E Hc2) as (k' & Hk' & Ek').
    exists k'. split; [exact Hk'|]. rewrite Ek'. destruct k. reflexivity.
  - intros q Hqc Hqd.
    pose proof (f_equal (fun hp => hp !! q) E) as Eq. cbv beta in Eq.
    rewrite !lookup_fmap in Eq. rewrite Eq, H2.
    rewrite lookup_alter_ne, lookup_delete_ne, lookup_alter_ne by congruence.
    reflexivity.
  - exact C.
Qed.

Lemma swallowingclient_chain_Some hp l wn t :
  swallowingclient_chain hp l wn = Some t ->
  t ∈ l /\ exists kt d kd, hp !! t = Some kt /\ swallowing kt = Some d
                           /\ hp !! d = Some kd /\ win kd = wn.
Proof.
  induction l as [|a l IH]; simpl; [discriminate|].
  intros H.
  assert (Hrec : swallowingclient_chain hp l wn = Some t ->
                 t ∈ a :: l /\ exists kt d kd, hp !! t = Some kt /\ swallowing kt = Some d
                                               /\ hp !! d = Some kd /\ win kd = wn).
  { intros H'. destruct (IH H') as [Hin Hex]. split; [right; exact Hin|exact Hex]. }
  destruct (hp !! a) as [ka|] eqn:Hka; [|auto].
  destruct (swallowing ka) as [d|] eqn:Hd; [|auto].
  destruct (hp !! d) as [kd|] eqn:Hkd; [|auto].
  destruct (win kd =? wn) eqn:Hw; [|auto].
  injection H as <-. split; [left|].
  exists ka, d, kd. apply Z.eqb_eq in Hw. auto.
Qed.

Lemma swallowingclient_chain_None hp l wn :
  swallowingclient_chain hp l wn = None ->
  forall t kt d kd, t ∈ l -> hp !! t = Some kt -> swallowing kt = Some d ->
                    hp !! d = Some kd -> win kd <> wn.
Proof.
  induction l as [|a l IH]; simpl; intros H t kt d kd Hin Hkt Hd Hkd.
  - inversion Hin.
  - apply elem_of_cons in Hin. destruct Hin as [->|Hin].
    + rewrite Hkt, Hd, Hkd in H. destruct (win kd =? wn) eqn:Hw; [discriminate|].
      apply Z.eqb_neq in Hw. exact Hw.
    + apply (IH ltac:(
        destruct (hp !! a) as [ka|]; [|exact H];
        destruct (swallowing ka) as [da|]; [|exact H];
        destruct (hp !! da) as [kda|]; [|exact H];
        destruct (win kda =? wn); [discriminate|exact H]) t kt d kd Hin Hkt Hd Hkd).
Qed.

Lemma swallowingclient_mons (ms : list Monitor) hp l wn r :
  foldl (fun r _ => match r with
                    | Some c => Some c
                    | None => swallowingclient_chain hp l wn
                    end) r ms
  = match r with
    | Some c => Some c
    | None => match ms with [] => None | _ => swallowingclient_chain hp l wn end
    end.
Proof.
  revert r. induction ms as [|m ms IH]; intros r; simpl.
  - destruct r; reflexivity.
  - rewrite IH. destruct r as [c|]; [reflexivity|].
    destruct (swallowingclient_chain hp l wn); [reflexivity|].
    destruct ms; reflexivity.
Qed.

(** No client swallows when no client of the chain swallows. *)
Lemma swallowingclient_none wn s :
  (forall t kt, t ∈ clients (cl s) -> heap s !! t = Some kt -> swallowing kt = None) ->
  swallowingclient wn s = None.
Proof.
  intros Hno. unfold swallowingclient. rewrite swallowingclient_mons.
  destruct (mons s); [reflexivity|].
  destruct (swallowingclient_chain _ _ _) as [t|] eqn:E; [|reflexivity].
  destruct (swallowingclient_chain_Some _ _ _ _ E) as (Hin & kt & d & kd & Hkt & Hd & _).
  rewrite (Hno t kt Hin Hkt) in Hd. discriminate.
Qed.

Lemma swallow_mons_length swallowfloating p c s :
  length (mons (swallow swallowfloating p c s)) = length (mons s).
Proof.
  unfold swallow.
  destruct (heap s !! p) as [kp|]; [|reflexivity].
  destruct (heap s !! c) as [kc|]; [|reflexivity].
  destruct (noswallow kc || isterminal kc); [reflexivity|].
  destruct (noswallow kc && negb swallowfloating && isfloating kc); [reflexivity|].
  cbv zeta.
  set (s5 := updatetitle p _).
  destruct (updateclientlist_spec (arrange (Some (mon kp)) s5)) as (_ & _ & _ & _ & Hm).
  rewrite Hm.
  destruct (arrange_frame (fun _ => tt) (fun _ => tt) (Some (mon kp)) s5)
    as (Hm6 & _); [reflexivity|reflexivity|].
  apply (f_equal length) in Hm6. rewrite !length_fmap in Hm6. rewrite Hm6.
  pose proof (detachstack_fmap_mons (fun _ => tt) c (detach c s)
                ltac:(reflexivity)) as H.
  apply (f_equal length) in H. rewrite !length_fmap in H. exact H.
Qed.

(** X20.  [unmanage] of a terminal that has swallowed undoes the swallowing:
    after [swallow(p, c)] has swallowed, [unmanage(p)] frees the client [c],
    and [p] is again a client with the window it had before, swallowing
    nothing, on its monitor and with its tags; [c] stays off the client
    chain, the other clients keep their place on it and their window,
    monitor and tags. *)
Theorem unmanage_terminal_unswallows swallowfloating destroyed p c s kp kc :
  heap s !! p = Some kp -> heap s !! c = Some kc -> p <> c ->
  (noswallow kc || isterminal kc) = false ->
  NoDup (clients (cl s)) ->
  let s' := unmanage p destroyed (swallow swallowfloating p c s) in
  heap s' !! c = None
  /\ (exists kp', heap s' !! p = Some kp'
                  /\ win kp' = win kp /\ swallowing kp' = None
                  /\ mon kp' = mon kp /\ tags kp' = tags kp)
  /\ clients (cl s') = filter (fun a => a <> c) (clients (cl s))
  /\ (forall q, q <> p -> q <> c ->
        identity <$> heap s' !! q = identity <$> heap s !! q).
Proof.
  intros Hp Hc Hne Hg Hnd.
  destruct (swallow_heap swallowfloating p c s kp kc Hp Hc Hne Hg)
    as ((kp1 & Hkp1 & Ep) & (kc1 & Hkc1 & Ec) & Hother & Hcl).
  cbv zeta in *. set (s1 := swallow swallowfloating p c s) in *.
  apply identity_stable in Ep. apply identity_stable in Ec.
  assert (Hsw : swallowing kp1 = Some c) by (injection Ep; intros; assumption).
  unfold unmanage. rewrite Hkp1, Hsw.
  destruct (unswallow_heap p s1 kp1 c kc1 Hkp1 Hsw Hkc1 Hne)
    as (Hd & (k' & Hk' & Ek') & Hq & Hcs).
  cbv zeta in *. split; [exact Hd|]. split; [|split].
  - exists k'. split; [exact Hk'|].
    injection Ek' as E1 E2 E3 E4. injection Ec as F1 F2 F3 F4.
    injection Ep as G1 G2 G3 G4. simpl in *.
    repeat split; congruence.
  - rewrite Hcs, Hcl. cbn [clients]. apply unlink_filter. exact Hnd.
  - intros q Hqp Hqc. rewrite (Hq q Hqp Hqc).
    pose proof (Hother q Hqp Hqc) as H.
    destruct (heap s1 !! q) as [a|], (heap s !! q) as [b|]; simpl in *;
      try discriminate; [|reflexivity].
    f_equal. apply identity_stable. congruence.
Qed.

Lemma unmanage_terminal_unswallows_witness :
  let s' := unmanage 1%nat true (swallow false 1%nat 2%nat terminal_child_and_other) in
  heap s' !! 2%nat = None
  /\ (exists kp', heap s' !! 1%nat = Some kp' /\ win kp' = 10 /\ swallowing kp' = None)
  /\ clients (cl s') = [3%nat; 1%nat].
Proof.
  assert (Hnd3 : NoDup [3%nat; 2%nat; 1%nat]).
  { apply NoDup_cons. split.
    - rewrite elem_of_cons, list_elem_of_singleton. intros [H|H]; discriminate.
    - apply NoDup_cons; split;
        [rewrite list_elem_of_singleton; discriminate | apply NoDup_singleton]. }
  destruct (unmanage_terminal_unswallows false true 1%nat 2%nat
              terminal_child_and_other _ _ eq_refl eq_refl ltac:(discriminate)
              eq_refl Hnd3) as (H1 & (kp' & Hkp' & Hw & Hs & _) & H3 & _).
  split; [exact H1|]. split; [|exact H3].
  exists kp'. split; [exact Hkp'|]. split; [exact Hw|exact Hs].
Defined.

Lemma swallowingclient_chain_first hp l wn t kt d kd :
  t ∈ l -> hp !! t = Some kt -> swallowing kt = Some d -> hp !! d = Some kd ->
  win kd = wn ->
  (forall a ka, a ∈ l -> hp !! a = Some ka -> a <> t -> swallowing ka = None) ->
  swallowingclient_chain hp l wn = Some t.
Proof.
  intros Hin Hkt Hd Hkd Hw Huniq.
  destruct (swallowingclient_chain hp l wn) as [a|] eqn:E.
  - destruct (swallowingclient_chain_Some _ _ _ _ E)
      as (Ha & ka & da & kda & Hka & Hda & _).
    destruct (decide (a = t)) as [->|Hat]; [reflexivity|].
    rewrite (Huniq a ka Ha Hka Hat) in Hda. discriminate.
  - exfalso. exact (swallowingclient_chain_None _ _ _ E t kt d kd Hin Hkt Hd Hkd Hw).
Qed.

(** X21.  When the window a swallowed client holds goes away, the terminal
    keeps the window it took over: after [swallow(p, c)] has swallowed, with
    [p] on the client chain, a monitor, and no other client of the chain
    swallowing, [unmanage(c)] frees the client [c], and [p] stays a client
    with the window that was [c]'s, swallowing nothing, on its monitor and
    with its tags; the client chain is the one [swallow] left. *)
Theorem unmanage_swallowed_keeps_window swallowfloating destroyed p c s kp kc :
  heap s !! p = Some kp -> heap s !! c = Some kc -> p <> c ->
  (noswallow kc || isterminal kc) = false ->
  swallowing kc = None ->
  p ∈ clients (cl s) -> NoDup (clients (cl s)) -> mons s <> [] ->
  (forall t kt, t ∈ clients (cl s) -> heap s !! t = Some kt -> t <> p ->
                swallowing kt = None) ->
  let s' := unmanage c destroyed (swallow swallowfloating p c s) in
  heap s' !! c = None
  /\ (exists kp', heap s' !! p = Some kp'
                  /\ win kp' = win kc /\ swallowing kp' = None
                  /\ mon kp' = mon kp /\ tags kp' = tags kp)
  /\ clients (cl s') = filter (fun a => a <> c) (clients (cl s))
  /\ (forall q, q <> p -> q <> c ->
        identity <$> heap s' !! q = identity <$> heap s !! q).
Proof.
  intros Hp Hc Hne Hg Hsc Hin Hnd Hms Hno.
  destruct (swallow_heap swallowfloating p c s kp kc Hp Hc Hne Hg)
    as ((kp1 & Hkp1 & Ep) & (kc1 & Hkc1 & Ec) & Hother & Hcl).
  pose proof (swallow_mons_length swallowfloating p c s) as Hlen.
  cbv zeta in *. set (s1 := swallow swallowfloating p c s) in *.
  apply identity_stable in Ep. apply identity_stable in Ec.
  injection Ep as G1 G2 G3 G4. injection Ec as F1 F2 F3 F4. simpl in *.
  assert (Hfind : swallowingclient (win kc1) s1 = Some p).
  { unfold swallowingclient. rewrite swallowingclient_mons.
    destruct (mons s1) as [|m1 ms1] eqn:Hms1.
    { destruct (mons s); [congruence|discriminate]. }
    rewrite Hcl. cbn [clients].
    apply (swallowingclient_chain_first _ _ _ p kp1 c kc1);
      [apply unlink_other; [exact Hne|exact Hin]|exact Hkp1|exact G2|exact Hkc1
      |reflexivity|].
    intros a ka Ha Hka Hap.
    destruct (decide (a = c)) as [->|Hac].
    { exfalso. exact (unlink_NoDup_not_in c _ Hnd Ha). }
    apply unlink_other in Ha; [|exact Hac].
    pose proof (Hother a Hap Hac) as Ha'. rewrite Hka in Ha'.
    destruct (heap s !! a) as [ka0|] eqn:Hka0; [|discriminate].
    simpl in Ha'. assert (Ea : stable ka = stable ka0) by congruence.
    apply identity_stable in Ea. injection Ea as _ Ea _ _.
    rewrite Ea. apply (Hno a ka0 Ha Hka0 Hap). }
  unfold unmanage. rewrite Hkc1, F2, Hsc, Hfind, Hkp1, G2.
  set (s2 := upd_client p (set_swallowing None) (free c s1)).
  assert (E : identity <$> heap (focus None (arrange (Some (mon kc1)) s2))
              = identity <$> heap s2).
  { rewrite focus_identity, arrange_identity. reflexivity. }
  assert (H2 : heap s2 = alter (set_swallowing None) p (delete c (heap s1))).
  { reflexivity. }
  split; [|split; [|split]].
  - apply (fmap_heap_lookup_None identity _ _ _ E).
    rewrite H2, lookup_alter_ne by congruence. apply lookup_delete_eq.
  - assert (Hp2 : heap s2 !! p = Some (set_swallowing None kp1)).
    { rewrite H2, lookup_alter_eq, lookup_delete_ne by congruence.
      rewrite Hkp1. reflexivity. }
    destruct (fmap_heap_lookup identity _ _ _ _ E Hp2) as (k' & Hk' & Ek').
    exists k'. split; [exact Hk'|].
    assert (Ek2 : identity (set_swallowing None kp1)
                  = (win kp1, None, mon kp1, tags kp1)).
    { destruct kp1. reflexivity. }
    rewrite Ek2 in Ek'. injection Ek' as E1 E2 E3 E4.
    repeat split; congruence.
  - destruct (focus_stable None (arrange (Some (mon kc1)) s2)) as (_ & _ & C1).
    rewrite C1.
    destruct (arrange_stable (Some (mon kc1)) s2) as (_ & _ & C2 & _).
    rewrite C2. change (cl s2) with (cl s1). rewrite Hcl. cbn [clients].
    apply unlink_filter. exact Hnd.
  - intros q Hqp Hqc.
    pose proof (f_equal (fun hp => hp !! q) E) as Eq. cbv beta in Eq.
    rewrite !lookup_fmap in Eq. rewrite Eq, H2.
    rewrite lookup_alter_ne, lookup_delete_ne by congruence.
    pose proof (Hother q Hqp Hqc) as H.
    destruct (heap s1 !! q) as [a|], (heap s !! q) as [b|]; simpl in *;
      try discriminate; [|reflexivity].
    f_equal. apply identity_stable. congruence.
Qed.

Lemma unmanage_swallowed_keeps_window_witness :
  let s' := unmanage 2%nat true (swallow false 1%nat 2%nat terminal_child_and_other) in
  heap s' !! 2%nat = None
  /\ (exists kp', heap s' !! 1%nat = Some kp' /\ win kp' = 20 /\ swallowing kp' = None)
  /\ clients (cl s') = [3%nat; 1%nat].
Proof.
  assert (Hnd3 : NoDup [3%nat; 2%nat; 1%nat]).
  { apply NoDup_cons. split.
    - rewrite elem_of_cons, list_elem_of_singleton. intros [H|H]; discriminate.
    - apply NoDup_cons; split;
        [rewrite list_elem_of_singleton; discriminate | apply NoDup_singleton]. }
  destruct (unmanage_swallowed_keeps_window false true 1%nat 2%nat
              terminal_child_and_other _ _ eq_refl eq_refl ltac:(discriminate)
              eq_refl eq_refl)
    as (H1 & (kp' & Hkp' & Hw & Hs & _) & H3 & _).
  - apply list_elem_of_further, list_elem_of_further, list_elem_of_here.
  - exact Hnd3.
  - discriminate.
  - intros t kt Ht Hkt _.
    apply elem_of_cons in Ht. destruct Ht as [->|Ht].
    { vm_compute in Hkt. injection Hkt as <-. reflexivity. }
    apply elem_of_cons in Ht. destruct Ht as [->|Ht].
    { vm_compute in Hkt. injection Hkt as <-. reflexivity. }
    apply list_elem_of_singleton in Ht. subst t.
    vm_compute in Hkt. injection Hkt as <-. reflexivity.
  - split; [exact H1|]. split; [|exact H3].
    exists kp'. split; [exact Hkp'|]. split; [exact Hw|exact Hs].
Defined.

Lemma elem_of_unlink a c (l : list nat) : a ∈ unlink c l -> a ∈ l.
Proof.
  induction l as [|b l IH]; simpl; [auto|].
  destruct (Nat.eqb b c).
  - intros H. right. exact H.
  - intros H. apply elem_of_cons in H. destruct H as [->|H]; [left|right; auto].
Qed.

(** [focus(NULL)] brings no client onto the stack chain. *)
Lemma focus_None_stack s a :
  a ∈ stack (cl (focus None s)) -> a ∈ stack (cl s).
Proof.
  unfold focus.
  destruct (mons s !! selmon s) as [sm|]; [|auto].
  destruct (first_visible (heap s) (stack (cl s)) sm) as [c'|] eqn:Hfv; [|auto].
  destruct (first_visible_Some _ _ _ _ Hfv) as (Hin & k & Hk & _).
  rewrite Hk. cbv zeta.
  set (s2 := if bool_decide _ then s else _).
  assert (H2 : cl s2 = cl s) by (subst s2; destruct (bool_decide _); reflexivity).
  set (s3 := if isurgent k then _ else s2).
  assert (H3 : cl s3 = cl s2) by (subst s3; destruct (isurgent k); reflexivity).
  change (stack (cl (upd_mon ?i ?f (attachstack c' (detachstack c' s3)))))
    with (c' :: stack (cl (detachstack c' s3))).
  destruct (detachstack_frame c' s3) as [C4 _]. rewrite C4, H3, H2. cbn [stack set_stack].
  intros H. apply elem_of_cons in H. destruct H as [->|H]; [exact Hin|].
  apply (elem_of_unlink _ _ _ H).
Qed.

Lemma elem_of_wins hp l wn :
  wn ∈ wins hp l -> exists a k, a ∈ l /\ hp !! a = Some k /\ win k = wn.
Proof.
  unfold wins. induction l as [|b l IH]; simpl.
  - intros H. inversion H.
  - destruct (hp !! b) as [kb|] eqn:Hb; simpl.
    + intros H. apply elem_of_cons in H. destruct H as [->|H].
      * exists b, kb. split; [left|auto].
      * destruct (IH H) as (a & k & Ha & Hk & Hw).
        exists a, k. split; [right; exact Ha|auto].
    + intros H. destruct (IH H) as (a & k & Ha & Hk & Hw).
      exists a, k. split; [right; exact Ha|auto].
Qed.

Lemma elem_of_concat_const {A B} (l : list A) (ms : list B) (a : A) :
  a ∈ concat (map (fun _ => l) ms) -> a ∈ l.
Proof.
  induction ms as [|m ms IH]; simpl.
  - intros H. inversion H.
  - intros H. apply elem_of_app in H. destruct H as [H|H]; [exact H|auto].
Qed.

(** X22.  [unmanage] of a client that swallows nothing, while no client of
    the chain swallows: the client is freed and is on neither chain
    afterwards, the other clients keep their order on the client chain and
    their window, monitor and tags, and the window, when no other client
    holds it, is in neither [_NET_CLIENT_LIST] nor
    [_NET_CLIENT_LIST_STACKING]. *)
Theorem unmanage_removes_client destroyed c s k :
  heap s !! c = Some k -> swallowing k = None ->
  (forall t kt, t ∈ clients (cl s) -> heap s !! t = Some kt -> swallowing kt = None) ->
  NoDup (clients (cl s)) -> NoDup (stack (cl s)) ->
  let s' := unmanage c destroyed s in
  heap s' !! c = None
  /\ clients (cl s') = filter (fun a => a <> c) (clients (cl s))
  /\ (c ∉ stack (cl s'))
  /\ (forall q, q <> c -> identity <$> heap s' !! q = identity <$> heap s !! q)
  /\ ((forall a ka, heap s !! a = Some ka -> win ka = win k -> a = c) ->
      (win k ∉ NetClientList (xserver s'))
      /\ (win k ∉ NetClientListStacking (xserver s'))).
Proof.
  intros Hk Hsw Hno Hndc Hnds. cbv zeta. unfold unmanage.
  rewrite Hk, Hsw, (swallowingclient_none (win k) s Hno). cbv zeta.
  set (s1 := free c (detachstack c (detach c s))).
  set (s3 := focus None (arrange (Some (mon k)) s1)).
  destruct (updateclientlist_spec s3) as (N1 & N2 & Hh & Hc & _). cbv zeta in *.
  destruct (detachstack_frame c (detach c s)) as [C0 E0].
  assert (H1 : heap s1 = delete c (heap s)).
  { subst s1. unfold free. cbn [heap set_heap]. rewrite E0. reflexivity. }
  assert (C1 : cl s1 = {| clients := unlink c (clients (cl s));
                          stack := unlink c (stack (cl s)) |}).
  { subst s1. unfold free. change (cl (set_heap ?h ?t)) with (cl t).
    rewrite C0. reflexivity. }
  assert (E : identity <$> heap s3 = identity <$> heap s1).
  { subst s3. rewrite focus_identity, arrange_identity. reflexivity. }
  assert (Cc : clients (cl s3) = unlink c (clients (cl s))).
  { subst s3. destruct (focus_stable None (arrange (Some (mon k)) s1)) as (_ & _ & F).
    rewrite F. destruct (arrange_stable (Some (mon k)) s1) as (_ & _ & A & _).
    rewrite A, C1. reflexivity. }
  assert (Cs : forall a, a ∈ stack (cl s3) -> a ∈ unlink c (stack (cl s))).
  { intros a Ha. subst s3. apply focus_None_stack in Ha.
    destruct (arrange_stable (Some (mon k)) s1) as (_ & _ & A & _).
    rewrite A, C1 in Ha. exact Ha. }
  assert (Hq : forall q, q <> c -> identity <$> heap s3 !! q = identity <$> heap s !! q).
  { intros q Hqc. pose proof (f_equal (fun hp => hp !! q) E) as Eq. cbv beta in Eq.
    rewrite !lookup_fmap in Eq. rewrite Eq, H1, lookup_delete_ne by congruence.
    reflexivity. }
  assert (Hwin : forall a ka, heap s3 !! a = Some ka -> win ka = win k ->
                 (forall a ka, heap s !! a = Some ka -> win ka = win k -> a = c) ->
                 False).
  { intros a ka Hka Hw Huniq.
    destruct (decide (a = c)) as [->|Hac].
    - assert (Hn : heap s3 !! c = None).
      { apply (fmap_heap_lookup_None identity _ _ _ E).
        rewrite H1. apply lookup_delete_eq. }
      congruence.
    - pose proof (Hq a Hac) as Ha. rewrite Hka in Ha.
      destruct (heap s !! a) as [ka0|] eqn:Hka0; [|discriminate].
      simpl in Ha. injection Ha as Ew _ _ _.
      apply Hac. apply (Huniq a ka0 Hka0). congruence. }
  rewrite Hh, Hc. split; [|split; [|split; [|split]]].
  - apply (fmap_heap_lookup_None identity _ _ _ E).
    rewrite H1. apply lookup_delete_eq.
  - rewrite Cc. apply unlink_filter. exact Hndc.
  - intros Hin. apply Cs in Hin. exact (unlink_NoDup_not_in c _ Hnds Hin).
  - exact Hq.
  - intros Huniq. rewrite N1, N2. split; intros Hin.
    + apply elem_of_concat_const, elem_of_wins in Hin.
      destruct Hin as (a & ka & _ & Hka & Hw). exact (Hwin a ka Hka Hw Huniq).
    + apply elem_of_concat_const, elem_of_wins in Hin.
      destruct Hin as (a & ka & _ & Hka & Hw). exact (Hwin a ka Hka Hw Huniq).
Qed.

Lemma unmanage_removes_client_witness :
  let s' := unmanage 2%nat false terminal_child_and_other in
  heap s' !! 2%nat = None
  /\ clients (cl s') = [3%nat; 1%nat]
  /\ (2%nat ∉ stack (cl s'))
  /\ (20 ∉ NetClientList (xserver s')).
Proof.
  assert (Hnd3 : NoDup [3%nat; 2%nat; 1%nat]).
  { apply NoDup_cons. split.
    - rewrite elem_of_cons, list_elem_of_singleton. intros [H|H]; discriminate.
    - apply NoDup_cons; split;
        [rewrite list_elem_of_singleton; discriminate | apply NoDup_singleton]. }
  assert (Huniq : forall a ka, heap terminal_child_and_other !! a = Some ka ->
                   win ka = 20 -> a = 2%nat).
  { intros a ka Hka Hw.
    destruct (decide (a = 1%nat)) as [->|H1'].
    { vm_compute in Hka. injection Hka as <-. discriminate. }
    destruct (decide (a = 2%nat)) as [->|H2']; [reflexivity|].
    destruct (decide (a = 3%nat)) as [->|H3'].
    { vm_compute in Hka. injection Hka as <-. discriminate. }
    exfalso. unfold terminal_child_and_other, sample_world in Hka.
    cbn [heap set_xserver list_to_map foldr fst snd uncurry] in Hka.
    rewrite !lookup_insert_ne in Hka by congruence.
    rewrite lookup_empty in Hka. discriminate. }
  cbv zeta.
  destruct (unmanage_removes_client false 2%nat terminal_child_and_other
              (sample_client 20 1 0%nat) eq_refl eq_refl)
    as (H1 & H2 & H3 & _ & H5).
  - intros t kt Ht Hkt.
    apply elem_of_cons in Ht. destruct Ht as [->|Ht].
    { vm_compute in Hkt. injection Hkt as <-. reflexivity. }
    apply elem_of_cons in Ht. destruct Ht as [->|Ht].
    { vm_compute in Hkt. injection Hkt as <-. reflexivity. }
    apply list_elem_of_singleton in Ht. subst t.
    vm_compute in Hkt. injection Hkt as <-. reflexivity.
  - exact Hnd3.
  - exact Hnd3.
  - destruct (H5 Huniq) as [H5a _].
    split; [exact H1|]. split; [exact H2|]. split; [exact H3|exact H5a].
Defined.
